(** * IDASQL test client and test harness

    A shallow embedding of [src/test/test_client.py] and
    [src/test/run_tests.py]: the length-prefixed JSON wire protocol spoken by
    [IdasqlClient], and the harness that builds, launches, probes, drives and
    stops the server.

    Python objects are modelled by records, mutation by explicit state
    passing inside a small state/exception/output monad, and every call that
    reaches outside the process (socket, subprocess, clock, console) leaves an
    [action] in the monad's output, so that the order and the number of such
    calls can be stated. *)

From Stdlib Require Import List ZArith String Ascii Bool Lia.
From Stdlib Require Import Strings.Byte.
Import ListNotations.

Set Implicit Arguments.

(** ** Python exceptions *)

(** The exception classes the two files can meet.  All but
    [KeyboardInterrupt] derive from [Exception]. *)
Inductive pyclass : Type :=
| OSError | StructError | ValueError | KeyError | TypeError | AttributeError
| UnboundLocalError | RuntimeError | TimeoutExpired | KeyboardInterrupt.

Record exn : Type := mkExn { exn_class : pyclass; exn_text : string }.

(** [isinstance(e, Exception)] *)
Definition is_Exception (e : exn) : bool :=
  match exn_class e with KeyboardInterrupt => false | _ => true end.

(** [isinstance(e, subprocess.TimeoutExpired)] *)
Definition is_TimeoutExpired (e : exn) : bool :=
  match exn_class e with TimeoutExpired => true | _ => false end.

(** [str(e)] *)
Definition str (e : exn) : string := exn_text e.

(** ** Python values

    What [json.loads] can return, with the few operations the test
    predicates apply to it.  Of a float the model keeps only whether it is
    zero: nothing else of it is ever looked at. *)

#[local] Unset Elimination Schemes.
Inductive json : Type :=
| JNull
| JBool (b : bool)
| JInt (z : Z)
| JFloat (zero : bool)
| JStr (s : string)
| JList (l : list json)
| JDict (kvs : list (string * json)).
#[local] Set Elimination Schemes.

(** ** Console lines

    What [TestHarness.log] and [print] write, one constructor for each
    format string of the two files. *)

(** [self.log(msg)], which prints [f"[harness] {msg}"] *)
Inductive log_msg : Type :=
| SkipBuild                            (* "Skipping build (--skip-build)" *)
| Building (name : string)             (* f"Building {source_dir.name}..." *)
| ConfigureFailed (stderr : string)    (* f"CMake configure failed:\n{result.stderr}" *)
| BuildFailed (stderr : string)        (* f"CMake build failed:\n{result.stderr}" *)
| Copying (name dest : string)         (* f"Copying {dll.name} to {plugins_dest}" *)
| BuildingCli                          (* "Building CLI..." *)
| CliConfigureFailed (stderr : string) (* f"CLI configure failed:\n{result.stderr}" *)
| CliBuildFailed (stderr : string)     (* f"CLI build failed:\n{result.stderr}" *)
| RunningLocal                         (* "Running CLI local mode tests..." *)
| CliNotFound (path : string)          (* f"CLI not found: {self.cli_exe}" *)
| StartingDriver (db : string)         (* f"Starting driver with {self.test_db.name}..." *)
| DriverNotFound (path : string)       (* f"Driver not found: {driver_exe}" *)
| Waiting                              (* "Waiting for server to start..." *)
| DriverExited (output : string)       (* f"Driver exited unexpectedly:\n{output}" *)
| ServerReady                          (* "Server is ready." *)
| ProbeTimeout                         (* "Timeout waiting for server" *)
| Stopping                             (* "Stopping driver..." *)
| RunningRemote                        (* "Running CLI remote mode tests..." *)
| ConnectFailed.                       (* "Failed to connect to server" *)

Inductive line : Type :=
| LHarness (msg : log_msg)
| LBlank                               (* print() *)
| LRule                                (* print("=" * 60) *)
| LTitle (title : string)
| LStatus (passed : bool) (name : string) (* print(f"[{status}] {r['name']}") *)
| LSql (sql : string)                  (* print(f"        SQL: {r['sql']}") *)
| LError (err : json)                  (* print(f"        Error: {r['error']}") *)
| LOutput (first_line : string)        (* print(f"        Output: {first_line}...") *)
| LSubtotal (passed failed : nat)      (* print(f"Subtotal: {passed} passed, {failed} failed") *)
| LTotal (passed failed : nat)         (* print(f"Total: {total_passed} passed, {total_failed} failed") *)
| LDriverOutput (output : string)      (* print(f"[driver output]\n{output}") *)
| LFatal (err : string).               (* print(f"Error: {e}") *)

(** ** Actions: calls that leave the process *)
Inductive action : Type :=
| ASocket                                        (* socket.socket(AF_INET, SOCK_STREAM) *)
| ASetTimeout (ms : Z)                           (* sock.settimeout *)
| AConnect (host : string) (port : Z)            (* sock.connect *)
| AClose                                         (* sock.close *)
| ASendAll (data : list byte)                    (* sock.sendall *)
| ARecv (bufsize : Z) (chunk : list byte)        (* sock.recv and what it gave *)
| ARun (argv : list string) (cwd input : option string) (timeout_ms : option Z)
                                                 (* subprocess.run *)
| APopen (argv : list string)                    (* subprocess.Popen *)
| APoll                                          (* Popen.poll *)
| ATerminate                                     (* Popen.terminate *)
| AWait (timeout_ms : option Z)                  (* Popen.wait *)
| AKill                                          (* Popen.kill *)
| AReadOutput (output : string)                  (* Popen.stdout.read and what it gave *)
| ASleep (ms : Z)                                (* time.sleep *)
| ACopy (file dest : string)                     (* shutil.copy2 *)
| APrint (l : line).

Definition trace := list action.

(** ** The monad: state, exceptions, output *)

Inductive res (A : Type) : Type :=
| Ret (a : A)
| Raise (e : exn)
| Diverge.                  (* a loop of the model ran out of fuel *)
Arguments Raise {A} e.
Arguments Diverge {A}.

Definition M (S A : Type) : Type := S -> res A * S * trace.

Definition ret {S A} (a : A) : M S A := fun s => (Ret a, s, []).
Definition raise {S A} (e : exn) : M S A := fun s => (Raise e, s, []).
Definition diverge {S A} : M S A := fun s => (Diverge, s, []).
Definition emit {S} (a : action) : M S unit := fun s => (Ret tt, s, [a]).
Definition get {S} : M S S := fun s => (Ret s, s, []).
Definition put {S} (s : S) : M S unit := fun _ => (Ret tt, s, []).

Definition bind {S A B} (m : M S A) (f : A -> M S B) : M S B :=
  fun s =>
    match m s with
    | (Ret a, s1, t1) => let '(r, s2, t2) := f a s1 in (r, s2, t1 ++ t2)
    | (Raise e, s1, t1) => (Raise e, s1, t1)
    | (Diverge, s1, t1) => (Diverge, s1, t1)
    end.

Declare Scope py_scope.
Delimit Scope py_scope with py.
Notation "x <- m ;; k" := (bind m (fun x => k))
  (at level 61, m at next level, right associativity) : py_scope.
Notation "m ;; k" := (bind m (fun _ => k))
  (at level 61, right associativity) : py_scope.
Open Scope py_scope.

(** [try: body  except C as e: handler e], [catches e] telling whether [e]
    is an instance of [C]. *)
Definition try_catch {S A} (catches : exn -> bool) (body : M S A)
    (handler : exn -> M S A) : M S A :=
  fun s =>
    match body s with
    | (Raise e, s1, t1) =>
        if catches e
        then let '(r, s2, t2) := handler e s1 in (r, s2, t1 ++ t2)
        else (Raise e, s1, t1)
    | other => other
    end.

(** [except Exception as e] *)
Definition try_except {S A} (body : M S A) (handler : exn -> M S A) : M S A :=
  try_catch is_Exception body handler.

(** a bare [except:], which catches everything *)
Definition try_except_all {S A} (body : M S A) (handler : M S A) : M S A :=
  try_catch (fun _ => true) body (fun _ => handler).

(** [except subprocess.TimeoutExpired] *)
Definition try_except_timeout {S A} (body : M S A) (handler : M S A) : M S A :=
  try_catch is_TimeoutExpired body (fun _ => handler).

(** [except subprocess.TimeoutExpired: ...  except Exception as e: ...] *)
Definition try_except2 {S A} (body : M S A) (on_timeout : M S A)
    (on_exception : exn -> M S A) : M S A :=
  try_catch (fun e => is_TimeoutExpired e || is_Exception e) body
    (fun e => if is_TimeoutExpired e then on_timeout else on_exception e).

(** [try: body  finally: cleanup].  The cleanup runs on every way out of the
    body; when it raises itself, its exception replaces the body's outcome. *)
Definition try_finally {S A} (body : M S A) (cleanup : M S unit) : M S A :=
  fun s =>
    match body s with
    | (Diverge, s1, t1) => (Diverge, s1, t1)
    | (r, s1, t1) =>
        match cleanup s1 with
        | (Ret _, s2, t2) => (r, s2, t1 ++ t2)
        | (Raise e, s2, t2) => (Raise e, s2, t1 ++ t2)
        | (Diverge, s2, t2) => (Diverge, s2, t1 ++ t2)
        end
    end.

(** Running a computation on a part of the state (an attribute that holds a
    mutable object). *)
Definition zoom {S T A} (proj : S -> T) (upd : T -> S -> S) (m : M T A) : M S A :=
  fun s => let '(r, t', tr) := m (proj s) in (r, upd t' s, tr).

(** ** Wire protocol: [struct.pack('<I', n)] and [struct.unpack('<I', b)] *)

Module Wire.

Definition byte_of_Z (z : Z) : byte :=
  match Byte.of_N (Z.to_N (z mod 256)) with
  | Some b => b
  | None => Byte.x00
  end.

Definition Z_of_byte (b : byte) : Z := Z.of_N (Byte.to_N b).

Definition U32_MAX : Z := 4294967295.

(** [struct.pack('<I', n)]: four bytes, least significant first;
    [struct.error] outside the unsigned 32-bit range. *)
Definition pack_u32 {S} (n : Z) : M S (list byte) :=
  if ((0 <=? n) && (n <=? U32_MAX))%Z
  then ret [ byte_of_Z n;
             byte_of_Z (Z.shiftr n 8);
             byte_of_Z (Z.shiftr n 16);
             byte_of_Z (Z.shiftr n 24) ]
  else raise (mkExn StructError "'I' format requires 0 <= number <= 4294967295").

Definition le32 (b0 b1 b2 b3 : byte) : Z :=
  Z.lor (Z_of_byte b0)
    (Z.lor (Z.shiftl (Z_of_byte b1) 8)
       (Z.lor (Z.shiftl (Z_of_byte b2) 16) (Z.shiftl (Z_of_byte b3) 24))).

(** [struct.unpack('<I', b)[0]]: [struct.error] unless [b] has four bytes. *)
Definition unpack_u32 {S} (b : list byte) : M S Z :=
  match b with
  | [b0; b1; b2; b3] => ret (le32 b0 b1 b2 b3)
  | _ => raise (mkExn StructError "unpack requires a buffer of 4 bytes")
  end.

End Wire.

(** ** Operations on Python values *)

Module Py.

(** A computation that touches no state: a value, or an exception. *)
Definition rbind {A B} (m : res A) (f : A -> res B) : res B :=
  match m with
  | Ret a => f a
  | Raise e => Raise e
  | Diverge => Diverge
  end.

Definition lift {S A} (m : res A) : M S A := fun s => (m, s, []).

Fixpoint lookup (k : string) (kvs : list (string * json)) : option json :=
  match kvs with
  | [] => None
  | (k', v) :: rest => if String.eqb k k' then Some v else lookup k rest
  end.

(** [needle in hay] on two [str] *)
Fixpoint contains (needle hay : string) : bool :=
  if String.prefix needle hay then true
  else match hay with
       | EmptyString => false
       | String _ rest => contains needle rest
       end.

(** [c.lower()] on an ASCII letter; other characters are kept. *)
Definition lower_ascii (c : ascii) : ascii :=
  let n := nat_of_ascii c in
  if (65 <=? n)%nat && (n <=? 90)%nat then ascii_of_nat (n + 32) else c.

Fixpoint lower (s : string) : string :=
  match s with
  | EmptyString => EmptyString
  | String c rest => String (lower_ascii c) (lower rest)
  end.

(** [c.isspace()] on the characters below 128 *)
Definition isspace (c : ascii) : bool :=
  let n := nat_of_ascii c in
  ((9 <=? n)%nat && (n <=? 13)%nat) || ((28 <=? n)%nat && (n <=? 32)%nat).

Fixpoint lstrip (s : string) : string :=
  match s with
  | EmptyString => EmptyString
  | String c rest => if isspace c then lstrip rest else s
  end.

(** [bool(s.strip())]: some character of [s] is not white space. *)
Definition strip_nonempty (s : string) : bool :=
  match lstrip s with
  | EmptyString => false
  | String _ _ => true
  end.

(** [bool(v)] *)
Definition truthy (v : json) : bool :=
  match v with
  | JNull => false
  | JBool b => b
  | JInt z => negb (z =? 0)%Z
  | JFloat zero => negb zero
  | JStr s => negb (String.eqb s "")
  | JList l => match l with [] => false | _ => true end
  | JDict kvs => match kvs with [] => false | _ => true end
  end.

Definition repr_str (k : string) : string := "'" ++ k ++ "'".

(** [v[k]] with a [str] key *)
Definition getitem (v : json) (k : string) : res json :=
  match v with
  | JDict kvs =>
      match lookup k kvs with
      | Some x => Ret x
      | None => Raise (mkExn KeyError (repr_str k))
      end
  | JList _ => Raise (mkExn TypeError "list indices must be integers or slices, not str")
  | JStr _ => Raise (mkExn TypeError "string indices must be integers, not 'str'")
  | _ => Raise (mkExn TypeError "object is not subscriptable")
  end.

(** [len(v)] *)
Definition len (v : json) : res Z :=
  match v with
  | JStr s => Ret (Z.of_nat (String.length s))
  | JList l => Ret (Z.of_nat (List.length l))
  | JDict kvs => Ret (Z.of_nat (List.length kvs))
  | _ => Raise (mkExn TypeError "object has no len()")
  end.

Definition is_str (k : string) (v : json) : bool :=
  match v with
  | JStr s => String.eqb s k
  | _ => false
  end.

(** [k in v] with a [str] on the left *)
Definition contained (k : string) (v : json) : res bool :=
  match v with
  | JStr s => Ret (contains k s)
  | JList l => Ret (existsb (is_str k) l)
  | JDict kvs => Ret (match lookup k kvs with Some _ => true | None => false end)
  | _ => Raise (mkExn TypeError "argument is not iterable")
  end.

(** [a and b]: the value of [a] when it is false, else the value of [b];
    [b] is not evaluated in the first case. *)
Definition and_ (a : res json) (b : res json) : res json :=
  rbind a (fun va => if truthy va then b else Ret va).

(** [not a] *)
Definition not_ (a : res json) : res json :=
  rbind a (fun va => Ret (JBool (negb (truthy va)))).

End Py.

(** The two library calls that turn a request into bytes and bytes into a
    response: [json.dumps({'sql': sql}).encode('utf-8')] and
    [json.loads(b.decode('utf-8'))], which fails with a [ValueError]
    ([UnicodeDecodeError], [JSONDecodeError]). *)
Class Codec : Type := {
  dumps_sql : string -> list byte;
  loads : list byte -> json + string
}.

(** ** [test_client.py]: [IdasqlClient] *)

Module Client.

(** What the peer and the network hold in store for a connected socket.  The
    incoming stream is a list of events: a segment of bytes that arrives in
    one piece, or a fault ([OSError]: reset, timed out) met by the [recv]
    that reaches it.  The stream's end is the peer's orderly close.  Each
    [sendall] takes its outcome from [send_faults], [None] or no entry
    meaning it went through. *)
Inductive event : Type :=
| Seg (b : byte) (bs : list byte)
| Fault (msg : string).

Record socket : Type := mkSocket {
  inbox : list event;
  send_faults : list (option string)
}.

(** The outcome of one connection attempt. *)
Inductive dial : Type :=
| Refused (msg : string)
| Accepted (s : socket).

Record client : Type := mkClient {
  host : string;
  port : Z;
  sock : option socket
}.

Definition set_sock (o : option socket) (c : client) : client :=
  mkClient (host c) (port c) o.

(** [IdasqlClient(host, port)] *)
Definition new (host : string) (port : Z) : client := mkClient host port None.
Definition new_default : client := new "localhost" 13337.

(** A socket object that has not been connected. *)
Definition unconnected : socket := mkSocket [Fault "Socket is not connected"] [].

(** *** Socket methods *)

Definition seg_event (bs : list byte) (rest : list event) : list event :=
  match bs with
  | [] => rest
  | b :: bs' => Seg b bs' :: rest
  end.

(** [sock.recv(bufsize)]: at most [bufsize] bytes of what has arrived; the
    empty result is the closed stream. *)
Definition recv (bufsize : Z) : M socket (list byte) :=
  s <- get ;;
  if (bufsize <? 0)%Z then raise (mkExn ValueError "negative buffersize in recv")
  else if (bufsize =? 0)%Z then emit (ARecv bufsize []) ;; ret []
  else
    match inbox s with
    | [] => emit (ARecv bufsize []) ;; ret []
    | Fault msg :: rest =>
        put (mkSocket rest (send_faults s)) ;;
        emit (ARecv bufsize []) ;;
        raise (mkExn OSError msg)
    | Seg b bs :: rest =>
        let k := Z.to_nat bufsize in
        let chunk := firstn k (b :: bs) in
        put (mkSocket (seg_event (skipn k (b :: bs)) rest) (send_faults s)) ;;
        emit (ARecv bufsize chunk) ;;
        ret chunk
    end.

(** [sock.sendall(data)] *)
Definition sendall (data : list byte) : M socket unit :=
  s <- get ;;
  emit (ASendAll data) ;;
  match send_faults s with
  | [] => ret tt
  | None :: rest => put (mkSocket (inbox s) rest) ;; ret tt
  | Some msg :: rest => put (mkSocket (inbox s) rest) ;; raise (mkExn OSError msg)
  end.

(** [sock.close()] *)
Definition close : M socket unit := emit AClose.

(** A method call on [self.sock]. *)
Definition on_sock {A} (m : M socket A) : M client A :=
  fun c =>
    match sock c with
    | Some s => let '(r, s', t) := m s in (r, set_sock (Some s') c, t)
    | None => (Raise (mkExn AttributeError "'NoneType' object has no attribute"), c, [])
    end.

(** *** [connect], [disconnect] *)

Definition connect (d : dial) (timeout_ms : Z) : M client bool :=
  try_except
    (c <- get ;;
     emit ASocket ;;
     put (set_sock (Some unconnected) c) ;;
     emit (ASetTimeout timeout_ms) ;;
     emit (AConnect (host c) (port c)) ;;
     match d with
     | Refused msg => raise (mkExn OSError msg)
     | Accepted s => put (set_sock (Some s) c) ;; ret true
     end)
    (fun e =>
       c <- get ;;
       put (set_sock None c) ;;
       ret false).

Definition disconnect : M client unit :=
  c <- get ;;
  match sock c with
  | Some _ =>
      try_except_all (on_sock close) (ret tt) ;;
      c' <- get ;;
      put (set_sock None c')
  | None => ret tt
  end.

(** [__enter__] and [__exit__] *)
Definition enter (d : dial) : M client unit := connect d 5000 ;; ret tt.
Definition exit : M client unit := disconnect.

(** *** [_recv_exact]

    The [while] loop adds at least one byte to [data] at every turn that
    does not leave it, so [n] turns are enough; [fuel] counts them. *)
Fixpoint recv_exact_loop (fuel : nat) (n : Z) (data : list byte)
  : M client (option (list byte)) :=
  if (Z.of_nat (List.length data) <? n)%Z then
    match fuel with
    | O => diverge
    | S fuel' =>
        chunk <- on_sock (recv (n - Z.of_nat (List.length data))) ;;
        match chunk with
        | [] => ret None
        | _ :: _ => recv_exact_loop fuel' n (data ++ chunk)
        end
    end
  else ret (Some data).

Definition _recv_exact (n : Z) : M client (option (list byte)) :=
  recv_exact_loop (Z.to_nat n) n [].

(** *** [query] *)

Definition failure (msg : string) : json :=
  JDict [("success"%string, JBool false); ("error"%string, JStr msg)].

Definition RESPONSE_LIMIT : Z := 100 * 1024 * 1024.

Section WithCodec.
Context {codec : Codec}.

Definition decode (resp_bytes : list byte) : M client json :=
  match loads resp_bytes with
  | inl v => ret v
  | inr msg => raise (mkExn ValueError msg)
  end.

(** The last lines of [query]: the payload of the declared length and its
    decoding. *)
Definition read_payload (resp_len : Z) : M client json :=
  resp_bytes <- _recv_exact resp_len ;;
  match resp_bytes with
  | None => ret (failure "Connection closed")
  | Some rb => decode rb
  end.

Definition query (sql : string) : M client json :=
  c <- get ;;
  match sock c with
  | None => ret (failure "Not connected")
  | Some _ =>
      try_except
        (let req_bytes := dumps_sql sql in
         header <- Wire.pack_u32 (Z.of_nat (List.length req_bytes)) ;;
         on_sock (sendall (header ++ req_bytes)) ;;
         len_bytes <- _recv_exact 4 ;;
         match len_bytes with
         | None => ret (failure "Connection closed")
         | Some lb =>
             resp_len <- Wire.unpack_u32 lb ;;
             if (resp_len >? RESPONSE_LIMIT)%Z
             then ret (failure "Response too large")
             else read_payload resp_len
         end)
        (fun e => ret (failure (str e)))
  end.

(** *** [run_basic_tests] *)

Record basic_test : Type := mkBasicTest {
  bt_name : string;
  bt_sql : string;
  bt_check : json -> res json
}.

Definition success_of (r : json) : res json := Py.getitem r "success".

Definition tests : list basic_test :=
  [ mkBasicTest "count_funcs" "SELECT COUNT(*) as count FROM funcs"
      (fun r => Py.and_ (success_of r)
                  (Py.rbind (Py.getitem r "rows") (fun rows =>
                   Py.rbind (Py.len rows) (fun n => Ret (JBool (n =? 1)%Z)))));
    mkBasicTest "list_funcs" "SELECT name, address, size FROM funcs LIMIT 5"
      (fun r => Py.and_ (success_of r)
                  (Py.rbind (Py.getitem r "columns") (fun cols =>
                   Py.rbind (Py.contained "name" cols) (fun b => Ret (JBool b)))));
    mkBasicTest "list_segments" "SELECT name, start_ea, end_ea FROM segments"
      (fun r => success_of r);
    mkBasicTest "list_names" "SELECT address, name FROM names LIMIT 10"
      (fun r => success_of r);
    mkBasicTest "invalid_table" "SELECT * FROM nonexistent_table"
      (fun r => Py.and_ (Py.not_ (success_of r))
                  (Py.rbind (Py.contained "error" r) (fun b => Ret (JBool b))));
    mkBasicTest "syntax_error" "SELECTT * FROM funcs"
      (fun r => Py.and_ (Py.not_ (success_of r))
                  (Py.rbind (Py.contained "error" r) (fun b => Ret (JBool b)))) ].

(** One entry of the list [run_basic_tests] returns. *)
Record basic_result : Type := mkBasicResult {
  br_name : string;
  br_sql : string;
  br_passed : json;
  br_result : json
}.

(** The [for] loop, over the tests still to run, with [results] so far. *)
Fixpoint run_tests_from (todo : list basic_test) (results : list basic_result)
  : M client (list basic_result) :=
  match todo with
  | [] => ret results
  | test :: rest =>
      result <- query (bt_sql test) ;;
      passed <- Py.lift (bt_check test result) ;;
      run_tests_from rest
        (results ++ [mkBasicResult (bt_name test) (bt_sql test) passed result])
  end.

Definition run_basic_tests : M client (list basic_result) :=
  run_tests_from tests [].

End WithCodec.

End Client.

(** ** [run_tests.py]: [TestHarness]

    Times are in milliseconds.  The environment handed to child processes
    ([get_cli_env]) is not modelled: nothing the harness decides depends on
    it. *)

Module Harness.

Inductive platform : Type := Win32 | Darwin | Linux.

(** [subprocess.CompletedProcess] *)
Record completed : Type := mkCompleted {
  returncode : Z;
  stdout : string;
  stderr : string
}.

(** What a [subprocess.run(..., timeout=60)] comes to. *)
Inductive run_outcome : Type :=
| Completed (c : completed)
| TimedOut
| RunFault (msg : string).          (* OSError: missing file, no permission *)

(** Everything outside the harness that answers it. *)
Record env : Type := mkEnv {
  sys_platform : platform;
  environ_IDASDK : option string;                   (* os.environ.get('IDASDK') *)
  script_dir : string;                              (* Path(__file__).parent *)
  script_dir_parent : string;                       (* its parent *)
  path_exists : string -> bool;                     (* Path.exists *)
  glob : string -> string -> list string;           (* Path.glob: directory, pattern *)
  copy_fault : string -> option string;             (* shutil.copy2 failing on a file *)
  cmake : string -> list string -> completed + string; (* cwd, argv; or OSError *)
  cli : list string -> option string -> run_outcome;   (* argv, input *)
  popen_fault : option string;                      (* Popen failing to start the driver *)
  server_output : string;            (* all the server writes until it is dead *)
  server_graceful : bool;            (* it exits within the grace period of terminate *)
  tick_exited : nat -> bool;         (* turn [i] of the probe: poll() finds it dead *)
  tick_dial : nat -> Client.dial;    (* turn [i]: outcome of the probe connection *)
  tick_connect_ms : nat -> N;        (* turn [i]: time that connection attempt takes *)
  remote_dial : Client.dial          (* outcome of the connection of the remote tests *)
}.

(** A [subprocess.Popen] object. *)
Record process : Type := mkProcess {
  p_alive : bool;
  p_unread : string;                 (* what stdout.read() will return *)
  p_graceful : bool
}.

(** The state the harness runs in: the one attribute it mutates, the clock,
    and the number of launched server processes still alive. *)
Record state : Type := mkState {
  driver_process : option process;
  now : Z;
  running : nat
}.

Definition initial : state := mkState None 0 0.

(** The attributes [__init__] sets once and for all. *)
Record harness : Type := mkHarness {
  skip_build : bool;
  test_dir : string;
  src_dir : string;
  idasdk : string;
  idabin : string;
  test_db : string;
  config : string;
  cli_config : string;
  cli_dir : string;
  cli_exe : string
}.

(** One entry of a result list; an absent key is [None]. *)
Record test_result : Type := mkResult {
  tr_name : string;
  tr_passed : json;
  tr_sql : option string;
  tr_error : option json;
  tr_output : option string;
  tr_returncode : option Z
}.

(** *** Paths, strings *)

Definition path_join (a b : string) : string := a ++ "/" ++ b.
Infix "//" := path_join (at level 40, left associativity).

Definition is_sep (c : ascii) : bool := Ascii.eqb c "/".

(** [Path.name]: what follows the last separator. *)
Fixpoint path_name_from (s acc : string) : string :=
  match s with
  | EmptyString => acc
  | String c rest =>
      if is_sep c then path_name_from rest EmptyString
      else path_name_from rest (acc ++ String c EmptyString)
  end.
Definition path_name (p : string) : string := path_name_from p EmptyString.

(** [s[:n]] *)
Definition take (n : nat) (s : string) : string := String.substring 0 n s.

(** [s.split('\n')[0]] *)
Fixpoint until_newline (s : string) : string :=
  match s with
  | EmptyString => EmptyString
  | String c rest =>
      if Ascii.eqb c "010" then EmptyString else String c (until_newline rest)
  end.

Fixpoint join_lines (l : list string) : string :=
  match l with
  | [] => EmptyString
  | [x] => x
  | x :: rest => x ++ String "010" (join_lines rest)
  end.

(** *** Test definitions: [define_cli_local_tests] *)

(** The ['mode'] of a test with the key that goes with it. *)
Inductive local_input : Type :=
| Query (sql : string)
| Interactive (commands : list string)
| OtherMode (mode : string).

Record local_test : Type := mkLocalTest {
  lt_name : string;
  lt_input : local_input;
  lt_check : string -> Z -> res json
}.

Definition has (needle : string) (out : string) : res json :=
  Ret (JBool (Py.contains needle out)).
Definition rc_is_0 (rc : Z) : res json := Ret (JBool (rc =? 0)%Z).
Definition rc_not_0 (rc : Z) : res json := Ret (JBool (negb (rc =? 0)%Z)).

Definition define_cli_local_tests : list local_test :=
  [ mkLocalTest "cli_local_count_funcs" (Query "SELECT COUNT(*) as count FROM funcs")
      (fun out rc => Py.and_ (Py.and_ (rc_is_0 rc) (has "count" out)) (has "row(s)" out));
    mkLocalTest "cli_local_list_funcs" (Query "SELECT name, address FROM funcs LIMIT 3")
      (fun out rc => Py.and_ (Py.and_ (Py.and_ (rc_is_0 rc) (has "name" out))
                                      (has "address" out)) (has "3 row(s)" out));
    mkLocalTest "cli_local_list_segments" (Query "SELECT name, start_ea FROM segments")
      (fun out rc => Py.and_ (rc_is_0 rc) (has "name" out));
    mkLocalTest "cli_local_invalid_table" (Query "SELECT * FROM nonexistent_table")
      (fun out rc => Py.and_ (rc_not_0 rc) (has "error" (Py.lower out)));
    mkLocalTest "cli_local_syntax_error" (Query "SELECTT * FROM funcs")
      (fun out rc => Py.and_ (rc_not_0 rc) (has "error" (Py.lower out)));
    mkLocalTest "cli_interactive_tables" (Interactive [".tables"; ".quit"]%string)
      (fun out rc => Py.and_ (Py.and_ (rc_is_0 rc) (has "funcs" out)) (has "segments" out));
    mkLocalTest "cli_interactive_query"
      (Interactive ["SELECT COUNT(*) as cnt FROM funcs;"; ".quit"]%string)
      (fun out rc => Py.and_ (rc_is_0 rc) (has "cnt" out)) ].

(** *** Helpers on the state *)

Definition nl : string := String "010" EmptyString.

Definition print {S} (l : line) : M S unit := emit (APrint l).

(** [TestHarness.log] *)
Definition log (msg : log_msg) : M state unit := print (LHarness msg).

Definition set_driver (o : option process) : M state unit :=
  s <- get ;; put (mkState o (now s) (running s)).

(** [time.time()] *)
Definition time : M state Z := s <- get ;; ret (now s).

Definition elapse (ms : Z) : M state unit :=
  s <- get ;; put (mkState (driver_process s) (now s + ms)%Z (running s)).

(** [time.sleep] *)
Definition sleep (ms : Z) : M state unit := emit (ASleep ms) ;; elapse ms.

(** The process behind [self.driver_process] is found dead, or dies. *)
Definition exit_process (s : state) : state :=
  match driver_process s with
  | Some p =>
      if p_alive p
      then mkState (Some (mkProcess false (p_unread p) (p_graceful p)))
                   (now s) (Nat.pred (running s))
      else s
  | None => s
  end.

(** A method call on [self.driver_process]. *)
Definition with_process {A} (f : process -> M state A) : M state A :=
  s <- get ;;
  match driver_process s with
  | Some p => f p
  | None => raise (mkExn AttributeError "'NoneType' object has no attribute")
  end.

(** A method call on a client held in a local variable. *)
Definition with_client {A} (m : M Client.client A) (c : Client.client)
  : M state (A * Client.client) :=
  fun s =>
    let '(r, c', t) := m c in
    (match r with
     | Ret a => Ret (a, c')
     | Raise e => Raise e
     | Diverge => Diverge
     end, s, t).

Section WithEnv.
Context {codec : Codec}.
Variable E : env.

(** *** Child processes *)

Definition run_cmd (cwd : string) (argv : list string) : M state completed :=
  emit (ARun argv (Some cwd) None None) ;;
  match cmake E cwd argv with
  | inl c => ret c
  | inr msg => raise (mkExn OSError msg)
  end.

Definition CLI_TIMEOUT : Z := 60000.

Definition run_cli (argv : list string) (input : option string) : M state completed :=
  emit (ARun argv None input (Some CLI_TIMEOUT)) ;;
  match cli E argv input with
  | Completed c => ret c
  | TimedOut => raise (mkExn TimeoutExpired "Command timed out after 60 seconds")
  | RunFault msg => raise (mkExn OSError msg)
  end.

(** [subprocess.Popen(...)], assigned to [self.driver_process] *)
Definition popen (argv : list string) : M state unit :=
  emit (APopen argv) ;;
  match popen_fault E with
  | Some msg => raise (mkExn OSError msg)
  | None =>
      s <- get ;;
      put (mkState (Some (mkProcess true (server_output E) (server_graceful E)))
                   (now s) (S (running s)))
  end.

(** [poll() is not None] at turn [i] of the probe *)
Definition poll (i : nat) : M state bool :=
  with_process (fun p =>
    emit APoll ;;
    if negb (p_alive p) || tick_exited E i
    then s <- get ;; put (exit_process s) ;; ret true
    else ret false).

Definition terminate : M state unit := with_process (fun _ => emit ATerminate).

(** [kill()]: the process does not survive it. *)
Definition kill : M state unit :=
  with_process (fun _ => emit AKill ;; s <- get ;; put (exit_process s)).

(** [wait(timeout)], called once the process has been told to stop: a live
    process that does not comply makes a bounded wait time out, and an
    unbounded one never return. *)
Definition wait (timeout_ms : option Z) : M state unit :=
  with_process (fun p =>
    emit (AWait timeout_ms) ;;
    if p_alive p && negb (p_graceful p)
    then match timeout_ms with
         | Some _ => raise (mkExn TimeoutExpired "Command timed out after 5 seconds")
         | None => diverge
         end
    else s <- get ;; put (exit_process s)).

(** [stdout.read()]: all that was written and not read yet. *)
Definition read_output : M state string :=
  with_process (fun p =>
    emit (AReadOutput (p_unread p)) ;;
    s <- get ;;
    put (mkState (Some (mkProcess (p_alive p) EmptyString (p_graceful p)))
                 (now s) (running s)) ;;
    ret (p_unread p)).

(** *** [__init__] *)

Definition exe_name (base : string) : string :=
  match sys_platform E with
  | Win32 => base ++ ".exe"
  | _ => base
  end.

Definition init (skip : bool) (db : option string) : M state harness :=
  match environ_IDASDK E with
  | None | Some EmptyString =>
      raise (mkExn RuntimeError "IDASDK environment variable not set")
  | Some sdk =>
      let test_db :=
        match db with
        | None | Some EmptyString => sdk // "ida-cmake" // "samples" // "wizmo32.exe.i64"
        | Some p => p
        end in
      if negb (path_exists E test_db)
      then raise (mkExn RuntimeError ("Test database not found: " ++ test_db))
      else
        let src := script_dir_parent E in
        let cli_dir := src // "cli" in
        ret (mkHarness skip (script_dir E) src sdk (sdk // "bin") test_db
               "RelWithDebInfo" "Release" cli_dir
               (cli_dir // "build" // "Release" // exe_name "idasql"))
  end.

Variable self : harness.

(** *** Building *)

Definition run_cmake (source_dir build_dir : string) : M state bool :=
  log (Building (path_name source_dir)) ;;
  result <- run_cmd source_dir ["cmake"; "-B"; build_dir]%string ;;
  if negb (returncode result =? 0)%Z
  then log (ConfigureFailed (stderr result)) ;; ret false
  else
    result <- run_cmd source_dir
                ["cmake"; "--build"; build_dir; "--config"; config self]%string ;;
    if negb (returncode result =? 0)%Z
    then log (BuildFailed (stderr result)) ;; ret false
    else ret true.

Definition build_cli : M state bool :=
  log BuildingCli ;;
  result <- run_cmd (cli_dir self) ["cmake"; "-B"; "build"]%string ;;
  if negb (returncode result =? 0)%Z
  then log (CliConfigureFailed (stderr result)) ;; ret false
  else
    result <- run_cmd (cli_dir self)
                ["cmake"; "--build"; "build"; "--config"; cli_config self]%string ;;
    if negb (returncode result =? 0)%Z
    then log (CliBuildFailed (stderr result)) ;; ret false
    else ret true.

Fixpoint copy_all (files : list string) (dest : string) : M state unit :=
  match files with
  | [] => ret tt
  | f :: rest =>
      log (Copying (path_name f) dest) ;;
      emit (ACopy f dest) ;;
      match copy_fault E f with
      | Some msg => raise (mkExn OSError msg)
      | None => copy_all rest dest
      end
  end.

Definition build_all : M state bool :=
  if skip_build self then log SkipBuild ;; ret true
  else
    let plugin_dir := src_dir self // "plugin" in
    ok <- run_cmake plugin_dir (plugin_dir // "build") ;;
    if negb ok then ret false
    else
      let plugin_build := plugin_dir // "build" // config self in
      let plugins_dest := idasdk self // "plugins" in
      copy_all (glob E plugin_build "idasql_plugin*.dll") plugins_dest ;;
      copy_all (glob E plugin_build "idasql_plugin*.so") plugins_dest ;;
      copy_all (glob E plugin_build "idasql_plugin*.dylib") plugins_dest ;;
      ok <- run_cmake (test_dir self) (test_dir self // "build") ;;
      if negb ok then ret false
      else
        ok <- build_cli ;;
        if negb ok then ret false else ret true.

(** *** [run_cli_local_tests] *)

(** The local variables of [run_cli_local_tests] that outlive one turn of its
    loop, next to the harness state: [result] keeps the last completed
    process, also when a later statement of the [try] block raises. *)
Record frame : Type := mkFrame {
  f_state : state;
  f_result : option completed;
  f_results : list test_result
}.

Definition in_state {A} (m : M state A) : M frame A :=
  zoom f_state (fun s f => mkFrame s (f_result f) (f_results f)) m.

Definition assign_result (c : completed) : M frame unit :=
  f <- get ;; put (mkFrame (f_state f) (Some c) (f_results f)).

(** [results.append(r)] *)
Definition append (r : test_result) : M frame unit :=
  f <- get ;; put (mkFrame (f_state f) (f_result f) (f_results f ++ [r])).

(** [result.returncode] *)
Definition result_returncode : M frame Z :=
  f <- get ;;
  match f_result f with
  | Some c => ret (returncode c)
  | None =>
      raise (mkExn UnboundLocalError
               "cannot access local variable 'result' where it is not associated with a value")
  end.

Definition failed_with (name : string) (err : string) : test_result :=
  mkResult name (JBool false) None (Some (JStr err)) None None.

(** One turn of the [for] loop. *)
Definition run_case (test : local_test) : M frame unit :=
  let name := lt_name test in
  try_except2
    (po <- match lt_input test with
           | Query sql =>
               result <- in_state
                 (run_cli [cli_exe self; "-s"; test_db self; "-q"; sql]%string None) ;;
               assign_result result ;;
               let output := (stdout result ++ stderr result)%string in
               passed <- Py.lift (lt_check test output (returncode result)) ;;
               ret (passed, output)
           | Interactive commands =>
               let input_text := (join_lines commands ++ nl)%string in
               result <- in_state
                 (run_cli [cli_exe self; "-s"; test_db self; "-i"]%string (Some input_text)) ;;
               assign_result result ;;
               let output := (stdout result ++ stderr result)%string in
               passed <- Py.lift (lt_check test output (returncode result)) ;;
               ret (passed, output)
           | OtherMode mode =>
               ret (JBool false, ("Unknown mode: " ++ mode)%string)
           end ;;
     rc <- result_returncode ;;
     append (mkResult name (fst po) None None
               (Some (if negb (Py.truthy (fst po)) then take 500 (snd po) else EmptyString))
               (Some rc)))
    (append (failed_with name "Timeout"))
    (fun e => append (failed_with name (str e))).

Fixpoint run_cases (todo : list local_test) : M frame unit :=
  match todo with
  | [] => ret tt
  | test :: rest => run_case test ;; run_cases rest
  end.

(** [run_cli_local_tests] on a list of tests. *)
Definition run_local_tests (cases : list local_test) : M state (list test_result) :=
  log RunningLocal ;;
  if negb (path_exists E (cli_exe self))
  then log (CliNotFound (cli_exe self)) ;;
       ret [failed_with "cli_not_found" "CLI executable not found"]
  else
    fun s =>
      let '(r, f, t) := run_cases cases (mkFrame s None []) in
      (match r with
       | Ret _ => Ret (f_results f)
       | Raise e => Raise e
       | Diverge => Diverge
       end, f_state f, t).

Definition run_cli_local_tests : M state (list test_result) :=
  run_local_tests define_cli_local_tests.

(** *** [print_results] *)

Definition nonempty (s : string) : bool := negb (String.eqb s EmptyString).

Definition when {S} (b : bool) (m : M S unit) : M S unit := if b then m else ret tt.

Definition print_result (r : test_result) : M state unit :=
  print (LStatus (Py.truthy (tr_passed r)) (tr_name r)) ;;
  when (negb (Py.truthy (tr_passed r)))
    (match tr_sql r with
     | Some sql => when (nonempty sql) (print (LSql sql))
     | None => ret tt
     end ;;
     match tr_error r with
     | Some err => when (Py.truthy err) (print (LError err))
     | None => ret tt
     end ;;
     match tr_output r with
     | Some out => when (nonempty out) (print (LOutput (take 80 (until_newline out))))
     | None => ret tt
     end).

Fixpoint print_each (results : list test_result) (passed failed : nat)
  : M state (nat * nat) :=
  match results with
  | [] => ret (passed, failed)
  | r :: rest =>
      print_result r ;;
      if Py.truthy (tr_passed r)
      then print_each rest (passed + 1) failed
      else print_each rest passed (failed + 1)
  end.

Definition print_results (results : list test_result) (title : string)
  : M state (nat * nat) :=
  print LBlank ;;
  print LRule ;;
  print (LTitle title) ;;
  print LRule ;;
  pf <- print_each results 0 0 ;;
  print LBlank ;;
  print (LSubtotal (fst pf) (snd pf)) ;;
  ret pf.

(** *** [start_driver] *)

Definition PROBE_TIMEOUT : Z := 30000.
Definition PROBE_CONNECT_TIMEOUT : Z := 1000.
Definition PROBE_SLEEP : Z := 500.

(** The [while] loop of the readiness probe, at its turn [i].  A turn that
    does not leave the loop sleeps [PROBE_SLEEP], so the loop has at most
    [PROBE_TIMEOUT / PROBE_SLEEP] turns; [fuel] counts them. *)
Fixpoint probe (fuel : nat) (i : nat) (start_time : Z) : M state bool :=
  t <- time ;;
  if (t - start_time <? PROBE_TIMEOUT)%Z then
    match fuel with
    | O => diverge
    | S fuel' =>
        exited <- poll i ;;
        if exited then
          output <- read_output ;;
          log (DriverExited output) ;;
          ret false
        else
          oc <- with_client (Client.connect (tick_dial E i) PROBE_CONNECT_TIMEOUT)
                  Client.new_default ;;
          elapse (Z.of_N (tick_connect_ms E i)) ;;
          if fst oc then
            with_client Client.disconnect (snd oc) ;;
            log ServerReady ;;
            ret true
          else
            sleep PROBE_SLEEP ;;
            probe fuel' (S i) start_time
    end
  else
    log ProbeTimeout ;;
    ret false.

Definition start_driver : M state bool :=
  log (StartingDriver (path_name (test_db self))) ;;
  let driver_build := test_dir self // "build" // config self in
  let driver_exe := driver_build // exe_name "idalib_driver" in
  if negb (path_exists E driver_exe)
  then log (DriverNotFound driver_exe) ;; ret false
  else
    popen [driver_exe; test_db self] ;;
    log Waiting ;;
    start_time <- time ;;
    probe (Z.to_nat (PROBE_TIMEOUT / PROBE_SLEEP)) 0 start_time.

(** *** [stop_driver] *)

Definition stop_driver : M state unit :=
  s <- get ;;
  match driver_process s with
  | Some _ =>
      log Stopping ;;
      terminate ;;
      try_except_timeout (wait (Some 5000%Z)) (kill ;; wait None) ;;
      output <- read_output ;;
      when (Py.strip_nonempty output) (print (LDriverOutput output)) ;;
      set_driver None
  | None => ret tt
  end.

(** *** [run_remote_tests] *)

Definition CONNECT_TIMEOUT : Z := 5000.

(** [d.get(k, default)] *)
Definition dict_get (v : json) (k : string) (default : json) : res json :=
  match v with
  | JDict kvs =>
      match Py.lookup k kvs with
      | Some x => Ret x
      | None => Ret default
      end
  | _ => Raise (mkExn AttributeError "object has no attribute 'get'")
  end.

(** The comprehension that brings the results to the common format. *)
Fixpoint convert (results : list Client.basic_result) : res (list test_result) :=
  match results with
  | [] => Ret []
  | r :: rest =>
      Py.rbind
        (if negb (Py.truthy (Client.br_passed r))
         then dict_get (Client.br_result r) "error" (JStr EmptyString)
         else Ret (JStr EmptyString))
        (fun err =>
           Py.rbind (convert rest) (fun rest' =>
             Ret (mkResult ("cli_remote_" ++ Client.br_name r) (Client.br_passed r)
                    (Some (Client.br_sql r)) (Some err) None None :: rest')))
  end.

Definition run_remote_tests : M state (list test_result) :=
  log RunningRemote ;;
  oc <- with_client (Client.connect (remote_dial E) CONNECT_TIMEOUT) Client.new_default ;;
  if negb (fst oc)
  then log ConnectFailed ;;
       ret [failed_with "remote_connect" "Failed to connect"]
  else
    rc <- with_client Client.run_basic_tests (snd oc) ;;
    with_client Client.disconnect (snd rc) ;;
    Py.lift (convert (fst rc)).

(** *** [run] *)

Definition run_body : M state Z :=
  let total_passed := 0%nat in
  let total_failed := 0%nat in
  ok <- build_all ;;
  if negb ok then ret 2%Z
  else
    local_results <- run_cli_local_tests ;;
    pf <- print_results local_results "CLI LOCAL MODE TESTS (Modes 1 & 2)" ;;
    let total_passed := (total_passed + fst pf)%nat in
    let total_failed := (total_failed + snd pf)%nat in
    ok <- start_driver ;;
    if negb ok then ret 3%Z
    else
      remote_results <- run_remote_tests ;;
      pf <- print_results remote_results "CLI REMOTE MODE TESTS (Mode 3)" ;;
      let total_passed := (total_passed + fst pf)%nat in
      let total_failed := (total_failed + snd pf)%nat in
      print LBlank ;;
      print LRule ;;
      print (LTitle "GRAND TOTAL") ;;
      print LRule ;;
      print (LTotal total_passed total_failed) ;;
      print LRule ;;
      ret (if (total_failed =? 0)%nat then 0%Z else 1%Z).

Definition run : M state Z := try_finally run_body stop_driver.

End WithEnv.

(** *** [main]: the exit status of the process *)

Definition main `{Codec} (E : env) (skip : bool) (db : option string) : M state Z :=
  try_except
    (harness <- init E skip db ;;
     run E harness)
    (fun e => print (LFatal (str e)) ;; ret 1%Z).

End Harness.

(** * Specification-side notions *)

Module ClientSpec.
Import Client.

(** The bytes a stream delivers before its first fault, and that fault with
    what follows it. *)
Fixpoint stream_bytes (s : list event) : list byte :=
  match s with
  | [] => []
  | Seg b bs :: rest => (b :: bs) ++ stream_bytes rest
  | Fault _ :: _ => []
  end.

Fixpoint first_fault (s : list event) : option (string * list event) :=
  match s with
  | [] => None
  | Seg _ _ :: rest => first_fault rest
  | Fault msg :: rest => Some (msg, rest)
  end.

(** What is left of a stream once [recv] has run into its end or its first
    fault. *)
Definition after_fault (s : list event) : list event :=
  match first_fault s with
  | Some (_, rest) => rest
  | None => []
  end.

(** The bytes the [recv] calls of a trace returned, and the buffers its
    [sendall] calls were given. *)
Fixpoint received (t : trace) : list byte :=
  match t with
  | [] => []
  | ARecv _ chunk :: rest => chunk ++ received rest
  | _ :: rest => received rest
  end.

Fixpoint sent (t : trace) : list (list byte) :=
  match t with
  | [] => []
  | ASendAll data :: rest => data :: sent rest
  | _ :: rest => sent rest
  end.

(** The fault the next [sendall] meets. *)
Definition send_fault (sk : socket) : option string :=
  match send_faults sk with
  | Some msg :: _ => Some msg
  | _ => None
  end.

(** What [_recv_exact] returns when it still needs [need] bytes, [data]
    being what it has, and what it leaves of the stream [s]. *)
Definition recv_outcome (need : nat) (data : list byte) (s : list event)
  : res (option (list byte)) :=
  if (need <=? List.length (stream_bytes s))%nat
  then Ret (Some (data ++ firstn need (stream_bytes s)))
  else match first_fault s with
       | None => Ret None
       | Some (msg, _) => Raise (mkExn OSError msg)
       end.

Definition recv_leaves (need : nat) (s s' : list event) : Prop :=
  if (need <=? List.length (stream_bytes s))%nat
  then stream_bytes s' = skipn need (stream_bytes s) /\ first_fault s' = first_fault s
  else s' = after_fault s.

(** The receive discipline in the specification's words, on the bytes [bs]
    the incoming stream delivers and the fault [flt], if any, that follows
    them: four bytes of length prefix, the size guard, then the declared
    number of bytes of payload; a stream that falls short is the closed
    connection, or the fault that cut it.  The second component is what the
    receiver leaves unread. *)
Inductive reply : Type :=
| ConnectionClosed
| Faulted (msg : string)
| TooLarge
| Payload (bs : list byte).

Definition declared_length (bs : list byte) : option Z :=
  match bs with
  | b0 :: b1 :: b2 :: b3 :: _ => Some (Wire.le32 b0 b1 b2 b3)
  | _ => None
  end.

Definition short (flt : option string) : reply :=
  match flt with
  | None => ConnectionClosed
  | Some msg => Faulted msg
  end.

Definition receive_frame (bs : list byte) (flt : option string) : reply * list byte :=
  match declared_length bs with
  | None => (short flt, [])
  | Some n =>
      let body := skipn 4 bs in
      if (n >? RESPONSE_LIMIT)%Z then (TooLarge, body)
      else if (List.length body <? Z.to_nat n)%nat then (short flt, [])
      else (Payload (firstn (Z.to_nat n) body), skipn (Z.to_nat n) body)
  end.

Definition is_short (r : reply) : bool :=
  match r with
  | ConnectionClosed | Faulted _ => true
  | _ => false
  end.

Definition reply_value `{Codec} (r : reply) : json :=
  match r with
  | ConnectionClosed => failure "Connection closed"
  | Faulted msg => failure msg
  | TooLarge => failure "Response too large"
  | Payload bs =>
      match loads bs with
      | inl v => v
      | inr msg => failure msg
      end
  end.

Definition fault_msg (s : list event) : option string :=
  match first_fault s with
  | Some (msg, _) => Some msg
  | None => None
  end.

(** The frame [query] sends for a request. *)
Definition request_frame `{Codec} (sql : string) : list byte :=
  let req_bytes := dumps_sql sql in
  [ Wire.byte_of_Z (Z.of_nat (List.length req_bytes));
    Wire.byte_of_Z (Z.shiftr (Z.of_nat (List.length req_bytes)) 8);
    Wire.byte_of_Z (Z.shiftr (Z.of_nat (List.length req_bytes)) 16);
    Wire.byte_of_Z (Z.shiftr (Z.of_nat (List.length req_bytes)) 24) ] ++ req_bytes.

Definition request_fits `{Codec} (sql : string) : Prop :=
  (Z.of_nat (List.length (dumps_sql sql)) <= Wire.U32_MAX)%Z.

(** The operations of a client, each with what the network answers it, and
    a client's life as a sequence of them. *)
Inductive op : Type :=
| OpConnect (d : dial) (timeout_ms : Z)
| OpDisconnect
| OpQuery (sql : string)
| OpEnter (d : dial)
| OpExit.

Definition perform `{Codec} (o : op) (c : client) : client * trace :=
  match o with
  | OpConnect d ms => let '(_, c', t) := connect d ms c in (c', t)
  | OpDisconnect => let '(_, c', t) := disconnect c in (c', t)
  | OpQuery sql => let '(_, c', t) := query sql c in (c', t)
  | OpEnter d => let '(_, c', t) := enter d c in (c', t)
  | OpExit => let '(_, c', t) := exit c in (c', t)
  end.

Fixpoint perform_all `{Codec} (ops : list op) (c : client) : client * trace :=
  match ops with
  | [] => (c, [])
  | o :: rest =>
      let '(c1, t1) := perform o c in
      let '(c2, t2) := perform_all rest c1 in
      (c2, t1 ++ t2)
  end.

Definition is_connected (c : client) : bool :=
  match sock c with
  | Some _ => true
  | None => false
  end.

(** "The most recent connect succeeded and no disconnect has followed", read
    off a history given latest operation first. *)
Fixpoint last_decides (latest_first : list op) (initially : bool) : bool :=
  match latest_first with
  | [] => initially
  | OpQuery _ :: earlier => last_decides earlier initially
  | OpConnect (Accepted _) _ :: _ => true
  | OpEnter (Accepted _) :: _ => true
  | OpConnect (Refused _) _ :: _ => false
  | OpEnter (Refused _) :: _ => false
  | OpDisconnect :: _ => false
  | OpExit :: _ => false
  end.

Definition connect_stands (history : list op) (initially : bool) : bool :=
  last_decides (rev history) initially.

End ClientSpec.

Module HarnessSpec.
Import Harness.

(** What a computation may do to the state and to the world: [safe I m]
    says that [m] keeps the invariant [I] and returns or raises, [emits K m]
    that every action it performs is of the kind [K]. *)
Definition safe {S A} (I : S -> Prop) (m : M S A) : Prop :=
  forall s, I s -> I (snd (fst (m s))) /\ fst (fst (m s)) <> Diverge.

Definition emits {S A} (K : action -> bool) (m : M S A) : Prop :=
  forall s, forallb K (snd (m s)) = true.

(** The process table agrees with [self.driver_process]: the only server
    process alive, if any, is the one the harness holds. *)
Definition consistent (s : state) : Prop :=
  match driver_process s with
  | Some p => running s = if p_alive p then 1%nat else 0%nat
  | None => running s = 0%nat
  end.

(** A harness that has launched nothing yet. *)
Definition clean (s : state) : Prop :=
  driver_process s = None /\ running s = 0%nat.

(** *** Marks in a trace *)

Definition is_build_failure (a : action) : bool :=
  match a with
  | APrint (LHarness (ConfigureFailed _)) | APrint (LHarness (BuildFailed _))
  | APrint (LHarness (CliConfigureFailed _)) | APrint (LHarness (CliBuildFailed _)) => true
  | _ => false
  end.

Definition is_ready (a : action) : bool :=
  match a with
  | APrint (LHarness ServerReady) => true
  | _ => false
  end.

Definition is_start_failure (a : action) : bool :=
  match a with
  | APrint (LHarness (DriverNotFound _)) | APrint (LHarness (DriverExited _))
  | APrint (LHarness ProbeTimeout) => true
  | _ => false
  end.

Definition is_case_failure (a : action) : bool :=
  match a with
  | APrint (LStatus false _) => true
  | _ => false
  end.

(** A local-mode case runs the CLI: a [subprocess.run] with a timeout. *)
Definition is_local_case (a : action) : bool :=
  match a with
  | ARun _ _ _ (Some _) => true
  | _ => false
  end.

(** A remote-mode case sends its request to the server. *)
Definition is_remote_case (a : action) : bool :=
  match a with
  | ASendAll _ => true
  | _ => false
  end.

Definition is_launch (a : action) : bool :=
  match a with
  | APopen _ => true
  | _ => false
  end.

Definition is_teardown (a : action) : bool :=
  match a with
  | ATerminate | AKill | AWait _ => true
  | _ => false
  end.

(** *** The kinds of action of each stage of [run] *)

Definition build_action (a : action) : bool :=
  match a with
  | ARun _ (Some _) None None | ACopy _ _ => true
  | APrint (LHarness m) =>
      match m with
      | SkipBuild | Building _ | ConfigureFailed _ | BuildFailed _ | Copying _ _
      | BuildingCli | CliConfigureFailed _ | CliBuildFailed _ => true
      | _ => false
      end
  | _ => false
  end.

Definition report_action (a : action) : bool :=
  match a with
  | APrint (LHarness _) | APrint (LDriverOutput _) | APrint (LFatal _) => false
  | APrint _ => true
  | _ => false
  end.

(** The calls of the local-mode cases, and with their report. *)
Definition cli_action (a : action) : bool :=
  match a with
  | ARun _ None _ (Some _) => true
  | APrint (LHarness RunningLocal) | APrint (LHarness (CliNotFound _)) => true
  | _ => false
  end.

Definition local_action (a : action) : bool := cli_action a || report_action a.

Definition start_action (a : action) : bool :=
  match a with
  | APopen _ | APoll | AReadOutput _ | ASocket | ASetTimeout _ | AConnect _ _
  | AClose | ASleep _ => true
  | APrint (LHarness m) =>
      match m with
      | StartingDriver _ | DriverNotFound _ | Waiting | DriverExited _
      | ServerReady | ProbeTimeout => true
      | _ => false
      end
  | _ => false
  end.

(** The calls of the remote-mode cases, and with their report. *)
Definition net_action (a : action) : bool :=
  match a with
  | ASocket | ASetTimeout _ | AConnect _ _ | AClose | ASendAll _ | ARecv _ _ => true
  | APrint (LHarness RunningRemote) | APrint (LHarness ConnectFailed) => true
  | _ => false
  end.

Definition remote_action (a : action) : bool := net_action a || report_action a.

Definition stop_action (a : action) : bool :=
  match a with
  | ATerminate | AWait _ | AKill | AReadOutput _ => true
  | APrint (LHarness Stopping) | APrint (LDriverOutput _) => true
  | _ => false
  end.

(** *** The run order, as a check of a trace from its first action on

    A local-mode case may only come while no server has been launched or
    reported ready; a remote-mode case only once the server has been
    reported ready and while its teardown has not begun. *)
Fixpoint ordered (launched ready torn_down : bool) (t : trace) : bool :=
  match t with
  | [] => true
  | a :: rest =>
      (if is_local_case a then negb launched && negb ready else true) &&
      (if is_remote_case a then ready && negb torn_down else true) &&
      ordered (launched || is_launch a) (ready || is_ready a)
              (torn_down || is_teardown a) rest
  end.

(** A test predicate that returns or raises. *)
Definition check_returns (test : local_test) : Prop :=
  forall out rc, lt_check test out rc <> Diverge.

(** The state once [ms] milliseconds have passed, and once the output of the
    process has been read. *)
Definition advance (ms : Z) (s : state) : state :=
  mkState (driver_process s) (now s + ms)%Z (running s).

Definition drained (s : state) : state :=
  match driver_process s with
  | Some p =>
      mkState (Some (mkProcess (p_alive p) EmptyString (p_graceful p))) (now s) (running s)
  | None => s
  end.

(** The calls of one connection attempt of the probe. *)
Definition probe_connect : trace :=
  [ASocket; ASetTimeout PROBE_CONNECT_TIMEOUT; AConnect "localhost" 13337].

Definition accepted (d : Client.dial) : bool :=
  match d with
  | Client.Accepted _ => true
  | Client.Refused _ => false
  end.

(** A build that fails says so: the result of a build step is [False]
    exactly when it has logged a failure. *)
Definition no_build_failure (a : action) : bool := negb (is_build_failure a).

Definition flags_failure (m : M state bool) : Prop :=
  forall s, match m s with
            | (Ret b, _, t) => existsb is_build_failure t = negb b
            | (_, _, t) => existsb is_build_failure t = false
            end.

(** The number of cases a trace reports as failed. *)
Definition failures (t : trace) : nat := List.length (filter is_case_failure t).

(** *** The ways through the body of [run]

    From a clean state [s], with [tb], [tl], [ts] and [tr] the traces of the
    build, of the local-mode cases and their report, of [start_driver], and
    of the remote-mode cases and their report. *)
Inductive body_path (E : env) (s : state)
  : res Z -> state -> trace -> trace -> trace -> trace -> Prop :=
| build_raised e tb :
    body_path E s (Raise e) s tb [] [] []
| build_failed tb :
    existsb is_build_failure tb = true ->
    body_path E s (Ret 2%Z) s tb [] [] []
| local_raised e tb tl :
    existsb is_build_failure tb = false ->
    body_path E s (Raise e) s tb tl [] []
| driver_missing tb tl ts :
    existsb is_build_failure tb = false ->
    existsb is_launch ts = false ->
    existsb is_start_failure ts = true -> existsb is_ready ts = false ->
    body_path E s (Ret 3%Z) s tb tl ts []
| launch_raised e tb tl ts :
    existsb is_build_failure tb = false ->
    popen_fault E <> None -> existsb is_ready ts = false ->
    body_path E s (Raise e) s tb tl ts []
| not_ready s1 p tb tl ts :
    existsb is_build_failure tb = false ->
    popen_fault E = None -> consistent s1 -> driver_process s1 = Some p ->
    existsb is_start_failure ts = true -> existsb is_ready ts = false ->
    (p_unread p = server_output E \/
     In (APrint (LHarness (DriverExited (server_output E)))) ts) ->
    body_path E s (Ret 3%Z) s1 tb tl ts []
| remote_raised e s1 p tb tl ts tr :
    existsb is_build_failure tb = false ->
    popen_fault E = None -> consistent s1 -> driver_process s1 = Some p ->
    existsb is_start_failure ts = false -> existsb is_ready ts = true ->
    p_unread p = server_output E ->
    body_path E s (Raise e) s1 tb tl ts tr
| completed s1 p tb tl ts tr :
    existsb is_build_failure tb = false ->
    popen_fault E = None -> consistent s1 -> driver_process s1 = Some p ->
    existsb is_start_failure ts = false -> existsb is_ready ts = true ->
    p_unread p = server_output E ->
    body_path E s (Ret (if (failures (tl ++ tr) =? 0)%nat then 0%Z else 1%Z))
      s1 tb tl ts tr.

(** The state of a harness just made, the clock showing [t0]. *)
Definition fresh (t0 : Z) : state := mkState None t0 0.

(** *** The probe while the server refuses connections

    The time the turns [i], ..., [i + k - 1] of the probe take when each one
    finds the process alive and its connection refused: the connection
    attempt, then the sleep; and the calls such turns make. *)
Fixpoint elapsed_from (E : env) (i k : nat) : Z :=
  match k with
  | O => 0
  | S k' => Z.of_N (tick_connect_ms E i) + PROBE_SLEEP + elapsed_from E (S i) k'
  end.

Fixpoint refused_turns (k : nat) : trace :=
  match k with
  | O => []
  | S k' => (APoll :: probe_connect ++ [ASleep PROBE_SLEEP]) ++ refused_turns k'
  end.

(** The path [start_driver] looks for the driver at. *)
Definition driver_exe (E : env) (self : harness) : string :=
  test_dir self // "build" // config self // exe_name E "idalib_driver".

End HarnessSpec.

(** * Concrete runs

    A server that answers with fixed replies, a command line that answers by
    its arguments, and four environments: one where every case passes, one
    where local-mode cases fail and the server dies at once, one whose
    server sends a reply without the ['success'] key, and one whose server
    dies at the third turn of the probe. *)

Module Examples.
Import Client Harness.

Definition bytes (s : string) : list byte := list_byte_of_string s.
Definition text (bs : list byte) : string := string_of_list_byte bs.

(** A double quote, and a string between two of them. *)
Definition dq : string := String "034" EmptyString.
Definition quoted (s : string) : string := dq ++ s ++ dq.

(** [{"success": true, "columns": ["name"], "rows": [[1]], "row_count": 1}] *)
Definition rows_text : string :=
  "{" ++ quoted "success" ++ ": true, " ++ quoted "columns" ++ ": [" ++ quoted "name"
      ++ "], " ++ quoted "rows" ++ ": [[1]], " ++ quoted "row_count" ++ ": 1}".
Definition rows_value : json :=
  JDict [("success", JBool true); ("columns", JList [JStr "name"]);
         ("rows", JList [JList [JInt 1]]); ("row_count", JInt 1)]%string.

(** [{"success": false, "error": "no such table"}] *)
Definition error_text : string :=
  "{" ++ quoted "success" ++ ": false, " ++ quoted "error" ++ ": "
      ++ quoted "no such table" ++ "}".
Definition error_value : json :=
  JDict [("success", JBool false); ("error", JStr "no such table")]%string.

(** [{}] *)
Definition empty_text : string := "{}".

(** [json.dumps] on a request whose SQL has no character to escape, and
    [json.loads] on the three texts above; any other text is refused. *)
#[export] Instance table_codec : Codec := {|
  dumps_sql sql := bytes ("{" ++ quoted "sql" ++ ": " ++ quoted sql ++ "}");
  loads bs :=
    if String.eqb (text bs) rows_text then inl rows_value
    else if String.eqb (text bs) error_text then inl error_value
    else if String.eqb (text bs) empty_text then inl (JDict [])
    else inr "Expecting value: line 1 column 1 (char 0)"%string
|}.

(** A frame of the wire protocol around a payload. *)
Definition framed (payload : string) : list byte :=
  let n := Z.of_nat (List.length (bytes payload)) in
  [ Wire.byte_of_Z n; Wire.byte_of_Z (Z.shiftr n 8);
    Wire.byte_of_Z (Z.shiftr n 16); Wire.byte_of_Z (Z.shiftr n 24) ] ++ bytes payload.

Fixpoint segments (frames : list (list byte)) : list event :=
  match frames with
  | [] => []
  | f :: rest => seg_event f (segments rest)
  end.

(** The server side of a connection: the replies it will send, in order. *)
Definition serving (replies : list string) : socket :=
  mkSocket (segments (map framed replies)) [].

(** Four queries answered with rows, two with an error: what the six basic
    tests expect. *)
Definition good_server : socket :=
  serving [rows_text; rows_text; rows_text; rows_text; error_text; error_text].

(** A server whose first reply is the empty object. *)
Definition keyless_server : socket := serving [empty_text].

(** A reply that comes in three pieces, the prefix cut in two. *)
Definition slow_socket : socket :=
  mkSocket
    (seg_event (firstn 2 (framed error_text))
       (seg_event (firstn 10 (skipn 2 (framed error_text)))
          (seg_event (skipn 12 (framed error_text)) [])))
    [].

(** A prefix that declares 7 * 2^24 + 1 bytes, and the start of a payload. *)
Definition huge_socket : socket :=
  mkSocket [Seg Byte.x01 [Byte.x00; Byte.x00; Byte.x07; Byte.x7b; Byte.x7d]] [].

(** A connection reset while the prefix is awaited. *)
Definition reset_socket : socket :=
  mkSocket [Seg Byte.x01 [Byte.x00]; Fault "[Errno 104] Connection reset by peer"] [].

Definition connected (sk : socket) : client := set_sock (Some sk) new_default.

(** The command line tool: an error and a non-zero status for the two
    statements that must fail, the expected words otherwise. *)
Definition good_cli (argv : list string) (input : option string) : run_outcome :=
  match input with
  | Some _ => Completed (mkCompleted 0 "funcs segments cnt 1 row(s)" "")
  | None =>
      if existsb (fun a => Py.contains "nonexistent_table" a || Py.contains "SELECTT" a) argv
      then Completed (mkCompleted 1 "" "Error: no such table or syntax error")
      else Completed (mkCompleted 0 "name address count 3 row(s)" "")
  end.

(** A command line tool that fails on everything. *)
Definition bad_cli (argv : list string) (input : option string) : run_outcome :=
  Completed (mkCompleted 1 "" "cannot open database").

Definition banner : string := "IDASQL server listening on port 13337" ++ nl.

(** Everything built and in place, a server that is ready at the second
    turn of the probe. *)
Definition good_env : env := {|
  sys_platform := Linux;
  environ_IDASDK := Some "/opt/idasdk"%string;
  script_dir := "/repo/src/test";
  script_dir_parent := "/repo/src";
  path_exists := fun _ => true;
  glob := fun _ _ => [];
  copy_fault := fun _ => None;
  cmake := fun _ _ => inl (mkCompleted 0 "" "");
  cli := good_cli;
  popen_fault := None;
  server_output := banner;
  server_graceful := true;
  tick_exited := fun _ => false;
  tick_dial := fun i => match i with
                        | O => Refused "[Errno 111] Connection refused"
                        | _ => Accepted (mkSocket [] [])
                        end;
  tick_connect_ms := fun _ => 2%N;
  remote_dial := Accepted good_server
|}.

Definition with_server (E : env) (exited : nat -> bool) (remote : dial) : env :=
  mkEnv (sys_platform E) (environ_IDASDK E) (script_dir E) (script_dir_parent E)
    (path_exists E) (glob E) (copy_fault E) (cmake E) (cli E) (popen_fault E)
    (server_output E) (server_graceful E) exited
    (fun _ => Refused "[Errno 111] Connection refused") (tick_connect_ms E) remote.

Definition with_cli (E : env) (c : list string -> option string -> run_outcome) : env :=
  mkEnv (sys_platform E) (environ_IDASDK E) (script_dir E) (script_dir_parent E)
    (path_exists E) (glob E) (copy_fault E) (cmake E) c (popen_fault E)
    (server_output E) (server_graceful E) (tick_exited E) (tick_dial E)
    (tick_connect_ms E) (remote_dial E).

(** The command line tool fails, and the server is dead when first polled. *)
Definition failing_env : env :=
  with_cli (with_server good_env (fun _ => true) (Refused "[Errno 111] Connection refused"))
    bad_cli.

(** The server dies between the second and the third turn of the probe. *)
Definition dying_env : env :=
  with_server good_env (fun i => (2 <=? i)%nat) (Refused "[Errno 111] Connection refused").

(** The server is ready, and answers the first query with [{}]. *)
Definition keyless_env : env :=
  mkEnv (sys_platform good_env) (environ_IDASDK good_env) (script_dir good_env)
    (script_dir_parent good_env) (path_exists good_env) (glob good_env)
    (copy_fault good_env) (cmake good_env) (cli good_env) (popen_fault good_env)
    (server_output good_env) (server_graceful good_env) (tick_exited good_env)
    (tick_dial good_env) (tick_connect_ms good_env) (Accepted keyless_server).

(** The harness [TestHarness(skip_build=True)] makes in an environment. *)
Definition harness_in (E : env) : harness :=
  match init E true None initial with
  | (Ret h, _, _) => h
  | _ => mkHarness true "" "" "" "" "" "" "" "" ""
  end.

(** The runs of [python run_tests.py --skip-build] in these environments. *)
Definition good_run : res Z * state * trace := main good_env true None initial.
Definition failing_run : res Z * state * trace := main failing_env true None initial.
Definition keyless_run : res Z * state * trace := main keyless_env true None initial.

End Examples.


(** * Further notions *)

Module FrameSpec.

(** A frame of the protocol: the length of the payload on four bytes, least
    significant first, then the payload. *)
Definition frame (payload : list byte) : list byte :=
  let n := Z.of_nat (List.length payload) in
  [ Wire.byte_of_Z n; Wire.byte_of_Z (Z.shiftr n 8);
    Wire.byte_of_Z (Z.shiftr n 16); Wire.byte_of_Z (Z.shiftr n 24) ] ++ payload.

End FrameSpec.


(** ** [run_tests.py]: [TestHarness.get_cli_env]

    [os.environ] is a dictionary from names to values; as a list of pairs
    with no name twice, a new name going last. *)

Module CliEnv.
Import Harness.

Definition environ : Type := list (string * string).

(** [env.get(k, default)] *)
Fixpoint env_get (k : string) (default : string) (env : environ) : string :=
  match env with
  | [] => default
  | (k', v) :: rest => if String.eqb k k' then v else env_get k default rest
  end.

(** [k in env] *)
Fixpoint env_has (k : string) (env : environ) : bool :=
  match env with
  | [] => false
  | (k', _) :: rest => String.eqb k k' || env_has k rest
  end.

(** [env[k] = v] *)
Fixpoint env_set (k v : string) (env : environ) : environ :=
  match env with
  | [] => [(k, v)]
  | (k', v') :: rest =>
      if String.eqb k k' then (k, v) :: rest else (k', v') :: env_set k v rest
  end.

(** The copy [os.environ.copy()] returns is the value itself here: nothing
    below mutates its argument. *)
Definition get_cli_env (platform : platform) (idabin : string) (os_environ : environ)
  : environ :=
  let env := os_environ in
  match platform with
  | Win32 => env_set "PATH" (idabin ++ ";" ++ env_get "PATH" "" env) env
  | Darwin =>
      env_set "DYLD_LIBRARY_PATH" (idabin ++ ":" ++ env_get "DYLD_LIBRARY_PATH" "" env) env
  | Linux =>
      env_set "LD_LIBRARY_PATH" (idabin ++ ":" ++ env_get "LD_LIBRARY_PATH" "" env) env
  end.

(** The variable the dynamic loader of a platform reads, and the separator
    of its entries. *)
Definition search_path_variable (platform : platform) : string :=
  match platform with
  | Win32 => "PATH"
  | Darwin => "DYLD_LIBRARY_PATH"
  | Linux => "LD_LIBRARY_PATH"
  end.

Definition search_path_separator (platform : platform) : string :=
  match platform with
  | Win32 => ";"
  | _ => ":"
  end.

End CliEnv.

(** ** [test_client.py]: [main]

    The lines [main] prints, one constructor for each format string, are
    kept in the state next to the client; [sys.exit(n)] is the returned
    [n], an exception that leaves [main] the traceback and status 1 of the
    interpreter. *)

Module ClientMain.
Import Client.

Inductive client_line : Type :=
| CBanner                                  (* "IDASQL Test Client" *)
| CConnecting (host : string) (port : Z)   (* f"Connecting to {host}:{port}..." *)
| CConnectFailed                           (* "ERROR: Failed to connect" *)
| CConnected                               (* "Connected.\n" *)
| CStatus (passed : bool) (name : string)  (* f"[{status}] {r['name']}" *)
| CSql (sql : string)                      (* f"       SQL: {r['sql']}" *)
| CRows (count : json)     (* f"       Rows: {r['result'].get('row_count', 0)}" *)
| CError (err : json)      (* f"       Error: {r['result'].get('error', 'unknown')}" *)
| CBlank                                   (* print() *)
| CResults (passed failed : nat).          (* f"Results: {passed} passed, {failed} failed" *)

Record session : Type := mkSession {
  s_client : client;
  s_console : list client_line
}.

Definition say (l : client_line) : M session unit :=
  s <- get ;; put (mkSession (s_client s) (s_console s ++ [l])).

(** A method call on the local variable [client]. *)
Definition on_client {A} (m : M client A) : M session A :=
  zoom s_client (fun c s => mkSession c (s_console s)) m.

Section WithCodec.
Context {codec : Codec}.

(** [sys.argv[1] if len(sys.argv) > 1 else 'localhost'] *)
Definition host_of (argv : list string) : string :=
  match argv with
  | _ :: h :: _ => h
  | _ => "localhost"
  end.

(** [int(sys.argv[2]) if len(sys.argv) > 2 else 13337], [int] being what
    the built-in makes of a string: a number or a [ValueError]. *)
Definition port_of (int : string -> res Z) (argv : list string) : res Z :=
  match argv with
  | _ :: _ :: p :: _ => int p
  | _ => Ret 13337%Z
  end.

(** The loop that prints the results and counts them. *)
Fixpoint report (results : list basic_result) (passed failed : nat)
  : M session (nat * nat) :=
  match results with
  | [] => ret (passed, failed)
  | r :: rest =>
      say (CStatus (Py.truthy (br_passed r)) (br_name r)) ;;
      say (CSql (br_sql r)) ;;
      ok <- Py.lift (Py.getitem (br_result r) "success") ;;
      (if Py.truthy ok
       then n <- Py.lift (Harness.dict_get (br_result r) "row_count" (JInt 0)) ;;
            say (CRows n)
       else e <- Py.lift (Harness.dict_get (br_result r) "error" (JStr "unknown")) ;;
            say (CError e)) ;;
      say CBlank ;;
      if Py.truthy (br_passed r)
      then report rest (passed + 1) failed
      else report rest passed (failed + 1)
  end.

Definition main (int : string -> res Z) (argv : list string) (d : dial) : M session Z :=
  let host := host_of argv in
  port <- Py.lift (port_of int argv) ;;
  say CBanner ;;
  say (CConnecting host port) ;;
  s <- get ;;
  put (mkSession (new host port) (s_console s)) ;;
  ok <- on_client (connect d 5000) ;;
  if negb ok
  then say CConnectFailed ;; ret 1%Z
  else
    say CConnected ;;
    results <- on_client run_basic_tests ;;
    pf <- report results 0 0 ;;
    say (CResults (fst pf) (snd pf)) ;;
    on_client disconnect ;;
    ret (if (snd pf =? 0)%nat then 0%Z else 1%Z).

End WithCodec.

(** The session [main] starts in: the variable [client] not yet assigned,
    nothing printed. *)
Definition blank : session := mkSession new_default [].

End ClientMain.


Module CaseSpec.
Import Harness.

(** The command line and the standard input of the process a local-mode
    case runs; none for a case of another mode. *)
Definition invocation (self : harness) (input : local_input)
  : option (list string * option string) :=
  match input with
  | Query sql => Some ([cli_exe self; "-s"; test_db self; "-q"; sql]%string, None)
  | Interactive commands =>
      Some ([cli_exe self; "-s"; test_db self; "-i"]%string,
            Some (join_lines commands ++ nl)%string)
  | OtherMode _ => None
  end.

(** The status lines of a trace: verdict and name. *)
Definition statuses (t : trace) : list (bool * string) :=
  flat_map (fun a => match a with
                     | APrint (LStatus passed name) => [(passed, name)]
                     | _ => []
                     end) t.

(** The database [__init__] settles on. *)
Definition chosen_db (sdk : string) (db : option string) : string :=
  match db with
  | None | Some EmptyString => sdk // "ida-cmake" // "samples" // "wizmo32.exe.i64"
  | Some p => p
  end.

End CaseSpec.

Module MoreExamples.
Import Client Harness Examples.

(** A command line tool that never answers. *)
Definition hanging_env : env := with_cli good_env (fun _ _ => TimedOut).

(** A server that sends an error, then rows. *)
Definition two_replies : socket := serving [error_text; rows_text].

(** What [run_basic_tests] returns against the server that answers as
    expected. *)
Definition good_results : list basic_result :=
  match run_basic_tests (connected good_server) with
  | (Ret results, _, _) => results
  | _ => []
  end.

(** [int] on the one port number the examples give. *)
Definition int_13337 (s : string) : res Z :=
  if String.eqb s "13337" then Ret 13337%Z
  else Raise (mkExn ValueError "invalid literal for int() with base 10").

(** The first of the local-mode cases, and the frame of the loop at its
    first turn. *)
Definition first_case : local_test :=
  hd (mkLocalTest "" (OtherMode "") (fun _ _ => Ret JNull)) define_cli_local_tests.

Definition first_turn : frame := mkFrame initial None [].

(** A harness whose driver has died on its own, leaving a line unread. *)
Definition dead_driver : state :=
  mkState (Some (mkProcess false "Segmentation fault" true)) 0 0.

End MoreExamples.


Module BuildSpec.
Import Harness HarnessSpec.

(** A build step that fails fast: when it answers [False], the log of the
    failure is the last thing it did, and the only failure it logged; when
    it answers [True] or raises, it logged none. *)
Definition stops_at_failure (m : M state bool) : Prop :=
  forall s,
    match m s with
    | (Ret false, _, t) =>
        exists t' a, t = t' ++ [a] /\ is_build_failure a = true /\
                     existsb is_build_failure t' = false
    | (_, _, t) => existsb is_build_failure t = false
    end.

Definition is_sleep (a : action) : bool :=
  match a with ASleep _ => true | _ => false end.

Definition is_poll (a : action) : bool :=
  match a with APoll => true | _ => false end.

Definition is_close (a : action) : bool :=
  match a with AClose => true | _ => false end.

Definition is_traffic (a : action) : bool :=
  match a with ASendAll _ | ARecv _ _ => true | _ => false end.

Definition count (K : action -> bool) (t : trace) : nat := List.length (filter K t).

End BuildSpec.


Module TimeoutSpec.
Import Client Harness Examples.

(** A process run from the directory of the harness with the timeout of
    sixty seconds; and a process run with no timeout at all. *)
Definition within_a_minute (a : action) : bool :=
  match a with
  | ARun _ None _ (Some t) => (t =? 60000)%Z
  | ARun _ _ _ _ => false
  | _ => true
  end.

Definition without_timeout (a : action) : bool :=
  match a with
  | ARun _ (Some _) None None => true
  | ARun _ _ _ _ => false
  | _ => true
  end.

(** A server that answers with a frame of length zero. *)
Definition empty_reply : socket := serving [EmptyString].

End TimeoutSpec.


(** * Properties *)

(** ** The client *)

Section ClientProperties.
Import Client ClientSpec.
Context {codec : Codec}.

Lemma stream_bytes_seg_event bs rest :
  stream_bytes (seg_event bs rest) = bs ++ stream_bytes rest.
Proof. destruct bs; reflexivity. Qed.

Lemma first_fault_seg_event bs rest :
  first_fault (seg_event bs rest) = first_fault rest.
Proof. destruct bs; reflexivity. Qed.

Lemma set_sock_same c sk : sock c = Some sk -> set_sock (Some sk) c = c.
Proof. destruct c; simpl; intros ->; reflexivity. Qed.

Lemma set_sock_twice o o' c : set_sock o (set_sock o' c) = set_sock o c.
Proof. reflexivity. Qed.

Lemma received_app t1 t2 : received (t1 ++ t2) = received t1 ++ received t2.
Proof.
  induction t1 as [|a t1 IH]; simpl; [reflexivity|].
  destruct a; simpl; rewrite ?IH, ?app_assoc; reflexivity.
Qed.

Lemma sent_app t1 t2 : sent (t1 ++ t2) = sent t1 ++ sent t2.
Proof.
  induction t1 as [|a t1 IH]; simpl; [reflexivity|].
  destruct a; simpl; rewrite ?IH; reflexivity.
Qed.

(** One [recv] of a positive number of bytes on [self.sock]. *)
Lemma on_sock_recv k c sk :
  sock c = Some sk -> (0 < k)%Z ->
  on_sock (recv k) c =
    match inbox sk with
    | [] => (Ret [], c, [ARecv k []])
    | Fault msg :: rest =>
        (Raise (mkExn OSError msg),
         set_sock (Some (mkSocket rest (send_faults sk))) c, [ARecv k []])
    | Seg b bs :: rest =>
        (Ret (firstn (Z.to_nat k) (b :: bs)),
         set_sock (Some (mkSocket (seg_event (skipn (Z.to_nat k) (b :: bs)) rest)
                                  (send_faults sk))) c,
         [ARecv k (firstn (Z.to_nat k) (b :: bs))])
    end.
Proof.
  intros Hs Hk. unfold on_sock, recv. rewrite Hs.
  unfold bind, get. simpl.
  destruct (Z.ltb_spec k 0); [lia|].
  destruct (Z.eqb_spec k 0); [lia|].
  destruct (inbox sk) as [|[b bs|msg] rest] eqn:Hin; simpl.
  - rewrite set_sock_same by assumption. reflexivity.
  - reflexivity.
  - reflexivity.
Qed.

Lemma recv_exact_loop_spec fuel : forall n data c sk,
  sock c = Some sk ->
  (Z.to_nat (n - Z.of_nat (List.length data)) <= fuel)%nat ->
  exists sk' t,
    recv_exact_loop fuel n data c =
      (recv_outcome (Z.to_nat (n - Z.of_nat (List.length data))) data (inbox sk),
       set_sock (Some sk') c, t) /\
    send_faults sk' = send_faults sk /\
    received t = firstn (Z.to_nat (n - Z.of_nat (List.length data))) (stream_bytes (inbox sk)) /\
    sent t = [] /\
    recv_leaves (Z.to_nat (n - Z.of_nat (List.length data))) (inbox sk) (inbox sk').
Proof.
  induction fuel as [|fuel IH]; intros n data c sk Hs Hfuel.
  - exists sk, []. unfold recv_outcome, recv_leaves.
    assert (Hz : Z.to_nat (n - Z.of_nat (List.length data)) = 0%nat) by lia.
    rewrite Hz. simpl. destruct (Z.ltb_spec (Z.of_nat (List.length data)) n); [lia|].
    rewrite app_nil_r, set_sock_same by assumption. repeat split; reflexivity.
  - cbn [recv_exact_loop].
    destruct (Z.ltb_spec (Z.of_nat (List.length data)) n) as [Hlt|Hge].
    2:{ exists sk, []. unfold recv_outcome, recv_leaves.
        assert (Hz : Z.to_nat (n - Z.of_nat (List.length data)) = 0%nat) by lia.
        rewrite Hz. simpl. rewrite app_nil_r, set_sock_same by assumption.
        repeat split; reflexivity. }
    set (k := (n - Z.of_nat (List.length data))%Z) in *.
    assert (Hk : (0 < k)%Z) by (unfold k; lia).
    unfold bind at 1. rewrite (on_sock_recv c Hs Hk).
    unfold recv_outcome, recv_leaves, after_fault.
    destruct (inbox sk) as [|[b bs|msg] rest] eqn:Hin.
    + exists sk, [ARecv k []]. simpl.
      destruct (Z.to_nat k) eqn:Hz; [lia|]. simpl.
      rewrite set_sock_same by assumption. repeat split; try reflexivity; assumption.
    + set (seg := b :: bs) in *.
      set (chunk := firstn (Z.to_nat k) seg).
      set (sk1 := mkSocket (seg_event (skipn (Z.to_nat k) seg) rest) (send_faults sk)).
      assert (Hchunk : exists x xs, chunk = x :: xs).
      { unfold chunk, seg. destruct (Z.to_nat k) eqn:Hz; [lia|]. simpl. eauto. }
      destruct Hchunk as (x & xs & Hx). rewrite Hx. rewrite <- Hx.
      assert (Hlen : List.length chunk = Nat.min (Z.to_nat k) (List.length seg))
        by (unfold chunk; apply length_firstn).
      assert (Hpos : (1 <= List.length chunk)%nat) by (rewrite Hx; simpl; lia).
      destruct (IH n (data ++ chunk) (set_sock (Some sk1) c) sk1 eq_refl)
        as (sk' & t & Hrun & Hsf & Hrecv & Hsent & Hleave).
      { rewrite length_app. lia. }
      rewrite Hrun. exists sk', (ARecv k chunk :: t).
      assert (Hneed : Z.to_nat (n - Z.of_nat (List.length (data ++ chunk)))
                      = (Z.to_nat k - List.length chunk)%nat).
      { rewrite length_app. unfold k. lia. }
      rewrite Hneed in *.
      assert (Hbs1 : stream_bytes (inbox sk1) = skipn (Z.to_nat k) seg ++ stream_bytes rest).
      { unfold sk1. simpl. apply stream_bytes_seg_event. }
      assert (Hff1 : first_fault (inbox sk1) = first_fault rest).
      { unfold sk1. simpl. apply first_fault_seg_event. }
      unfold recv_outcome, recv_leaves, after_fault in *.
      cbn [stream_bytes first_fault inbox]. fold seg.
      assert (Hfirst : firstn (Z.to_nat k) (seg ++ stream_bytes rest)
                       = chunk ++ firstn (Z.to_nat k - List.length chunk)
                                    (skipn (Z.to_nat k) seg ++ stream_bytes rest)).
      { rewrite firstn_app. fold chunk. f_equal.
        destruct (Nat.le_gt_cases (List.length seg) (Z.to_nat k)) as [Hle|Hgt].
        - rewrite skipn_all2 by assumption. rewrite app_nil_l. f_equal. lia.
        - replace (Z.to_nat k - List.length chunk)%nat with 0%nat by lia.
          replace (Z.to_nat k - List.length seg)%nat with 0%nat by lia.
          reflexivity. }
      assert (Hskip : skipn (Z.to_nat k - List.length chunk)
                        (skipn (Z.to_nat k) seg ++ stream_bytes rest)
                      = skipn (Z.to_nat k) (seg ++ stream_bytes rest)).
      { rewrite (skipn_app (Z.to_nat k) seg).
        destruct (Nat.le_gt_cases (List.length seg) (Z.to_nat k)) as [Hle|Hgt].
        - rewrite (skipn_all2 seg Hle). rewrite !app_nil_l. f_equal. lia.
        - replace (Z.to_nat k - List.length chunk)%nat with 0%nat by lia.
          replace (Z.to_nat k - List.length seg)%nat with 0%nat by lia.
          reflexivity. }
      assert (Hcmp : (Z.to_nat k - List.length chunk <=? List.length (stream_bytes (inbox sk1)))%nat
                     = (Z.to_nat k <=? List.length (seg ++ stream_bytes rest))%nat).
      { rewrite Hbs1, !length_app, length_skipn.
        destruct (Nat.leb_spec (Z.to_nat k - List.length chunk)
                    (List.length seg - Z.to_nat k + List.length (stream_bytes rest)));
        destruct (Nat.leb_spec (Z.to_nat k) (List.length seg + List.length (stream_bytes rest)));
        try reflexivity; lia. }
      rewrite Hcmp, Hbs1, Hff1 in *.
      repeat split.
      * rewrite Hfirst, app_assoc. reflexivity.
      * assumption.
      * cbn [received]. rewrite Hrecv, Hfirst. reflexivity.
      * cbn [sent]. assumption.
      * destruct (Z.to_nat k <=? List.length (seg ++ stream_bytes rest))%nat.
        -- destruct Hleave as [H1 H2]. rewrite H1, Hskip. split; [reflexivity|assumption].
        -- assumption.
    + exists (mkSocket rest (send_faults sk)), [ARecv k []]. simpl.
      destruct (Z.to_nat k) eqn:Hz; [lia|]. simpl.
      repeat split; reflexivity.
Qed.

(** [_recv_exact] on a connected client. *)
Lemma recv_exact_spec n c sk :
  sock c = Some sk ->
  exists sk' t,
    _recv_exact n c = (recv_outcome (Z.to_nat n) [] (inbox sk), set_sock (Some sk') c, t) /\
    send_faults sk' = send_faults sk /\
    received t = firstn (Z.to_nat n) (stream_bytes (inbox sk)) /\
    sent t = [] /\
    recv_leaves (Z.to_nat n) (inbox sk) (inbox sk').
Proof.
  intros Hs. unfold _recv_exact.
  destruct (@recv_exact_loop_spec (Z.to_nat n) n [] c sk Hs) as (sk' & t & H).
  { simpl. lia. }
  simpl in H. rewrite Z.sub_0_r in H. exists sk', t. exact H.
Qed.

Lemma pack_u32_fits (S : Type) n (s : S) :
  (0 <= n <= Wire.U32_MAX)%Z ->
  Wire.pack_u32 n s =
    (Ret [ Wire.byte_of_Z n; Wire.byte_of_Z (Z.shiftr n 8);
           Wire.byte_of_Z (Z.shiftr n 16); Wire.byte_of_Z (Z.shiftr n 24) ], s, []).
Proof.
  intros [H0 H1]. unfold Wire.pack_u32.
  destruct (Z.leb_spec 0 n); [|lia]. destruct (Z.leb_spec n Wire.U32_MAX); [|lia].
  reflexivity.
Qed.

Lemma on_sock_sendall data c sk :
  sock c = Some sk ->
  on_sock (sendall data) c =
    match send_faults sk with
    | [] => (Ret tt, c, [ASendAll data])
    | None :: rest => (Ret tt, set_sock (Some (mkSocket (inbox sk) rest)) c, [ASendAll data])
    | Some msg :: rest =>
        (Raise (mkExn OSError msg), set_sock (Some (mkSocket (inbox sk) rest)) c,
         [ASendAll data])
    end.
Proof.
  intros Hs. unfold on_sock, sendall. rewrite Hs. unfold bind, get, emit. simpl.
  destruct (send_faults sk) as [|[msg|] rest]; simpl; try reflexivity.
  rewrite set_sock_same by assumption. reflexivity.
Qed.

Lemma declared_length_short (bs : list byte) :
  (List.length bs < 4)%nat -> declared_length bs = None.
Proof.
  destruct bs as [|b0 [|b1 [|b2 [|b3 bs]]]]; simpl; intros; try reflexivity; lia.
Qed.

Lemma declared_length_long (bs : list byte) :
  (4 <= List.length bs)%nat ->
  exists b0 b1 b2 b3 body, bs = b0 :: b1 :: b2 :: b3 :: body.
Proof.
  destruct bs as [|b0 [|b1 [|b2 [|b3 bs]]]]; simpl; intros; try lia. eauto 6.
Qed.

Lemma fault_msg_outcome need data s :
  recv_outcome need data s =
    if (need <=? List.length (stream_bytes s))%nat
    then Ret (Some (data ++ firstn need (stream_bytes s)))
    else match fault_msg s with
         | None => Ret None
         | Some msg => Raise (mkExn OSError msg)
         end.
Proof.
  unfold recv_outcome, fault_msg. destruct (first_fault s) as [[msg rest]|]; reflexivity.
Qed.

(** The exchange of [query] on a connected client whose request goes out. *)
Lemma query_receives sql c sk :
  sock c = Some sk -> request_fits sql -> send_fault sk = None ->
  exists sk' t,
    query sql c =
      (Ret (reply_value (fst (receive_frame (stream_bytes (inbox sk)) (fault_msg (inbox sk))))),
       set_sock (Some sk') c, ASendAll (request_frame sql) :: t) /\
    sent t = [] /\
    received t ++ snd (receive_frame (stream_bytes (inbox sk)) (fault_msg (inbox sk)))
      = stream_bytes (inbox sk) /\
    (if is_short (fst (receive_frame (stream_bytes (inbox sk)) (fault_msg (inbox sk))))
     then inbox sk' = after_fault (inbox sk)
     else stream_bytes (inbox sk')
            = snd (receive_frame (stream_bytes (inbox sk)) (fault_msg (inbox sk)))
          /\ first_fault (inbox sk') = first_fault (inbox sk)).
Proof.
  intros Hs Hfit Hsend.
  set (bs := stream_bytes (inbox sk)). set (flt := fault_msg (inbox sk)).
  (* the request goes out *)
  assert (Hout : exists sk0, inbox sk0 = inbox sk /\
            on_sock (sendall (request_frame sql)) c
              = (Ret tt, set_sock (Some sk0) c, [ASendAll (request_frame sql)])).
  { rewrite (on_sock_sendall _ c Hs). unfold send_fault in Hsend.
    destruct (send_faults sk) as [|[msg|] rest]; try discriminate.
    - exists sk. split; [reflexivity|]. rewrite set_sock_same by assumption. reflexivity.
    - eexists (mkSocket (inbox sk) rest). split; reflexivity. }
  destruct Hout as (sk0 & Hin0 & Hout).
  (* the length prefix *)
  destruct (@recv_exact_spec 4 (set_sock (Some sk0) c) sk0 eq_refl)
    as (sk1 & t1 & Hrun1 & _ & Hrecv1 & Hsent1 & Hleave1).
  rewrite fault_msg_outcome in Hrun1. unfold recv_leaves in Hleave1.
  rewrite Hin0 in *. fold bs flt in Hrun1, Hrecv1, Hleave1.
  change (Z.to_nat 4) with 4%nat in *.
  unfold query, bind at 1, get. rewrite Hs.
  unfold try_except, try_catch, bind at 1.
  unfold request_fits in Hfit.
  rewrite pack_u32_fits by lia.
  unfold bind at 1. fold (request_frame sql). rewrite Hout.
  unfold bind at 1. rewrite Hrun1. unfold receive_frame.
  destruct (Nat.leb_spec 4 (List.length bs)) as [Hlong|Hshort].
  2:{ (* the stream falls short of the prefix *)
      rewrite (declared_length_short _ Hshort).
      exists sk1, t1. rewrite firstn_all2 in Hrecv1 by lia.
      destruct flt as [msg|]; simpl; rewrite set_sock_twice, ?app_nil_r.
      all: repeat split; assumption. }
  destruct (declared_length_long _ Hlong) as (b0 & b1 & b2 & b3 & body & Hbs).
  rewrite Hbs in *. cbn [declared_length firstn skipn app] in *.
  unfold bind at 1. cbn [Wire.unpack_u32 ret].
  set (n := Wire.le32 b0 b1 b2 b3).
  destruct (n >? RESPONSE_LIMIT)%Z eqn:Hguard.
  { (* the size guard *)
    exists sk1, t1. cbn [fst snd is_short reply_value]. rewrite set_sock_twice.
    destruct Hleave1 as [Hb1 Hf1].
    repeat split; try assumption.
    - unfold ret. simpl. rewrite app_nil_r. reflexivity.
    - rewrite Hrecv1. reflexivity. }
  (* the payload *)
  destruct Hleave1 as [Hb1 Hf1].
  destruct (@recv_exact_spec n (set_sock (Some sk1) (set_sock (Some sk0) c)) sk1 eq_refl)
    as (sk2 & t2 & Hrun2 & _ & Hrecv2 & Hsent2 & Hleave2).
  rewrite fault_msg_outcome in Hrun2. unfold recv_leaves in Hleave2.
  assert (Hflt1 : fault_msg (inbox sk1) = flt).
  { unfold flt, fault_msg. rewrite Hf1. reflexivity. }
  assert (Haf1 : after_fault (inbox sk1) = after_fault (inbox sk)).
  { unfold after_fault. rewrite Hf1. reflexivity. }
  rewrite Hb1, Hflt1, ?Haf1 in *.
  unfold read_payload, bind at 1. rewrite Hrun2.
  rewrite Nat.ltb_antisym.
  exists sk2, (t1 ++ t2). rewrite !set_sock_twice.
  rewrite sent_app, received_app, Hsent1, Hsent2, Hrecv1, Hrecv2.
  destruct (Z.to_nat n <=? List.length body)%nat eqn:Hn; cbn [negb].
  - (* the payload came whole *)
    cbn [fst snd is_short reply_value app]. destruct Hleave2 as [Hb2 Hf2].
    unfold decode. destruct (loads (firstn (Z.to_nat n) body)) as [v|msg]; simpl;
      rewrite ?app_nil_r;
      (repeat split; [ rewrite firstn_skipn; reflexivity | assumption | congruence ]).
  - (* the stream falls short of the payload *)
    apply Nat.leb_gt in Hn. rewrite firstn_all2 by lia.
    destruct flt as [msg|]; simpl; rewrite ?app_nil_r;
      repeat split; assumption.
Qed.

Lemma query_not_connected sql c :
  sock c = None -> query sql c = (Ret (failure "Not connected"), c, []).
Proof. intros Hs. unfold query, bind, get. rewrite Hs. reflexivity. Qed.

Lemma query_request_too_long sql c sk :
  sock c = Some sk -> ~ request_fits sql ->
  exists msg, query sql c = (Ret (failure msg), c, []).
Proof.
  intros Hs Hfit. unfold request_fits in Hfit.
  unfold query, bind at 1, get. rewrite Hs.
  unfold try_except, try_catch, bind at 1, Wire.pack_u32.
  destruct (Z.leb_spec 0 (Z.of_nat (List.length (dumps_sql sql)))); [|lia].
  destruct (Z.leb_spec (Z.of_nat (List.length (dumps_sql sql))) Wire.U32_MAX); [lia|].
  eexists. reflexivity.
Qed.

Lemma query_send_fault sql c sk msg :
  sock c = Some sk -> request_fits sql -> send_fault sk = Some msg ->
  exists sk', query sql c =
    (Ret (failure msg), set_sock (Some sk') c, [ASendAll (request_frame sql)])
    /\ inbox sk' = inbox sk.
Proof.
  intros Hs Hfit Hsend. unfold request_fits in Hfit.
  unfold query, bind at 1, get. rewrite Hs.
  unfold try_except, try_catch, bind at 1.
  rewrite pack_u32_fits by lia.
  unfold bind at 1. fold (request_frame sql).
  rewrite (on_sock_sendall _ c Hs). unfold send_fault in Hsend.
  destruct (send_faults sk) as [|[m|] rest]; try discriminate.
  injection Hsend as ->. eexists. split; reflexivity.
Qed.

(** [query] returns, whatever the state of the client and of the network. *)
Lemma query_returns sql c : exists v c' t, query sql c = (Ret v, c', t).
Proof.
  destruct (sock c) as [sk|] eqn:Hs.
  2:{ rewrite query_not_connected by assumption. eauto. }
  destruct (Z.leb_spec (Z.of_nat (List.length (dumps_sql sql))) Wire.U32_MAX) as [Hfit|Hfit].
  2:{ destruct (query_request_too_long (sql:=sql) c Hs) as [msg H].
      { unfold request_fits. lia. }
      rewrite H. eauto. }
  destruct (send_fault sk) as [msg|] eqn:Hsend.
  - destruct (query_send_fault c Hs Hfit Hsend) as (sk' & H & _).
    rewrite H. eauto.
  - destruct (query_receives c Hs Hfit Hsend) as (sk' & t & H & _).
    rewrite H. eauto.
Qed.

(** C1. On every incoming byte stream (no transport fault), [_recv_exact n]
    returns exactly the first [n] bytes and leaves the rest unread, or
    returns [None] when the stream ends before [n] bytes have come; and
    [query], once its request is out, reads exactly four bytes of prefix,
    then exactly the declared number of bytes of payload before decoding
    them, a short read at either stage giving the 'Connection closed'
    result, with one single [sendall] in the whole exchange. *)
Theorem recv_exact_and_framing (n : Z) (sql : string) (c : client) (sk : socket)
  (Hconn : sock c = Some sk) (Hclean : first_fault (inbox sk) = None) :
  (exists sk' t,
     _recv_exact n c =
       ((if (Z.to_nat n <=? List.length (stream_bytes (inbox sk)))%nat
         then Ret (Some (firstn (Z.to_nat n) (stream_bytes (inbox sk))))
         else Ret None),
        set_sock (Some sk') c, t) /\
     received t = firstn (Z.to_nat n) (stream_bytes (inbox sk)) /\
     sent t = [] /\
     if (Z.to_nat n <=? List.length (stream_bytes (inbox sk)))%nat
     then stream_bytes (inbox sk') = skipn (Z.to_nat n) (stream_bytes (inbox sk))
          /\ first_fault (inbox sk') = None
     else inbox sk' = []) /\
  (send_fault sk = None -> request_fits sql ->
   exists sk' t,
     query sql c =
       (Ret (reply_value (fst (receive_frame (stream_bytes (inbox sk)) None))),
        set_sock (Some sk') c, ASendAll (request_frame sql) :: t) /\
     sent t = [] /\
     received t ++ snd (receive_frame (stream_bytes (inbox sk)) None)
       = stream_bytes (inbox sk) /\
     stream_bytes (inbox sk') = snd (receive_frame (stream_bytes (inbox sk)) None)).
Proof.
  split.
  - destruct (recv_exact_spec n c Hconn) as (sk' & t & Hrun & _ & Hrecv & Hsent & Hleave).
    exists sk', t. unfold recv_outcome, recv_leaves, after_fault in *.
    rewrite Hclean in *. simpl in Hrun.
    repeat split; try assumption.
  - intros Hsend Hfit.
    destruct (query_receives c Hconn Hfit Hsend)
      as (sk' & t & Hrun & Hsent & Hrecv & Hleave).
    assert (Hflt : fault_msg (inbox sk) = None) by (unfold fault_msg; rewrite Hclean; reflexivity).
    rewrite Hflt in *. exists sk', t. repeat split; try assumption.
    destruct (is_short _) eqn:Hshort.
    + rewrite Hleave. unfold after_fault. rewrite Hclean. simpl.
      unfold receive_frame in *.
      destruct (declared_length _); [|reflexivity].
      destruct (_ >? _)%Z; [discriminate|].
      destruct (_ <? _)%nat; [reflexivity|discriminate].
    + apply Hleave.
Qed.

(** C2. When the four prefix bytes declare more than 100 MiB (104857600
    bytes), [query] answers 'Response too large' having read those four
    bytes and nothing else: the payload stays unread in the stream.  For a
    declared length up to the ceiling the guard lets the exchange go on:
    the payload is read, and the answer is its decoding, or the short
    read's. *)
Theorem oversized_response_guard (sql : string) (c : client) (sk : socket)
  (b0 b1 b2 b3 : byte) (body : list byte)
  (Hconn : sock c = Some sk) (Hsend : send_fault sk = None) (Hfit : request_fits sql)
  (Hprefix : stream_bytes (inbox sk) = b0 :: b1 :: b2 :: b3 :: body) :
  RESPONSE_LIMIT = 104857600%Z /\
  exists v sk' t,
    query sql c = (Ret v, set_sock (Some sk') c, ASendAll (request_frame sql) :: t) /\
    sent t = [] /\
    if (Wire.le32 b0 b1 b2 b3 >? RESPONSE_LIMIT)%Z
    then v = failure "Response too large" /\
         received t = [b0; b1; b2; b3] /\
         stream_bytes (inbox sk') = body /\
         first_fault (inbox sk') = first_fault (inbox sk)
    else received t = [b0; b1; b2; b3] ++ firstn (Z.to_nat (Wire.le32 b0 b1 b2 b3)) body /\
         v = reply_value
               (if (List.length body <? Z.to_nat (Wire.le32 b0 b1 b2 b3))%nat
                then short (fault_msg (inbox sk))
                else Payload (firstn (Z.to_nat (Wire.le32 b0 b1 b2 b3)) body)).
Proof.
  split; [reflexivity|].
  destruct (query_receives c Hconn Hfit Hsend)
    as (sk' & t & Hrun & Hsent & Hrecv & Hleave).
  rewrite Hprefix in *. unfold receive_frame in *.
  cbn [declared_length skipn] in *.
  eexists _, sk', t. split; [exact Hrun|]. split; [assumption|].
  destruct (Wire.le32 b0 b1 b2 b3 >? RESPONSE_LIMIT)%Z.
  - cbn [fst snd is_short reply_value] in *. destruct Hleave as [Hb Hf].
    repeat split; try assumption.
    change (b0 :: b1 :: b2 :: b3 :: body) with ([b0; b1; b2; b3] ++ body) in Hrecv.
    apply app_inv_tail in Hrecv. assumption.
  - destruct (List.length body <? Z.to_nat (Wire.le32 b0 b1 b2 b3))%nat eqn:Hlen.
    + cbn [fst snd] in *. rewrite app_nil_r in Hrecv. split; [|reflexivity].
      rewrite Hrecv. apply Nat.ltb_lt in Hlen. rewrite firstn_all2 by lia. reflexivity.
    + cbn [fst snd] in *. split; [|reflexivity].
      change (b0 :: b1 :: b2 :: b3 :: body) with ([b0; b1; b2; b3] ++ body) in Hrecv.
      rewrite <- (firstn_skipn (Z.to_nat (Wire.le32 b0 b1 b2 b3)) body) in Hrecv at 2.
      rewrite app_assoc in Hrecv. apply app_inv_tail in Hrecv. assumption.
Qed.

(** C3. Whatever transport exception the send or the receive raises,
    [query] catches it and returns the failure dictionary that carries its
    text: a fault of [sendall], a fault that cuts the length prefix, or one
    that cuts the payload.  And [query] returns a value in every state of
    the client and of the network: no exception leaves it. *)
Theorem transport_fault_reported (sql : string) (c : client) :
  (forall sk msg,
     sock c = Some sk -> request_fits sql ->
     send_fault sk = Some msg \/
     (send_fault sk = None /\ fault_msg (inbox sk) = Some msg /\
      ((List.length (stream_bytes (inbox sk)) < 4)%nat \/
       exists n, declared_length (stream_bytes (inbox sk)) = Some n /\
                 (n <= RESPONSE_LIMIT)%Z /\
                 (List.length (skipn 4 (stream_bytes (inbox sk))) < Z.to_nat n)%nat)) ->
     exists c' t, query sql c = (Ret (failure (str (mkExn OSError msg))), c', t)) /\
  (exists v c' t, query sql c = (Ret v, c', t)).
Proof.
  split; [|apply query_returns].
  intros sk msg Hconn Hfit [Hsend|(Hsend & Hflt & Hcut)].
  - destruct (query_send_fault c Hconn Hfit Hsend) as (sk' & H & _).
    rewrite H. eexists _, _. reflexivity.
  - destruct (query_receives c Hconn Hfit Hsend) as (sk' & t & Hrun & _).
    rewrite Hrun, Hflt. unfold receive_frame.
    destruct Hcut as [Hshort|(n & Hn & Hle & Hshort)].
    + rewrite (declared_length_short _ Hshort). eexists _, _. reflexivity.
    + rewrite Hn. destruct (Z.gtb_spec n RESPONSE_LIMIT); [lia|].
      apply Nat.ltb_lt in Hshort. rewrite Hshort. eexists _, _. reflexivity.
Qed.

Lemma connect_refused msg ms c :
  connect (Refused msg) ms c =
    (Ret false, set_sock None c, [ASocket; ASetTimeout ms; AConnect (host c) (port c)]).
Proof. reflexivity. Qed.

Lemma connect_accepted s ms c :
  connect (Accepted s) ms c =
    (Ret true, set_sock (Some s) c, [ASocket; ASetTimeout ms; AConnect (host c) (port c)]).
Proof. reflexivity. Qed.

Lemma disconnect_leaves_none c :
  exists t, disconnect c = (Ret tt, set_sock None c, t).
Proof.
  unfold disconnect, bind, get. destruct c as [h p [sk|]]; simpl; eauto.
Qed.

Lemma query_keeps_connection sql c :
  is_connected (snd (fst (query sql c))) = is_connected c.
Proof.
  destruct (sock c) as [sk|] eqn:Hs.
  - unfold is_connected at 2. rewrite Hs.
    destruct (Z.leb_spec (Z.of_nat (List.length (dumps_sql sql))) Wire.U32_MAX) as [Hfit|Hfit].
    2:{ destruct (query_request_too_long (sql:=sql) c Hs) as [msg H].
        { unfold request_fits. lia. }
        rewrite H. simpl. unfold is_connected. rewrite Hs. reflexivity. }
    destruct (send_fault sk) as [msg|] eqn:Hsend.
    + destruct (query_send_fault c Hs Hfit Hsend) as (sk' & H & _). rewrite H. reflexivity.
    + destruct (query_receives c Hs Hfit Hsend) as (sk' & t & H & _). rewrite H. reflexivity.
  - rewrite query_not_connected by assumption. reflexivity.
Qed.

Lemma perform_connected o c :
  is_connected (fst (perform o c)) = last_decides [o] (is_connected c).
Proof.
  destruct o as [[msg|s] ms| |sql|[msg|s]|]; try reflexivity.
  - simpl. destruct (disconnect_leaves_none c) as [t ->]. reflexivity.
  - simpl. pose proof (query_keeps_connection sql c) as H.
    destruct (query sql c) as [[r c'] t]. exact H.
  - simpl. unfold exit. destruct (disconnect_leaves_none c) as [t ->]. reflexivity.
Qed.

Lemma perform_all_app ops1 ops2 c :
  fst (perform_all (ops1 ++ ops2) c) = fst (perform_all ops2 (fst (perform_all ops1 c))).
Proof.
  revert c. induction ops1 as [|o ops1 IH]; intros c; simpl; [reflexivity|].
  destruct (perform o c) as [c1 t1]. specialize (IH c1).
  destruct (perform_all (ops1 ++ ops2) c1) as [c2 t2].
  destruct (perform_all ops1 c1) as [c3 t3]. simpl in *.
  destruct (perform_all ops2 c3). assumption.
Qed.

(** C10. After any sequence of operations, [self.sock] holds a socket
    exactly when the most recent connect succeeded and no disconnect has
    followed; a failed connect resets it to [None], a successful one sets it,
    [disconnect] always leaves it [None], and [query] on a client whose
    [sock] is [None] returns the 'Not connected' failure with no call to the
    network. *)
Theorem sock_tracks_connection (history : list op) (c : client) :
  is_connected (fst (perform_all history c)) = connect_stands history (is_connected c) /\
  (forall msg ms, exists t,
     connect (Refused msg) ms c = (Ret false, set_sock None c, t)) /\
  (forall s ms, exists t,
     connect (Accepted s) ms c = (Ret true, set_sock (Some s) c, t)) /\
  (exists t, disconnect c = (Ret tt, set_sock None c, t)) /\
  (forall sql,
     query sql (set_sock None c) = (Ret (failure "Not connected"), set_sock None c, [])).
Proof.
  split; [|split; [|split; [|split]]].
  - unfold connect_stands.
    induction history as [|o history IH] using rev_ind; [reflexivity|].
    rewrite perform_all_app, rev_unit.
    assert (Hone : forall c1, fst (perform_all [o] c1) = fst (perform o c1)).
    { intros c1. simpl. destruct (perform o c1). reflexivity. }
    rewrite Hone, perform_connected, IH.
    destruct o as [[msg|s] ms| |sql|[msg|s]|]; reflexivity.
  - intros msg ms. eexists. apply connect_refused.
  - intros s ms. eexists. apply connect_accepted.
  - apply disconnect_leaves_none.
  - intros sql. apply query_not_connected. reflexivity.
Qed.

End ClientProperties.

(** ** Rules for [safe] and [emits] *)

Section Rules.
Import HarnessSpec.
Variables (S : Type) (I : S -> Prop) (K : action -> bool).

Lemma emits_ret A (a : A) : emits K (ret (S:=S) a).
Proof. intros s. reflexivity. Qed.

Lemma emits_raise A e : emits K (raise (S:=S) (A:=A) e).
Proof. intros s. reflexivity. Qed.

Lemma emits_diverge A : emits K (diverge (S:=S) (A:=A)).
Proof. intros s. reflexivity. Qed.

Lemma emits_get : emits K (get (S:=S)).
Proof. intros s. reflexivity. Qed.

Lemma emits_put s0 : emits K (put (S:=S) s0).
Proof. intros s. reflexivity. Qed.

Lemma emits_emit a : K a = true -> emits K (emit (S:=S) a).
Proof. intros Ha s. simpl. rewrite Ha. reflexivity. Qed.

Lemma emits_print l : K (APrint l) = true -> emits K (Harness.print (S:=S) l).
Proof. apply emits_emit. Qed.

Lemma emits_bind A B (m : M S A) (f : A -> M S B) :
  emits K m -> (forall a, emits K (f a)) -> emits K (bind m f).
Proof.
  intros Hm Hf s. unfold bind. specialize (Hm s).
  destruct (m s) as [[[a|e|] s1] t1]; simpl in *; try assumption.
  specialize (Hf a s1). destruct (f a s1) as [[r s2] t2]. simpl in *.
  rewrite forallb_app, Hm, Hf. reflexivity.
Qed.

Lemma emits_try_catch A catches (body : M S A) handler :
  emits K body -> (forall e, emits K (handler e)) -> emits K (try_catch catches body handler).
Proof.
  intros Hb Hh s. unfold try_catch. specialize (Hb s).
  destruct (body s) as [[[a|e|] s1] t1]; simpl in *; try assumption.
  destruct (catches e); simpl; try assumption.
  specialize (Hh e s1). destruct (handler e s1) as [[r s2] t2]. simpl in *.
  rewrite forallb_app, Hb, Hh. reflexivity.
Qed.

Lemma emits_try_finally A (body : M S A) cleanup :
  emits K body -> emits K cleanup -> emits K (try_finally body cleanup).
Proof.
  intros Hb Hc s. unfold try_finally. specialize (Hb s).
  destruct (body s) as [[[a|e|] s1] t1]; simpl in *; try assumption;
    specialize (Hc s1); destruct (cleanup s1) as [[[u|e'|] s2] t2]; simpl in *;
    rewrite forallb_app, Hb, Hc; reflexivity.
Qed.

Lemma emits_weaken A (K' : action -> bool) (m : M S A) :
  (forall a, K' a = true -> K a = true) -> emits K' m -> emits K m.
Proof.
  intros Hsub Hm s. specialize (Hm s). rewrite forallb_forall in *. auto.
Qed.

Lemma emits_lift A (m : res A) : emits K (Py.lift (S:=S) m).
Proof. intros s. reflexivity. Qed.

Lemma emits_zoom T A (proj : S -> T) upd (m : M T A) :
  emits K m -> emits K (zoom proj upd m).
Proof.
  intros Hm s. unfold zoom. specialize (Hm (proj s)).
  destruct (m (proj s)) as [[r t'] tr]. assumption.
Qed.

Lemma safe_ret A (a : A) : safe I (ret a).
Proof. intros s Hs. split; [assumption|discriminate]. Qed.

Lemma safe_raise A e : safe I (raise (A:=A) e).
Proof. intros s Hs. split; [assumption|discriminate]. Qed.

Lemma safe_emit a : safe I (emit a).
Proof. intros s Hs. split; [assumption|discriminate]. Qed.

Lemma safe_print l : safe I (Harness.print l).
Proof. apply safe_emit. Qed.

Lemma safe_get : safe I get.
Proof. intros s Hs. split; [assumption|discriminate]. Qed.

Lemma safe_bind A B (m : M S A) (f : A -> M S B) :
  safe I m -> (forall a, safe I (f a)) -> safe I (bind m f).
Proof.
  intros Hm Hf s Hs. unfold bind. destruct (Hm s Hs) as [H1 H2].
  destruct (m s) as [[[a|e|] s1] t1]; simpl in *;
    [ | split; [assumption|discriminate] | congruence ].
  destruct (Hf a s1 H1) as [H3 H4]. destruct (f a s1) as [[r s2] t2]. auto.
Qed.

Lemma safe_try_catch A catches (body : M S A) handler :
  safe I body -> (forall e, safe I (handler e)) -> safe I (try_catch catches body handler).
Proof.
  intros Hb Hh s Hs. unfold try_catch. destruct (Hb s Hs) as [H1 H2].
  destruct (body s) as [[[a|e|] s1] t1]; simpl in *; auto.
  destruct (catches e); simpl; auto.
  destruct (Hh e s1 H1) as [H3 H4]. destruct (handler e s1) as [[r s2] t2]. auto.
Qed.

Lemma safe_try_finally A (body : M S A) cleanup :
  safe I body -> safe I cleanup -> safe I (try_finally body cleanup).
Proof.
  intros Hb Hc s Hs. unfold try_finally. destruct (Hb s Hs) as [H1 H2].
  destruct (body s) as [[[a|e|] s1] t1]; simpl in *; try congruence;
    destruct (Hc s1 H1) as [H3 H4];
    destruct (cleanup s1) as [[[u|e'|] s2] t2]; simpl in *;
    (split; [assumption | first [discriminate | congruence]]).
Qed.

Lemma safe_lift A (m : res A) : m <> Diverge -> safe I (Py.lift m).
Proof. intros Hm s Hs. split; assumption. Qed.

Lemma safe_when (b : bool) (m : M S unit) : safe I m -> safe I (Harness.when b m).
Proof. intros Hm. destruct b; [assumption|apply safe_ret]. Qed.

Lemma emits_when (b : bool) (m : M S unit) : emits K m -> emits K (Harness.when b m).
Proof. intros Hm. destruct b; [assumption|apply emits_ret]. Qed.

End Rules.

Create HintDb py.
#[global] Hint Resolve emits_ret emits_raise emits_diverge emits_get emits_put
  emits_lift emits_zoom emits_when
  safe_ret safe_raise safe_emit safe_print safe_get safe_when : py.

(** One step of a proof of [emits] or [safe], along the structure of the
    computation. *)
Ltac step :=
  match goal with
  | |- HarnessSpec.emits _ (bind _ _) => apply emits_bind; [|intros]
  | |- HarnessSpec.emits _ (try_except _ _) => apply emits_try_catch; [|intros]
  | |- HarnessSpec.emits _ (try_except_all _ _) => apply emits_try_catch; [|intros]
  | |- HarnessSpec.emits _ (try_except_timeout _ _) => apply emits_try_catch; [|intros]
  | |- HarnessSpec.emits _ (try_except2 _ _ _) => apply emits_try_catch; [|intros]
  | |- HarnessSpec.emits _ (try_finally _ _) => apply emits_try_finally
  | |- HarnessSpec.emits _ (emit _) => apply emits_emit; solve [reflexivity | auto]
  | |- HarnessSpec.emits _ (Harness.print _) => apply emits_print; reflexivity
  | |- HarnessSpec.emits _ (Harness.log _) => apply emits_print; reflexivity
  | |- HarnessSpec.emits _ (Harness.when _ _) => apply emits_when
  | |- HarnessSpec.safe _ (Harness.when _ _) => apply safe_when
  | |- HarnessSpec.safe _ (bind _ _) => apply safe_bind; [|intros]
  | |- HarnessSpec.safe _ (try_except _ _) => apply safe_try_catch; [|intros]
  | |- HarnessSpec.safe _ (try_except_all _ _) => apply safe_try_catch; [|intros]
  | |- HarnessSpec.safe _ (try_except_timeout _ _) => apply safe_try_catch; [|intros]
  | |- HarnessSpec.safe _ (try_except2 _ _ _) => apply safe_try_catch; [|intros]
  | |- HarnessSpec.safe _ (try_finally _ _) => apply safe_try_finally
  | |- HarnessSpec.safe _ (Harness.log _) => apply safe_print
  | |- _ (if ?b then _ else _) => destruct b
  | |- _ (match ?x with _ => _ end) => destruct x
  | |- _ => solve [auto with py]
  end.

Ltac steps := repeat step.

Section ClientFootprint.
Import Client HarnessSpec.
Context {codec : Codec}.
Variable K : action -> bool.
Hypothesis Ksend : forall d, K (ASendAll d) = true.
Hypothesis Krecv : forall n d, K (ARecv n d) = true.

Lemma emits_on_sock A (m : M socket A) : emits K m -> emits K (on_sock m).
Proof.
  intros Hm c. unfold on_sock. destruct (sock c) as [sk|]; [|reflexivity].
  specialize (Hm sk). destruct (m sk) as [[r s'] t]. assumption.
Qed.

Lemma emits_recv n : emits K (recv n).
Proof.
  unfold recv. steps.
Qed.

Lemma emits_sendall d : emits K (sendall d).
Proof.
  unfold sendall. steps.
Qed.

Lemma emits_recv_exact_loop fuel : forall n data, emits K (recv_exact_loop fuel n data).
Proof.
  induction fuel as [|fuel IH]; intros n data; simpl;
    destruct (_ <? _)%Z; steps; auto using emits_on_sock, emits_recv.
Qed.

Lemma emits_query sql : emits K (query sql).
Proof.
  unfold query, read_payload, decode, _recv_exact, Wire.pack_u32, Wire.unpack_u32.
  steps; auto using emits_on_sock, emits_sendall, emits_recv_exact_loop.
Qed.

Lemma emits_run_tests_from todo : forall results, emits K (run_tests_from todo results).
Proof.
  induction todo as [|test rest IH]; intros results; simpl; steps;
    auto using emits_query.
Qed.

Lemma emits_run_basic_tests : emits K run_basic_tests.
Proof. apply emits_run_tests_from. Qed.

End ClientFootprint.

Section ClientReturns.
Import Client HarnessSpec.
Context {codec : Codec}.

Lemma emits_connect K d ms :
  K ASocket = true -> (forall n, K (ASetTimeout n) = true) ->
  (forall h p, K (AConnect h p) = true) -> emits K (connect d ms).
Proof. intros H1 H2 H3. unfold connect. steps. Qed.

Lemma emits_disconnect K : K AClose = true -> emits K disconnect.
Proof.
  intros H1. unfold disconnect. steps. apply emits_on_sock. unfold close. steps.
Qed.

Lemma connect_returns d ms c : fst (fst (connect d ms c)) <> Diverge.
Proof. destruct d; discriminate. Qed.

Lemma disconnect_returns c : fst (fst (disconnect c)) <> Diverge.
Proof. destruct (disconnect_leaves_none c) as [t ->]. discriminate. Qed.

Lemma query_does_return sql c : fst (fst (query sql c)) <> Diverge.
Proof. destruct (query_returns sql c) as (v & c' & t & ->). discriminate. Qed.

Lemma run_tests_from_returns todo :
  Forall (fun t => forall r, bt_check t r <> Diverge) todo ->
  forall results c, fst (fst (run_tests_from todo results c)) <> Diverge.
Proof.
  induction 1 as [|test rest Hcheck _ IH]; intros results c; simpl; [discriminate|].
  unfold bind. destruct (query_returns (bt_sql test) c) as (v & c' & t & ->).
  unfold Py.lift. specialize (Hcheck v).
  destruct (bt_check test v) as [passed|e|]; simpl; try congruence.
  specialize (IH (results ++ [mkBasicResult (bt_name test) (bt_sql test) passed v]) c').
  destruct (run_tests_from rest _ c') as [[r c''] t'']. simpl in *.
  destruct r; simpl; congruence.
Qed.

Lemma getitem_returns v k : Py.getitem v k <> Diverge.
Proof. destruct v; simpl; try discriminate. destruct (Py.lookup k kvs); discriminate. Qed.

Lemma len_returns v : Py.len v <> Diverge.
Proof. destruct v; discriminate. Qed.

Lemma contained_returns k v : Py.contained k v <> Diverge.
Proof. destruct v; discriminate. Qed.

Lemma and_returns a b : a <> Diverge -> b <> Diverge -> Py.and_ a b <> Diverge.
Proof.
  unfold Py.and_. destruct a as [va|e|]; simpl; try congruence.
  destruct (Py.truthy va); congruence.
Qed.

Lemma not_returns a : a <> Diverge -> Py.not_ a <> Diverge.
Proof. destruct a; simpl; congruence. Qed.

Lemma rbind_returns A B (m : res A) (f : A -> res B) :
  m <> Diverge -> (forall a, f a <> Diverge) -> Py.rbind m f <> Diverge.
Proof. destruct m; simpl; auto; congruence. Qed.

Lemma tests_checks_return :
  Forall (fun t => forall r, bt_check t r <> Diverge) tests.
Proof.
  unfold tests, success_of.
  repeat constructor; intros r; cbn [bt_check];
    repeat first [ apply and_returns | apply not_returns | apply rbind_returns; [|intros]
                 | apply getitem_returns | apply len_returns | apply contained_returns
                 | discriminate ].
Qed.

Lemma run_basic_tests_returns c : fst (fst (run_basic_tests c)) <> Diverge.
Proof. apply run_tests_from_returns, tests_checks_return. Qed.

End ClientReturns.

(** ** The stages of the harness: what they do and what they leave alone *)

Section Stages.
Import Harness HarnessSpec.
Context {codec : Codec}.
Variables (E : env) (self : harness).

Lemma emits_with_client K A (m : M Client.client A) c :
  emits K m -> emits K (with_client m c).
Proof.
  intros Hm s. unfold with_client. specialize (Hm c).
  destruct (m c) as [[r c'] t]. assumption.
Qed.

Lemma safe_with_client (I : state -> Prop) A (m : M Client.client A) c :
  (forall c0, fst (fst (m c0)) <> Diverge) -> safe I (with_client m c).
Proof.
  intros Hm s Hs. unfold with_client. specialize (Hm c).
  destruct (m c) as [[[a|e|] c'] t]; simpl in *; split; congruence || assumption.
Qed.

(** *** Building *)

Lemma emits_run_cmd cwd argv : emits build_action (run_cmd E cwd argv).
Proof. unfold run_cmd. steps. Qed.

Lemma safe_run_cmd I cwd argv : safe I (run_cmd E cwd argv).
Proof. unfold run_cmd. steps. Qed.

Lemma emits_run_cmake src build : emits build_action (run_cmake E self src build).
Proof. unfold run_cmake. steps; apply emits_run_cmd. Qed.

Lemma safe_run_cmake I src build : safe I (run_cmake E self src build).
Proof. unfold run_cmake. steps; apply safe_run_cmd. Qed.

Lemma emits_build_cli : emits build_action (build_cli E self).
Proof. unfold build_cli. steps; apply emits_run_cmd. Qed.

Lemma safe_build_cli I : safe I (build_cli E self).
Proof. unfold build_cli. steps; apply safe_run_cmd. Qed.

Lemma emits_copy_all files dest : emits build_action (copy_all E files dest).
Proof. induction files as [|f rest IH]; simpl; steps. Qed.

Lemma safe_copy_all I files dest : safe I (copy_all E files dest).
Proof. induction files as [|f rest IH]; simpl; steps. Qed.

Lemma emits_build_all : emits build_action (build_all E self).
Proof.
  unfold build_all. steps;
    auto using emits_run_cmake, emits_build_cli, emits_copy_all.
Qed.

Lemma safe_build_all I : safe I (build_all E self).
Proof.
  unfold build_all. steps;
    auto using safe_run_cmake, safe_build_cli, safe_copy_all.
Qed.

(** *** Reporting *)

Lemma emits_print_result r : emits report_action (print_result r).
Proof. unfold print_result. steps. Qed.

Lemma safe_print_result I r : safe I (print_result r).
Proof. unfold print_result. steps. Qed.

Lemma emits_print_each results : forall p f, emits report_action (print_each results p f).
Proof.
  induction results as [|r rest IH]; intros p f; simpl; steps;
    auto using emits_print_result.
Qed.

Lemma safe_print_each I results : forall p f, safe I (print_each results p f).
Proof.
  induction results as [|r rest IH]; intros p f; simpl; steps;
    auto using safe_print_result.
Qed.

Lemma emits_print_results results title : emits report_action (print_results results title).
Proof. unfold print_results. steps; auto using emits_print_each. Qed.

Lemma safe_print_results I results title : safe I (print_results results title).
Proof. unfold print_results. steps; auto using safe_print_each. Qed.

(** *** Local-mode cases *)

Lemma emits_run_cli argv input : emits cli_action (run_cli E argv input).
Proof. unfold run_cli. steps. Qed.

Lemma safe_run_cli I argv input : safe I (run_cli E argv input).
Proof. unfold run_cli. steps. Qed.

Lemma emits_in_state K A (m : M state A) : emits K m -> emits K (in_state m).
Proof. apply emits_zoom. Qed.

Lemma safe_in_state (I : state -> Prop) A (m : M state A) :
  safe I m -> safe (fun f => I (f_state f)) (in_state m).
Proof.
  intros Hm f Hf. unfold in_state, zoom. destruct (Hm (f_state f) Hf) as [H1 H2].
  destruct (m (f_state f)) as [[r s'] t]. auto.
Qed.

Lemma safe_assign_result (I : state -> Prop) c :
  safe (fun f => I (f_state f)) (assign_result c).
Proof. intros f Hf. split; [assumption|discriminate]. Qed.

Lemma safe_append (I : state -> Prop) r : safe (fun f => I (f_state f)) (append r).
Proof. intros f Hf. split; [assumption|discriminate]. Qed.

Lemma safe_result_returncode (I : state -> Prop) :
  safe (fun f => I (f_state f)) result_returncode.
Proof.
  intros f Hf. unfold result_returncode, bind, get. simpl.
  destruct (f_result f); simpl; split; assumption || discriminate.
Qed.

Lemma emits_frame_ops K :
  (forall c, emits K (assign_result c)) /\ (forall r, emits K (append r))
  /\ emits K result_returncode.
Proof.
  repeat split; intros; unfold assign_result, append, result_returncode; steps.
Qed.

Lemma emits_run_case test : emits cli_action (run_case E self test).
Proof.
  destruct (emits_frame_ops cli_action) as (Ha & Hp & Hr).
  unfold run_case. steps; auto using emits_in_state, emits_run_cli.
Qed.

Lemma safe_run_case (I : state -> Prop) test :
  check_returns test -> safe (fun f => I (f_state f)) (run_case E self test).
Proof.
  intros Hc. unfold run_case. steps;
    auto using safe_in_state, safe_run_cli, safe_assign_result, safe_append,
      safe_result_returncode, safe_lift.
Qed.

Lemma emits_run_cases cases : emits cli_action (run_cases E self cases).
Proof. induction cases as [|test rest IH]; simpl; steps; auto using emits_run_case. Qed.

Lemma safe_run_cases (I : state -> Prop) cases :
  Forall check_returns cases -> safe (fun f => I (f_state f)) (run_cases E self cases).
Proof. induction 1; simpl; steps; auto using safe_run_case. Qed.

Lemma emits_run_local_tests cases : emits cli_action (run_local_tests E self cases).
Proof.
  unfold run_local_tests. steps. intros s.
  pose proof (emits_run_cases cases (mkFrame s None [])) as H.
  destruct (run_cases E self cases (mkFrame s None [])) as [[r f] t]. assumption.
Qed.

Lemma safe_run_local_tests I cases :
  Forall check_returns cases -> safe I (run_local_tests E self cases).
Proof.
  intros Hc. unfold run_local_tests. steps. intros s Hs.
  destruct (@safe_run_cases I cases Hc (mkFrame s None []) Hs) as [H1 H2].
  destruct (run_cases E self cases (mkFrame s None [])) as [[[u|e|] f] t];
    simpl in *; split; assumption || discriminate || congruence.
Qed.

Lemma local_checks_return : Forall check_returns define_cli_local_tests.
Proof.
  unfold define_cli_local_tests, check_returns, has, rc_is_0, rc_not_0.
  repeat constructor; intros out rc; cbn [lt_check];
    repeat first [ apply and_returns | discriminate ].
Qed.

(** *** Remote-mode cases *)

Lemma convert_returns results : convert results <> Diverge.
Proof.
  induction results as [|r rest IH]; simpl; [discriminate|].
  apply rbind_returns.
  - destruct (negb _); [|discriminate]. unfold dict_get.
    destruct (Client.br_result r); try discriminate.
    destruct (Py.lookup _ _); discriminate.
  - intros err. apply rbind_returns; [assumption|discriminate].
Qed.

Lemma emits_run_remote_tests : emits net_action (run_remote_tests E).
Proof.
  unfold run_remote_tests. steps; apply emits_with_client;
    first [ apply emits_connect | apply emits_run_basic_tests | apply emits_disconnect ];
    reflexivity.
Qed.

Lemma safe_run_remote_tests I : safe I (run_remote_tests E).
Proof.
  unfold run_remote_tests. steps;
    first [ apply safe_with_client;
            auto using connect_returns, run_basic_tests_returns, disconnect_returns
          | apply safe_lift, convert_returns ].
Qed.

(** *** The readiness probe *)

(** One turn of the probe, on a harness that holds its process. *)
Lemma probe_step fuel i start s p :
  driver_process s = Some p ->
  probe E (S fuel) i start s =
    if (now s - start <? PROBE_TIMEOUT)%Z then
      if negb (p_alive p) || tick_exited E i then
        (Ret false, drained (exit_process s),
         [APoll; AReadOutput (p_unread p); APrint (LHarness (DriverExited (p_unread p)))])
      else
        if accepted (tick_dial E i) then
          (Ret true, advance (Z.of_N (tick_connect_ms E i)) s,
           APoll :: probe_connect ++ [AClose; APrint (LHarness ServerReady)])
        else
          let '(r, s', t) :=
            probe E fuel (S i) start
              (advance PROBE_SLEEP (advance (Z.of_N (tick_connect_ms E i)) s)) in
          (r, s', APoll :: probe_connect ++ ASleep PROBE_SLEEP :: t)
    else (Ret false, s, [APrint (LHarness ProbeTimeout)]).
Proof.
  intros Hp. destruct s as [dp t0 n]. simpl in Hp. subst dp.
  destruct p as [alive unread graceful].
  cbn [probe]. unfold bind at 1, time, bind at 1, get. cbn [now ret].
  destruct (t0 - start <? PROBE_TIMEOUT)%Z; [|reflexivity].
  unfold bind at 1, poll, with_process, bind at 1, get. cbn [driver_process p_alive].
  destruct alive; cbn [negb orb].
  - destruct (tick_exited E i); [reflexivity|].
    cbn. destruct (tick_dial E i) as [msg|sk]; cbn.
    + destruct (probe E fuel (S i) start _) as [[r s'] t]. reflexivity.
    + reflexivity.
  - reflexivity.
Qed.

Lemma probe_out_of_time i start s :
  (PROBE_TIMEOUT <= now s - start)%Z ->
  forall fuel, probe E fuel i start s = (Ret false, s, [APrint (LHarness ProbeTimeout)]).
Proof.
  intros Hout fuel.
  assert (Htest : (now s - start <? PROBE_TIMEOUT)%Z = false) by (apply Z.ltb_ge; lia).
  destruct fuel; cbn [probe]; unfold bind at 1, time, bind at 1, get; cbn [ret];
    rewrite Htest; reflexivity.
Qed.

(** The probe returns, with the server reported ready exactly when it
    answers [True], a failure logged exactly when it answers [False], and
    the output of the process either still to be read or logged. *)
Lemma probe_spec fuel : forall i start s p,
  driver_process s = Some p -> consistent s ->
  (PROBE_TIMEOUT - (now s - start) <= PROBE_SLEEP * Z.of_nat fuel)%Z ->
  exists b s' t p',
    probe E fuel i start s = (Ret b, s', t) /\
    consistent s' /\ driver_process s' = Some p' /\
    existsb is_ready t = b /\ existsb is_start_failure t = negb b /\
    (p_unread p' = p_unread p \/
     (b = false /\ In (APrint (LHarness (DriverExited (p_unread p)))) t)).
Proof.
  induction fuel as [|fuel IH]; intros i start s p Hp Hc Hbound.
  - rewrite probe_out_of_time by (unfold PROBE_SLEEP in Hbound; lia).
    exists false, s, [APrint (LHarness ProbeTimeout)], p. auto 10.
  - rewrite (probe_step fuel i start s Hp).
    destruct (now s - start <? PROBE_TIMEOUT)%Z eqn:Htest.
    2:{ exists false, s, [APrint (LHarness ProbeTimeout)], p. auto 10. }
    destruct (negb (p_alive p) || tick_exited E i) eqn:Hdead.
    { clear IH Hbound Htest Hdead.
      destruct s as [dp t0 n]. cbn in Hp. subst dp. destruct p as [alive unread graceful].
      unfold consistent in Hc. cbn in Hc.
      eexists false, _, _, (mkProcess false EmptyString graceful).
      split; [reflexivity|]. unfold consistent, drained, exit_process.
      destruct alive; cbn; subst; repeat split; auto 10. }
    destruct (accepted (tick_dial E i)).
    { eexists true, _, _, p. split; [reflexivity|].
      unfold consistent, advance in *. cbn. auto 10. }
    set (s1 := advance PROBE_SLEEP (advance (Z.of_N (tick_connect_ms E i)) s)).
    destruct (IH (S i) start s1 p) as (b & s' & t & p' & Hrun & Hc' & Hp' & Hr & Hf & Hout).
    + assumption.
    + exact Hc.
    + unfold s1, advance, PROBE_SLEEP, PROBE_TIMEOUT in *. cbn [now]. lia.
    + rewrite Hrun. exists b, s', (APoll :: probe_connect ++ ASleep PROBE_SLEEP :: t), p'.
      split; [reflexivity|]. repeat split; try assumption.
      destruct Hout as [Hout|[Hb Hin]]; [left; assumption|right].
      split; [assumption|]. simpl. auto 10.
Qed.

End Stages.

(** ** Starting and stopping the driver *)

Section Driver.
Import Harness HarnessSpec.
Context {codec : Codec}.
Variables (E : env) (self : harness).

Lemma emits_with_process K A (f : process -> M state A) :
  (forall p, emits K (f p)) -> emits K (with_process f).
Proof. intros Hf. unfold with_process. steps. Qed.

Lemma emits_probe fuel : forall i start, emits start_action (probe E fuel i start).
Proof.
  induction fuel as [|fuel IH]; intros i start; cbn [probe].
  - unfold time. steps.
  - unfold time, poll, read_output, sleep, elapse. steps;
      try (apply emits_with_process; intros; steps);
      try (apply emits_with_client;
           first [ apply emits_connect | apply emits_disconnect ]; reflexivity).
Qed.

Lemma emits_start_driver : emits start_action (start_driver E self).
Proof.
  unfold start_driver, popen, time. steps; auto using emits_probe.
Qed.

Lemma emits_stop_driver : emits stop_action stop_driver.
Proof.
  unfold stop_driver, terminate, wait, kill, read_output, set_driver.
  steps; try (apply emits_with_process; intros; steps).
Qed.

(** [start_driver] on a harness that has launched nothing: the driver is
    missing, or cannot be started, or the probe settles its fate. *)
Lemma start_driver_spec s :
  clean s ->
  (exists t, start_driver E self s = (Ret false, s, t) /\
             existsb is_ready t = false /\ existsb is_start_failure t = true /\
             existsb is_launch t = false) \/
  (exists e t, start_driver E self s = (Raise e, s, t) /\ popen_fault E <> None /\
               existsb is_ready t = false) \/
  (exists b s' t p',
     start_driver E self s = (Ret b, s', t) /\ popen_fault E = None /\
     consistent s' /\ driver_process s' = Some p' /\
     existsb is_ready t = b /\ existsb is_start_failure t = negb b /\
     (p_unread p' = server_output E \/
      (b = false /\ In (APrint (LHarness (DriverExited (server_output E)))) t))).
Proof.
  intros [Hd Hr]. destruct s as [dp t0 n]. cbn in Hd, Hr. subst dp n.
  set (exe := test_dir self // "build" // config self // exe_name E "idalib_driver").
  set (intro := APrint (LHarness (StartingDriver (path_name (test_db self))))).
  destruct (path_exists E exe) eqn:Hex.
  2:{ left. exists [intro; APrint (LHarness (DriverNotFound exe))].
      split; [|auto]. cbv beta iota zeta delta [start_driver bind log print emit ret].
      fold exe. rewrite Hex. reflexivity. }
  destruct (popen_fault E) as [msg|] eqn:Hpf.
  { right; left. exists (mkExn OSError msg), [intro; APopen [exe; test_db self]].
    split; [|split; [discriminate|reflexivity]].
    cbv beta iota zeta delta [start_driver bind log print emit popen raise].
    fold exe. rewrite Hex, Hpf. reflexivity. }
  right; right.
  set (p0 := mkProcess true (server_output E) (server_graceful E)).
  set (s1 := mkState (Some p0) t0 1).
  set (pre := [intro; APopen [exe; test_db self]; APrint (LHarness Waiting)]).
  assert (Heq : start_driver E self (mkState None t0 0) =
                let '(r, s', t) := probe E (Z.to_nat (PROBE_TIMEOUT / PROBE_SLEEP)) 0 t0 s1 in
                (r, s', pre ++ t)).
  { cbv beta iota zeta delta [start_driver bind log print emit popen time get put ret].
    fold exe. rewrite Hex, Hpf. cbv beta iota delta [negb now running]. fold p0 s1.
    destruct (probe E _ 0 t0 s1) as [[r s'] t]. reflexivity. }
  destruct (@probe_spec E (Z.to_nat (PROBE_TIMEOUT / PROBE_SLEEP)) 0%nat t0 s1 p0 eq_refl)
    as (b & s' & t & p' & Hrun & Hc' & Hp' & Hready & Hfail & Hout).
  { reflexivity. }
  { unfold s1, PROBE_TIMEOUT, PROBE_SLEEP. cbn [now].
    change (Z.to_nat (30000 / 500)) with 60%nat. lia. }
  rewrite Heq, Hrun. exists b, s', (pre ++ t), p'.
  split; [reflexivity|]. repeat split; try assumption.
  destruct Hout as [Hout|[Hb Hin]]; [left; exact Hout|right].
  split; [assumption|]. apply in_or_app. right. exact Hin.
Qed.

(** [stop_driver] always returns, and leaves no process: neither held by the
    harness nor alive. *)
Lemma stop_driver_spec s :
  consistent s ->
  exists t,
    stop_driver s = (Ret tt, mkState None (now s) 0, t) /\
    match driver_process s with
    | None => t = []
    | Some p =>
        t = [APrint (LHarness Stopping); ATerminate; AWait (Some 5000%Z)]
            ++ (if p_alive p && negb (p_graceful p) then [AKill; AWait None] else [])
            ++ [AReadOutput (p_unread p)]
            ++ (if Py.strip_nonempty (p_unread p)
                then [APrint (LDriverOutput (p_unread p))] else [])
    end.
Proof.
  intros Hc. destruct s as [[[alive unread graceful]|] t0 n]; unfold consistent in Hc;
    cbn in Hc; subst n.
  - destruct alive, graceful, (Py.strip_nonempty unread) eqn:Hs;
      (eexists; split; [cbv -[Py.strip_nonempty]; rewrite ?Hs; reflexivity
                       | cbn; rewrite ?Hs; reflexivity]).
  - exists []. split; reflexivity.
Qed.

End Driver.

(** ** The build stage *)

Section Building.
Import Harness HarnessSpec.
Context {codec : Codec}.
Variables (E : env) (self : harness).

(** *** A failed build is a logged build *)

Lemma quiet_no_failure A (m : M state A) s :
  emits no_build_failure m -> existsb is_build_failure (snd (m s)) = false.
Proof.
  intros Hm. specialize (Hm s). destruct (existsb _ _) eqn:Hex; [|reflexivity].
  apply existsb_exists in Hex. destruct Hex as (a & Hin & Ha).
  rewrite forallb_forall in Hm. specialize (Hm a Hin).
  unfold no_build_failure in Hm. rewrite Ha in Hm. discriminate.
Qed.

Lemma flags_after_quiet A (m : M state A) (k : A -> M state bool) :
  emits no_build_failure m -> (forall a, flags_failure (k a)) -> flags_failure (bind m k).
Proof.
  intros Hm Hk s. unfold bind. pose proof (quiet_no_failure s Hm) as Hq.
  destruct (m s) as [[[a|e|] s1] t1]; cbn in Hq; try assumption.
  specialize (Hk a s1). destruct (k a s1) as [[[b|e|] s2] t2];
    rewrite existsb_app, Hq; assumption.
Qed.

Lemma flags_then (m : M state bool) (k : M state bool) :
  flags_failure m -> flags_failure k ->
  flags_failure (ok <- m ;; if negb ok then ret false else k).
Proof.
  intros Hm Hk s. unfold bind. specialize (Hm s).
  destruct (m s) as [[[[|]|e|] s1] t1]; cbn [negb] in *; try assumption.
  - specialize (Hk s1). destruct (k s1) as [[[b|e|] s2] t2];
      rewrite existsb_app, Hm; assumption.
  - cbn. rewrite existsb_app, Hm. reflexivity.
Qed.

Lemma flags_run_cmake src build : flags_failure (run_cmake E self src build).
Proof.
  intros s. unfold run_cmake, run_cmd, bind, log, print, emit, ret, raise.
  destruct (cmake E src _) as [c1|msg]; [|reflexivity].
  destruct (returncode c1 =? 0)%Z; [|reflexivity]. cbn [negb].
  destruct (cmake E src _) as [c2|msg]; [|reflexivity].
  destruct (returncode c2 =? 0)%Z; reflexivity.
Qed.

Lemma flags_build_cli : flags_failure (build_cli E self).
Proof.
  intros s. unfold build_cli, run_cmd, bind, log, print, emit, ret, raise.
  destruct (cmake E (cli_dir self) _) as [c1|msg]; [|reflexivity].
  destruct (returncode c1 =? 0)%Z; [|reflexivity]. cbn [negb].
  destruct (cmake E (cli_dir self) _) as [c2|msg]; [|reflexivity].
  destruct (returncode c2 =? 0)%Z; reflexivity.
Qed.

Lemma quiet_copy_all files dest : emits no_build_failure (copy_all E files dest).
Proof. induction files as [|f rest IH]; simpl; steps. Qed.

Lemma flags_build_all : flags_failure (build_all E self).
Proof.
  unfold build_all. destruct (skip_build self); [intros s; reflexivity|].
  apply flags_then; [apply flags_run_cmake|].
  repeat (apply flags_after_quiet; [apply quiet_copy_all|intros _]).
  apply flags_then; [apply flags_run_cmake|].
  intros s. pose proof (flags_build_cli s) as H. unfold bind.
  destruct (build_cli E self s) as [[[[|]|e|] s1] t1]; cbn; rewrite ?app_nil_r; assumption.
Qed.

(** [build_all]: what the later stages need to know. *)
Lemma build_all_spec s :
  exists r t,
    build_all E self s = (r, s, t) /\ r <> Diverge /\ forallb build_action t = true /\
    match r with
    | Ret b => existsb is_build_failure t = negb b
    | _ => True
    end.
Proof.
  pose proof (@safe_build_all E self (eq s) s eq_refl) as [Hs Hr].
  pose proof (emits_build_all E self s) as He.
  pose proof (flags_build_all s) as Hf.
  destruct (build_all E self s) as [[r s'] t]. cbn in *. subst s'.
  exists r, t. repeat split; try assumption. destruct r; auto.
Qed.

End Building.

(** ** The test stages and their reports *)

Section Reporting.
Import Harness HarnessSpec.
Context {codec : Codec}.
Variables (E : env) (self : harness).

Lemma failures_app t1 t2 : failures (t1 ++ t2) = (failures t1 + failures t2)%nat.
Proof. unfold failures. rewrite filter_app, length_app. reflexivity. Qed.

Lemma failures_none t : failures t = 0%nat <-> existsb is_case_failure t = false.
Proof.
  unfold failures. induction t as [|a t IH]; simpl; [tauto|].
  destruct (is_case_failure a); simpl; [split; discriminate|exact IH].
Qed.

(** Actions of one kind are not of another. *)
Lemma kind_excludes (K F : action -> bool) t :
  (forall a, K a = true -> F a = false) -> forallb K t = true -> existsb F t = false.
Proof.
  intros HKF HK. induction t as [|a t IH]; simpl in *; [reflexivity|].
  apply andb_prop in HK as [Ha Ht]. rewrite (HKF a Ha), (IH Ht). reflexivity.
Qed.

Lemma kind_failures (K : action -> bool) t :
  (forall a, K a = true -> is_case_failure a = false) -> forallb K t = true ->
  failures t = 0%nat.
Proof. intros HKF HK. apply failures_none. eapply kind_excludes; eassumption. Qed.

Lemma print_result_spec r s :
  exists t, print_result r s = (Ret tt, s, t) /\
            failures t = if Py.truthy (tr_passed r) then 0%nat else 1%nat.
Proof.
  destruct r as [name passed sql err out rc].
  cbv beta iota zeta delta [print_result bind print emit ret when
                            tr_passed tr_name tr_sql tr_error tr_output].
  destruct (Py.truthy passed); cbn [negb].
  - eexists. split; reflexivity.
  - destruct sql as [sql|]; [destruct (nonempty sql)|];
      (destruct err as [err|]; [destruct (Py.truthy err)|]);
      (destruct out as [out|]; [destruct (nonempty out)|]);
      (eexists; split; reflexivity).
Qed.

Lemma print_each_spec results : forall p f s,
  exists p' t, print_each results p f s = (Ret (p', (f + failures t)%nat), s, t).
Proof.
  induction results as [|r rest IH]; intros p f s; cbn [print_each].
  - exists p, []. cbn. rewrite Nat.add_0_r. reflexivity.
  - unfold bind at 1. destruct (print_result_spec r s) as (t1 & -> & Hf).
    destruct (Py.truthy (tr_passed r)).
    + destruct (IH (p + 1)%nat f s) as (p' & t2 & ->).
      exists p', (t1 ++ t2). rewrite failures_app, Hf. reflexivity.
    + destruct (IH p (f + 1)%nat s) as (p' & t2 & ->).
      exists p', (t1 ++ t2). rewrite failures_app, Hf.
      replace (f + (1 + failures t2))%nat with (f + 1 + failures t2)%nat by lia.
      reflexivity.
Qed.

(** [print_results] returns the number of cases it reports as failed. *)
Lemma print_results_spec results title s :
  exists p t,
    print_results results title s = (Ret (p, failures t), s, t) /\
    forallb report_action t = true.
Proof.
  pose proof (emits_print_results results title s) as He.
  unfold print_results in *.
  cbv beta iota delta [bind print emit ret] in *.
  destruct (print_each_spec results 0 0 s) as (p & t & Hrun).
  rewrite Hrun in *. cbn [fst snd] in *.
  exists p, ([APrint LBlank] ++ [APrint LRule] ++ [APrint (LTitle title)] ++ [APrint LRule]
             ++ t ++ [APrint LBlank] ++ [APrint (LSubtotal p (failures t))] ++ []).
  split; [|exact He].
  rewrite !failures_app. cbn. rewrite Nat.add_0_r. reflexivity.
Qed.

Lemma run_cli_local_tests_spec s :
  exists r t,
    run_cli_local_tests E self s = (r, s, t) /\ r <> Diverge /\
    forallb cli_action t = true.
Proof.
  pose proof (@safe_run_local_tests E self (eq s) _ local_checks_return s eq_refl) as [Hs Hr].
  pose proof (emits_run_local_tests E self define_cli_local_tests s) as He.
  unfold run_cli_local_tests.
  destruct (run_local_tests E self define_cli_local_tests s) as [[r s'] t].
  cbn in *. subst s'. eauto.
Qed.

Lemma run_remote_tests_spec s :
  exists r t,
    run_remote_tests E s = (r, s, t) /\ r <> Diverge /\ forallb net_action t = true.
Proof.
  pose proof (@safe_run_remote_tests _ E (eq s) s eq_refl) as [Hs Hr].
  pose proof (emits_run_remote_tests E s) as He.
  destruct (run_remote_tests E s) as [[r s'] t]. cbn in *. subst s'. eauto.
Qed.

End Reporting.

(** ** The body of [run], stage by stage *)

(** Marks of one stage do not show under the actions of another. *)
Ltac by_cases :=
  let a := fresh "a" in
  intros a; destruct a; cbn; try (intros; reflexivity || discriminate);
  repeat match goal with
         | |- context [match ?x with _ => _ end] =>
             destruct x; cbn; try (intros; reflexivity || discriminate)
         end.

Section Body.
Import Harness HarnessSpec.
Context {codec : Codec}.
Variables (E : env) (self : harness).

Lemma forallb_weaken (K K' : action -> bool) t :
  (forall a, K a = true -> K' a = true) -> forallb K t = true -> forallb K' t = true.
Proof. intros Hsub H. rewrite forallb_forall in *. auto. Qed.

Lemma cli_is_local a : cli_action a = true -> local_action a = true.
Proof. unfold local_action. intros ->. reflexivity. Qed.

Lemma report_is_local a : report_action a = true -> local_action a = true.
Proof. unfold local_action. intros ->. apply orb_true_r. Qed.

Lemma net_is_remote a : net_action a = true -> remote_action a = true.
Proof. unfold remote_action. intros ->. reflexivity. Qed.

Lemma report_is_remote a : report_action a = true -> remote_action a = true.
Proof. unfold remote_action. intros ->. apply orb_true_r. Qed.

Lemma cli_no_case_failure a : cli_action a = true -> is_case_failure a = false.
Proof. revert a. by_cases. Qed.

Lemma net_no_case_failure a : net_action a = true -> is_case_failure a = false.
Proof. revert a. by_cases. Qed.

Lemma run_body_paths s :
  clean s ->
  exists r s1 tb tl ts tr,
    run_body E self s = (r, s1, tb ++ tl ++ ts ++ tr) /\
    forallb build_action tb = true /\ forallb local_action tl = true /\
    forallb start_action ts = true /\ forallb remote_action tr = true /\
    body_path E s r s1 tb tl ts tr.
Proof.
  intros Hclean.
  destruct (build_all_spec E self s) as (rb & tb & Hb & Hbr & Hbk & Hbf).
  unfold run_body. cbv zeta. unfold bind at 1. rewrite Hb.
  destruct rb as [[|]|e|]; try congruence; cbn [negb] in *.
  2:{ exists (Ret 2%Z), s, tb, [], [], []. cbn. rewrite !app_nil_r.
      repeat split; auto. constructor. assumption. }
  2:{ exists (Raise e), s, tb, [], [], []. cbn. rewrite !app_nil_r.
      repeat split; auto. constructor. }
  (* the local-mode cases *)
  destruct (run_cli_local_tests_spec E self s) as (rl & tl1 & Hl & Hlr & Hlk).
  unfold bind at 1. rewrite Hl. destruct rl as [lr|e|]; try congruence.
  2:{ exists (Raise e), s, tb, tl1, [], []. cbn. rewrite !app_nil_r.
      repeat split; auto.
      - eapply forallb_weaken; [apply cli_is_local|exact Hlk].
      - constructor. assumption. }
  destruct (print_results_spec lr "CLI LOCAL MODE TESTS (Modes 1 & 2)" s)
    as (p1 & tl2 & Hp1 & Hk1).
  unfold bind at 1. rewrite Hp1. cbn [fst snd].
  assert (Hlocal : forallb local_action (tl1 ++ tl2) = true).
  { rewrite forallb_app. apply andb_true_intro. split.
    - eapply forallb_weaken; [apply cli_is_local|exact Hlk].
    - eapply forallb_weaken; [apply report_is_local|exact Hk1]. }
  (* the driver *)
  pose proof (emits_start_driver E self s) as Hsk.
  destruct (start_driver_spec E self Hclean)
    as [(ts & Hs & Hready & Hfail & Hlaunch)
       |[(e & ts & Hs & Hpf & Hready)
        |(b & s1 & ts & p & Hs & Hpf & Hc & Hp & Hready & Hfail & Hout)]];
    unfold bind at 1; rewrite Hs in *; cbn [fst snd] in Hsk.
  { exists (Ret 3%Z), s, tb, (tl1 ++ tl2), ts, []. cbn [negb ret].
    rewrite !app_nil_r, <- !app_assoc. repeat split; auto.
    apply driver_missing; assumption. }
  { exists (Raise e), s, tb, (tl1 ++ tl2), ts, [].
    rewrite !app_nil_r, <- !app_assoc. repeat split; auto.
    apply launch_raised; assumption. }
  destruct b; cbn [negb ret] in *.
  2:{ exists (Ret 3%Z), s1, tb, (tl1 ++ tl2), ts, [].
      rewrite !app_nil_r, <- !app_assoc. repeat split; auto.
      eapply not_ready; try eassumption. tauto. }
  assert (Hunread : p_unread p = server_output E).
  { destruct Hout as [H|[H _]]; [assumption|discriminate]. }
  (* the remote-mode cases *)
  destruct (run_remote_tests_spec E s1) as (rr & tr1 & Hr & Hrr & Hrk).
  unfold bind at 1. rewrite Hr. destruct rr as [rres|e|]; try congruence.
  2:{ exists (Raise e), s1, tb, (tl1 ++ tl2), ts, tr1.
      rewrite <- !app_assoc. repeat split; auto.
      - eapply forallb_weaken; [apply net_is_remote|exact Hrk].
      - eapply remote_raised; eassumption. }
  destruct (print_results_spec rres "CLI REMOTE MODE TESTS (Mode 3)" s1)
    as (p2 & tr2 & Hp2 & Hk2).
  unfold bind at 1. rewrite Hp2. cbn [fst snd].
  set (totals := [APrint LBlank; APrint LRule; APrint (LTitle "GRAND TOTAL"); APrint LRule;
                  APrint (LTotal (0 + p1 + p2) (0 + failures tl2 + failures tr2));
                  APrint LRule]).
  assert (Hfail_count : failures ((tl1 ++ tl2) ++ tr1 ++ tr2 ++ totals)
                        = (0 + failures tl2 + failures tr2)%nat).
  { assert (H1 : failures tl1 = 0%nat)
      by (eapply kind_failures; [apply cli_no_case_failure|exact Hlk]).
    assert (H2 : failures tr1 = 0%nat)
      by (eapply kind_failures; [apply net_no_case_failure|exact Hrk]).
    rewrite !failures_app, H1, H2. cbn. lia. }
  exists (Ret (if (failures ((tl1 ++ tl2) ++ tr1 ++ tr2 ++ totals) =? 0)%nat
               then 0%Z else 1%Z)), s1, tb, (tl1 ++ tl2), ts, (tr1 ++ tr2 ++ totals).
  split.
  { rewrite Hfail_count. cbv beta iota delta [bind print emit ret]. cbn [app].
    rewrite <- !app_assoc. reflexivity. }
  repeat split; auto.
  - rewrite !forallb_app. apply andb_true_intro. split.
    + eapply forallb_weaken; [apply net_is_remote|exact Hrk].
    + apply andb_true_intro. split; [|reflexivity].
      eapply forallb_weaken; [apply report_is_remote|exact Hk2].
  - eapply completed; eassumption.
Qed.

End Body.

(** ** Which marks each stage can leave *)

Section Marks.
Import Harness HarnessSpec.

Lemma build_marks a :
  build_action a = true ->
  is_ready a = false /\ is_start_failure a = false /\ is_case_failure a = false /\
  is_local_case a = false /\ is_remote_case a = false /\ is_launch a = false /\
  is_teardown a = false.
Proof. revert a. by_cases; intros; repeat split. Qed.

Lemma local_marks a :
  local_action a = true ->
  is_build_failure a = false /\ is_ready a = false /\ is_start_failure a = false /\
  is_remote_case a = false /\ is_launch a = false /\ is_teardown a = false.
Proof. unfold local_action. revert a. by_cases; intros; repeat split. Qed.

Lemma start_marks a :
  start_action a = true ->
  is_build_failure a = false /\ is_case_failure a = false /\
  is_local_case a = false /\ is_remote_case a = false /\ is_teardown a = false.
Proof. revert a. by_cases; intros; repeat split. Qed.

Lemma remote_marks a :
  remote_action a = true ->
  is_build_failure a = false /\ is_ready a = false /\ is_start_failure a = false /\
  is_local_case a = false /\ is_launch a = false /\ is_teardown a = false.
Proof. unfold remote_action. revert a. by_cases; intros; repeat split. Qed.

Lemma stop_marks a :
  stop_action a = true ->
  is_build_failure a = false /\ is_ready a = false /\ is_start_failure a = false /\
  is_case_failure a = false /\ is_local_case a = false /\ is_remote_case a = false /\
  is_launch a = false.
Proof. revert a. by_cases; intros; repeat split. Qed.

(** [no F K]: no action of the kind [K] bears the mark [F]. *)
Lemma no_mark (K F : action -> bool) t :
  forallb K t = true -> (forall a, K a = true -> F a = false) -> existsb F t = false.
Proof. intros HK HF. eapply kind_excludes; eassumption. Qed.

End Marks.

(** ** The whole run *)

Section Run.
Import Harness HarnessSpec.
Context {codec : Codec}.
Variables (E : env) (self : harness).

(** Where the marks of a whole run come from. *)
Lemma marks_of_run tb tl ts tr t2 :
  forallb build_action tb = true -> forallb local_action tl = true ->
  forallb start_action ts = true -> forallb remote_action tr = true ->
  forallb stop_action t2 = true ->
  existsb is_build_failure (tb ++ tl ++ ts ++ tr ++ t2) = existsb is_build_failure tb /\
  existsb is_ready (tb ++ tl ++ ts ++ tr ++ t2) = existsb is_ready ts /\
  existsb is_start_failure (tb ++ tl ++ ts ++ tr ++ t2) = existsb is_start_failure ts /\
  existsb is_launch (tb ++ tl ++ ts ++ tr ++ t2) = existsb is_launch ts /\
  existsb is_case_failure (tb ++ tl ++ ts ++ tr ++ t2) = existsb is_case_failure (tl ++ tr).
Proof.
  intros Hb Hl Hs Hr Ht. rewrite !existsb_app.
  rewrite (@no_mark build_action is_ready tb Hb), (@no_mark build_action is_start_failure tb Hb),
    (@no_mark build_action is_case_failure tb Hb), (@no_mark build_action is_launch tb Hb)
    by (intros a Ha; apply (build_marks a Ha)).
  rewrite (@no_mark local_action is_build_failure tl Hl), (@no_mark local_action is_ready tl Hl),
    (@no_mark local_action is_start_failure tl Hl), (@no_mark local_action is_launch tl Hl)
    by (intros a Ha; apply (local_marks a Ha)).
  rewrite (@no_mark start_action is_build_failure ts Hs), (@no_mark start_action is_case_failure ts Hs)
    by (intros a Ha; apply (start_marks a Ha)).
  rewrite (@no_mark remote_action is_build_failure tr Hr), (@no_mark remote_action is_ready tr Hr),
    (@no_mark remote_action is_start_failure tr Hr), (@no_mark remote_action is_launch tr Hr)
    by (intros a Ha; apply (remote_marks a Ha)).
  rewrite (@no_mark stop_action is_build_failure t2 Ht), (@no_mark stop_action is_ready t2 Ht),
    (@no_mark stop_action is_start_failure t2 Ht), (@no_mark stop_action is_launch t2 Ht), (@no_mark stop_action is_case_failure t2 Ht)
    by (intros a Ha; apply (stop_marks a Ha)).
  rewrite !orb_false_r. cbn [orb]. auto.
Qed.

(** [run] is its body followed, on every way out of it, by [stop_driver]. *)
Lemma run_unfolds s :
  clean s ->
  exists r s1 tb tl ts tr t2,
    run_body E self s = (r, s1, tb ++ tl ++ ts ++ tr) /\
    stop_driver s1 = (Ret tt, mkState None (now s1) 0, t2) /\
    run E self s = (r, mkState None (now s1) 0, tb ++ tl ++ ts ++ tr ++ t2) /\
    forallb build_action tb = true /\ forallb local_action tl = true /\
    forallb start_action ts = true /\ forallb remote_action tr = true /\
    forallb stop_action t2 = true /\
    body_path E s r s1 tb tl ts tr /\ consistent s1 /\ r <> Diverge /\
    match driver_process s1 with
    | None => t2 = []
    | Some p =>
        t2 = [APrint (LHarness Stopping); ATerminate; AWait (Some 5000%Z)]
             ++ (if p_alive p && negb (p_graceful p) then [AKill; AWait None] else [])
             ++ [AReadOutput (p_unread p)]
             ++ (if Py.strip_nonempty (p_unread p)
                 then [APrint (LDriverOutput (p_unread p))] else [])
    end.
Proof.
  intros Hclean.
  destruct (run_body_paths E self Hclean)
    as (r & s1 & tb & tl & ts & tr & Hbody & Hb & Hl & Hs & Hr & Hpath).
  assert (Hc : consistent s1 /\ r <> Diverge).
  { destruct Hclean as [Hd Hn].
    destruct Hpath; (split; [|try discriminate; destruct (_ =? _)%nat; discriminate]);
      try assumption; unfold consistent; rewrite Hd; assumption. }
  destruct Hc as [Hc Hdiv].
  destruct (@stop_driver_spec s1 Hc) as (t2 & Hstop & Hshape).
  pose proof (emits_stop_driver s1) as Ht. rewrite Hstop in Ht. cbn in Ht.
  exists r, s1, tb, tl, ts, tr, t2.
  repeat split; try assumption.
  unfold run, try_finally. rewrite Hbody, Hstop.
  destruct r; try congruence; rewrite <- !app_assoc; reflexivity.
Qed.

(** C7. On every way out of the run (a returned exit code, whichever it is,
    or an exception raised anywhere in the body) [stop_driver] is executed
    after the body, and it returns; the harness then holds no process and no
    launched server is alive.  When a server was launched, the teardown
    begins with [terminate] and a bounded [wait]. *)
Theorem driver_stopped_on_every_route (s : state) (Hclean : clean s) :
  exists r s1 t1 s' t2,
    run_body E self s = (r, s1, t1) /\
    stop_driver s1 = (Ret tt, s', t2) /\
    run E self s = (r, s', t1 ++ t2) /\
    r <> Diverge /\
    driver_process s' = None /\ running s' = 0%nat /\
    (popen_fault E = None -> existsb is_launch t1 = true ->
     exists rest, t2 = APrint (LHarness Stopping) :: ATerminate :: AWait (Some 5000%Z) :: rest).
Proof.
  destruct (run_unfolds Hclean)
    as (r & s1 & tb & tl & ts & tr & t2 & Hbody & Hstop & Hrun & Hb & Hl & Hs & Hr & Ht
        & Hpath & Hc & Hdiv & Hshape).
  exists r, s1, (tb ++ tl ++ ts ++ tr), (mkState None (now s1) 0), t2.
  split; [assumption|]. split; [assumption|].
  split; [rewrite <- !app_assoc; assumption|].
  repeat split; try assumption.
  intros Hpf Hlaunch.
  rewrite !existsb_app in Hlaunch.
  rewrite (@no_mark build_action is_launch tb Hb) in Hlaunch
    by (intros a Ha; apply (build_marks a Ha)).
  rewrite (@no_mark local_action is_launch tl Hl) in Hlaunch
    by (intros a Ha; apply (local_marks a Ha)).
  rewrite (@no_mark remote_action is_launch tr Hr) in Hlaunch
    by (intros a Ha; apply (remote_marks a Ha)).
  rewrite orb_false_r in Hlaunch. cbn [orb] in Hlaunch.
  destruct Hpath;
    try (cbn in Hlaunch; discriminate); try congruence;
    match goal with
    | Hp : driver_process _ = Some _ |- _ => rewrite Hp in Hshape; rewrite Hshape
    end; cbn [app]; eauto.
Qed.

End Run.

(** ** The run order *)

Section Order.
Import Harness HarnessSpec.
Context {codec : Codec}.
Variables (E : env) (self : harness).

(** A stretch of trace whose local-mode cases come before any launch and
    whose remote-mode cases come after readiness and before teardown passes
    the check, and hands over what it has seen. *)
Lemma ordered_app t : forall launched ready torn u,
  (existsb is_local_case t = true ->
   launched = false /\ ready = false /\
   existsb is_launch t = false /\ existsb is_ready t = false) ->
  (existsb is_remote_case t = true ->
   ready = true /\ torn = false /\ existsb is_teardown t = false) ->
  ordered launched ready torn (t ++ u) =
  ordered (launched || existsb is_launch t) (ready || existsb is_ready t)
          (torn || existsb is_teardown t) u.
Proof.
  induction t as [|a t IH]; intros launched ready torn u Hlocal Hremote.
  - cbn. rewrite !orb_false_r. reflexivity.
  - cbn [app ordered existsb] in *.
    rewrite IH.
    + rewrite !orb_assoc.
      destruct (is_local_case a) eqn:Hla.
      * destruct (Hlocal eq_refl) as (-> & -> & _ & _).
        destruct (is_remote_case a) eqn:Hra; [|reflexivity].
        destruct (Hremote eq_refl) as (H & _). discriminate.
      * destruct (is_remote_case a) eqn:Hra; [|reflexivity].
        destruct (Hremote eq_refl) as (-> & -> & _). reflexivity.
    + intros Ht. rewrite Ht, orb_true_r in Hlocal.
      destruct (Hlocal eq_refl) as (-> & -> & H1 & H2).
      apply orb_false_elim in H1 as [-> H1]. apply orb_false_elim in H2 as [-> H2]. auto.
    + intros Ht. rewrite Ht, orb_true_r in Hremote.
      destruct (Hremote eq_refl) as (-> & -> & H1).
      apply orb_false_elim in H1 as [-> H1]. auto.
Qed.

Lemma fresh_clean t0 : clean (fresh t0).
Proof. split; reflexivity. Qed.

Lemma vacuous (b : bool) (P : Prop) : b = false -> b = true -> P.
Proof. intros -> H. discriminate. Qed.

(** C6. In the trace of every run of a harness just made, whatever the
    outcome, each local-mode case comes while no server has been launched or
    reported ready, and each remote-mode case comes after the probe has
    reported the server ready and before any step of its teardown. *)
Theorem run_order_kept (t0 : Z) :
  ordered false false false (snd (run E self (fresh t0))) = true.
Proof.
  destruct (run_unfolds E self (fresh_clean t0))
    as (r & s1 & tb & tl & ts & tr & t2 & Hbody & Hstop & Hrun & Hb & Hl & Hs & Hr & Ht
        & Hpath & Hc & Hdiv & Hshape).
  rewrite Hrun. cbn [snd].
  assert (Hremote : existsb is_remote_case tr = true -> existsb is_ready ts = true).
  { intros Hex. destruct Hpath; try assumption; discriminate. }
  pose proof (fun F H => @no_mark build_action F tb Hb H) as Nb.
  pose proof (fun F H => @no_mark local_action F tl Hl H) as Nl.
  pose proof (fun F H => @no_mark start_action F ts Hs H) as Ns.
  pose proof (fun F H => @no_mark remote_action F tr Hr H) as Nr.
  pose proof (fun F H => @no_mark stop_action F t2 Ht H) as Nt.
  assert (Hb1 : existsb is_local_case tb = false) by (apply Nb; intros a Ha; apply (build_marks a Ha)).
  assert (Hb2 : existsb is_remote_case tb = false) by (apply Nb; intros a Ha; apply (build_marks a Ha)).
  assert (Hb3 : existsb is_launch tb = false) by (apply Nb; intros a Ha; apply (build_marks a Ha)).
  assert (Hb4 : existsb is_ready tb = false) by (apply Nb; intros a Ha; apply (build_marks a Ha)).
  assert (Hb5 : existsb is_teardown tb = false) by (apply Nb; intros a Ha; apply (build_marks a Ha)).
  assert (Hl2 : existsb is_remote_case tl = false) by (apply Nl; intros a Ha; apply (local_marks a Ha)).
  assert (Hl3 : existsb is_launch tl = false) by (apply Nl; intros a Ha; apply (local_marks a Ha)).
  assert (Hl4 : existsb is_ready tl = false) by (apply Nl; intros a Ha; apply (local_marks a Ha)).
  assert (Hl5 : existsb is_teardown tl = false) by (apply Nl; intros a Ha; apply (local_marks a Ha)).
  assert (Hs1 : existsb is_local_case ts = false) by (apply Ns; intros a Ha; apply (start_marks a Ha)).
  assert (Hs2 : existsb is_remote_case ts = false) by (apply Ns; intros a Ha; apply (start_marks a Ha)).
  assert (Hs5 : existsb is_teardown ts = false) by (apply Ns; intros a Ha; apply (start_marks a Ha)).
  assert (Hr1 : existsb is_local_case tr = false) by (apply Nr; intros a Ha; apply (remote_marks a Ha)).
  assert (Hr5 : existsb is_teardown tr = false) by (apply Nr; intros a Ha; apply (remote_marks a Ha)).
  assert (Ht1 : existsb is_local_case t2 = false) by (apply Nt; intros a Ha; apply (stop_marks a Ha)).
  assert (Ht2 : existsb is_remote_case t2 = false) by (apply Nt; intros a Ha; apply (stop_marks a Ha)).
  rewrite ordered_app by (apply vacuous; assumption).
  rewrite Hb3, Hb4, Hb5. cbn [orb].
  rewrite ordered_app; [|auto|apply vacuous; assumption].
  rewrite Hl3, Hl4, Hl5. cbn [orb].
  rewrite ordered_app by (apply vacuous; assumption).
  rewrite Hs5. cbn [orb].
  rewrite ordered_app; [|apply vacuous; assumption|auto].
  rewrite Hr5. cbn [orb].
  rewrite <- (app_nil_r t2), ordered_app by (apply vacuous; assumption).
  reflexivity.
Qed.

End Order.

(** ** Exit codes *)

Section ExitCodes.
Import Harness HarnessSpec.
Context {codec : Codec}.
Variables (E : env) (self : harness).

Lemma failures_some t : (failures t =? 0)%nat = negb (existsb is_case_failure t).
Proof.
  destruct (existsb is_case_failure t) eqn:Hex; cbn.
  - apply Nat.eqb_neq. intros H. apply failures_none in H. congruence.
  - apply Nat.eqb_eq. apply failures_none. assumption.
Qed.

(** C4, as the code has it.  When the run of a harness just made returns,
    its exit code is 2 exactly when a build step has failed; 3 exactly when
    [start_driver] has given up (driver missing, server dead, or deadline
    passed), also when local-mode cases had failed before; 0 exactly when
    the server has been reported ready and no case is reported failed; 1
    exactly when the server has been reported ready and some case is
    reported failed.  The four outcomes exclude one another, and no other
    code is returned. *)
Theorem exit_code_meaning (t0 : Z) (code : Z) (s' : state) (t : trace)
  (Hrun : run E self (fresh t0) = (Ret code, s', t)) :
  (code = 2%Z <-> existsb is_build_failure t = true) /\
  (code = 3%Z <-> existsb is_start_failure t = true) /\
  (code = 0%Z <-> existsb is_ready t = true /\ existsb is_case_failure t = false) /\
  (code = 1%Z <-> existsb is_ready t = true /\ existsb is_case_failure t = true) /\
  (code = 0 \/ code = 1 \/ code = 2 \/ code = 3)%Z /\
  (existsb is_build_failure t && existsb is_start_failure t = false) /\
  (existsb is_build_failure t && existsb is_ready t = false) /\
  (existsb is_start_failure t && existsb is_ready t = false).
Proof.
  destruct (run_unfolds E self (fresh_clean t0))
    as (r & s1 & tb & tl & ts & tr & t2 & Hbody & Hstop & Hrun' & Hb & Hl & Hs & Hr & Ht
        & Hpath & Hc & Hdiv & Hshape).
  rewrite Hrun' in Hrun. injection Hrun as Hr0 Hs0 Ht0. subst r s' t.
  destruct (marks_of_run tb tl ts tr t2 Hb Hl Hs Hr Ht) as (-> & -> & -> & _ & ->).
  remember (Ret code) as rc eqn:Hrc.
  destruct Hpath; try discriminate; injection Hrc as <-;
    repeat match goal with H : existsb _ _ = _ |- _ => rewrite H end;
    cbn [existsb app andb].
  - (* the build failed *)
    repeat split; intros; try discriminate; try tauto; try lia; intuition discriminate.
  - (* no driver *)
    repeat split; intros; try discriminate; try tauto; try lia; intuition discriminate.
  - (* the server did not become ready *)
    repeat split; intros; try discriminate; try tauto; try lia; intuition discriminate.
  - (* all stages ran *)
    rewrite failures_some.
    destruct (existsb is_case_failure (tl ++ tr)); cbn [negb];
      repeat split; intros; try discriminate; try tauto; try lia; intuition discriminate.
Qed.

End ExitCodes.

(** ** The output of the driver *)

Section DriverOutput.
Import Harness HarnessSpec.
Context {codec : Codec}.
Variables (E : env) (self : harness).

(** C8, as the code has it.  Whenever a run has launched the server and the
    server has written something that is not blank, that output is
    surfaced: logged by the probe with the failure when the process is
    found dead, or printed by [stop_driver] under [driver output].  This
    holds on the failure paths and on the successful run alike: a run that
    ends with exit code 0 or 1 has printed the output of the driver. *)
Theorem driver_output_surfaced (t0 : Z)
  (Hpopen : popen_fault E = None)
  (Hout : Py.strip_nonempty (server_output E) = true)
  (Hlaunch : existsb is_launch (snd (run E self (fresh t0))) = true) :
  (In (APrint (LDriverOutput (server_output E))) (snd (run E self (fresh t0))) \/
   In (APrint (LHarness (DriverExited (server_output E)))) (snd (run E self (fresh t0)))) /\
  (forall code,
     fst (fst (run E self (fresh t0))) = Ret code -> (code = 0 \/ code = 1)%Z ->
     In (APrint (LDriverOutput (server_output E))) (snd (run E self (fresh t0)))).
Proof.
  destruct (run_unfolds E self (fresh_clean t0))
    as (r & s1 & tb & tl & ts & tr & t2 & Hbody & Hstop & Hrun & Hb & Hl & Hs & Hr & Ht
        & Hpath & Hc & Hdiv & Hshape).
  rewrite Hrun in *. cbn [fst snd] in *.
  destruct (marks_of_run tb tl ts tr t2 Hb Hl Hs Hr Ht) as (_ & _ & _ & Hmark & _).
  rewrite Hmark in Hlaunch. clear Hmark.
  assert (Hprinted : forall p, driver_process s1 = Some p -> p_unread p = server_output E ->
            In (APrint (LDriverOutput (server_output E))) (tb ++ tl ++ ts ++ tr ++ t2)).
  { intros p Hp Hu. rewrite Hp in Hshape. rewrite Hu, Hout in Hshape. subst t2.
    rewrite !in_app_iff. do 4 right. do 3 right. left. reflexivity. }
  destruct Hpath; try (cbn in Hlaunch; discriminate); try congruence.
  - (* the server did not become ready *)
    split; [|intros code Hcode [->| ->]; discriminate].
    match goal with H : _ \/ _ |- _ => destruct H as [Hu|Hin] end.
    + left. eapply Hprinted; eassumption.
    + right. rewrite !in_app_iff. auto.
  - (* an exception in the remote stage *)
    split; [left; eapply Hprinted; eassumption|]. intros code Hcode. discriminate.
  - (* all stages ran *)
    split; [left|intros code _ _]; eapply Hprinted; eassumption.
Qed.

End DriverOutput.

(** ** A server that dies while it is probed *)

Section DyingServer.
Import Harness HarnessSpec.
Context {codec : Codec}.
Variables (E : env) (self : harness).

Lemma elapsed_lower k : forall i, (PROBE_SLEEP * Z.of_nat k <= elapsed_from E i k)%Z.
Proof.
  induction k as [|k IH]; intros i; [reflexivity|].
  cbn [elapsed_from]. specialize (IH (S i)). unfold PROBE_SLEEP in *. lia.
Qed.

Lemma advance_advance a b s : advance b (advance a s) = advance (a + b) s.
Proof. unfold advance. cbn. f_equal. lia. Qed.

Lemma advance_0 s : advance 0 s = s.
Proof. destruct s. unfold advance. cbn. f_equal. lia. Qed.

(** The probe, from its turn [i] on: [k] turns find the process alive and
    the connection refused, the next one finds the process dead. *)
Lemma probe_sees_exit k : forall fuel i start s p,
  driver_process s = Some p -> p_alive p = true ->
  (k < fuel)%nat ->
  (forall j, (j < k)%nat ->
     tick_exited E (i + j) = false /\ accepted (tick_dial E (i + j)) = false) ->
  tick_exited E (i + k) = true ->
  (now s - start + elapsed_from E i k < PROBE_TIMEOUT)%Z ->
  probe E fuel i start s =
    (Ret false, drained (exit_process (advance (elapsed_from E i k) s)),
     refused_turns k ++
     [APoll; AReadOutput (p_unread p); APrint (LHarness (DriverExited (p_unread p)))]).
Proof.
  induction k as [|k IH]; intros fuel i start s p Hp Halive Hfuel Hturns Hexit Htime;
    (destruct fuel as [|fuel]; [lia|]); rewrite (probe_step E fuel i start s Hp).
  - cbn [elapsed_from] in *. rewrite Nat.add_0_r in Hexit.
    assert (Htest : (now s - start <? PROBE_TIMEOUT)%Z = true) by (apply Z.ltb_lt; lia).
    rewrite Htest, Hexit, orb_true_r, advance_0. reflexivity.
  - cbn [elapsed_from] in Htime.
    pose proof (elapsed_lower k (S i)) as Hlow.
    assert (Htest : (now s - start <? PROBE_TIMEOUT)%Z = true).
    { apply Z.ltb_lt. unfold PROBE_SLEEP in *. lia. }
    destruct (Hturns 0%nat) as [Hnot Hrefused]; [lia|].
    rewrite Nat.add_0_r in Hnot, Hrefused.
    rewrite Htest, Halive, Hnot, Hrefused. cbn [negb orb].
    rewrite (IH fuel (S i) start
               (advance PROBE_SLEEP (advance (Z.of_N (tick_connect_ms E i)) s)) p).
    + rewrite !advance_advance. cbn [elapsed_from refused_turns].
      rewrite <- !app_assoc. cbn [app].
      rewrite Z.add_assoc.
      unfold probe_connect. cbn [app]. reflexivity.
    + exact Hp.
    + exact Halive.
    + lia.
    + intros j Hj. specialize (Hturns (S j)). rewrite Nat.add_succ_r in Hturns.
      apply Hturns. lia.
    + rewrite Nat.add_succ_r in Hexit. exact Hexit.
    + unfold advance. cbn [now]. lia.
Qed.

(** C9. When the server process is found dead at turn [k] of the readiness
    probe, the [k] turns before having found it alive and refusing
    connections, and turn [k] beginning within the 30 seconds of the
    deadline, [start_driver] answers [False] at that very turn: after the
    poll it reads the output of the process and logs it as the failure, and
    returns.  It has slept once for each earlier turn and not since; the
    clock stands where turn [k] began. *)
Theorem exit_seen_by_probe (k : nat) (s : state)
  (Hclean : clean s)
  (Hexe : path_exists E (driver_exe E self) = true)
  (Hpopen : popen_fault E = None)
  (Hturns : forall j, (j < k)%nat ->
     tick_exited E j = false /\ accepted (tick_dial E j) = false)
  (Hexit : tick_exited E k = true)
  (Htime : (elapsed_from E 0 k < PROBE_TIMEOUT)%Z) :
  start_driver E self s =
    (Ret false,
     mkState (Some (mkProcess false EmptyString (server_graceful E)))
             (now s + elapsed_from E 0 k) 0,
     [APrint (LHarness (StartingDriver (path_name (test_db self))));
      APopen [driver_exe E self; test_db self];
      APrint (LHarness Waiting)]
     ++ refused_turns k
     ++ [APoll; AReadOutput (server_output E);
         APrint (LHarness (DriverExited (server_output E)))]) /\
  List.length (filter (fun a => match a with ASleep _ => true | _ => false end)
                      (snd (start_driver E self s))) = k /\
  existsb (fun a => match a with APrint (LHarness ProbeTimeout) => true | _ => false end)
          (snd (start_driver E self s)) = false.
Proof.
  destruct Hclean as [Hd Hr]. destruct s as [dp t0 n]. cbn in Hd, Hr. subst dp n.
  set (p0 := mkProcess true (server_output E) (server_graceful E)).
  set (s1 := mkState (Some p0) t0 1).
  assert (Heq : start_driver E self (mkState None t0 0) =
                let '(r, s', t) := probe E (Z.to_nat (PROBE_TIMEOUT / PROBE_SLEEP)) 0 t0 s1 in
                (r, s', [APrint (LHarness (StartingDriver (path_name (test_db self))));
                         APopen [driver_exe E self; test_db self];
                         APrint (LHarness Waiting)] ++ t)).
  { cbv beta iota zeta delta [start_driver bind log print emit popen time get put ret].
    fold (driver_exe E self). rewrite Hexe, Hpopen. cbv beta iota delta [negb now running].
    fold p0 s1. destruct (probe E _ 0 t0 s1) as [[r s'] t]. reflexivity. }
  assert (Hk : (k < Z.to_nat (PROBE_TIMEOUT / PROBE_SLEEP))%nat).
  { pose proof (elapsed_lower k 0) as Hlow.
    change (Z.to_nat (PROBE_TIMEOUT / PROBE_SLEEP)) with 60%nat.
    unfold PROBE_TIMEOUT, PROBE_SLEEP in *. lia. }
  rewrite (@probe_sees_exit k _ 0%nat t0 s1 p0 eq_refl eq_refl Hk) in Heq.
  2:{ exact Hturns. }
  2:{ exact Hexit. }
  2:{ unfold s1. cbn [now]. lia. }
  rewrite Heq. cbn [snd p_unread p0].
  split; [reflexivity|]. clear.
  split.
  - cbn [app filter]. induction k as [|k IH]; [reflexivity|].
    cbn. f_equal. exact IH.
  - cbn [app existsb]. induction k as [|k IH]; [reflexivity|].
    cbn. exact IH.
Qed.

End DyingServer.

(** ** Test predicates that raise *)

Section RaisingPredicates.
Import Client Harness HarnessSpec.
Context {codec : Codec}.
Variables (E : env) (self : harness).

(** C5.  A predicate that raises is handled in the local modes and not in
    the remote mode.  In [run_cli_local_tests] the [try] block of the loop
    catches the exception: the case is recorded as failed with the text of
    the exception, and the turn returns, so the loop goes on.  In
    [run_basic_tests] nothing catches it: the exception leaves the loop at
    the case that raised, no result is recorded for that case, and the
    cases after it are not run. *)
Theorem predicate_exception_local_vs_remote (e : exn)
  (Hexn : is_Exception e = true) (Hnot : is_TimeoutExpired e = false) :
  (forall name sql check done f,
     cli E [cli_exe self; "-s"; test_db self; "-q"; sql]%string None = Completed done ->
     check (stdout done ++ stderr done)%string (returncode done) = Raise e ->
     run_case E self (mkLocalTest name (Query sql) check) f =
       (Ret tt,
        mkFrame (f_state f) (Some done) (f_results f ++ [failed_with name (str e)]),
        [ARun [cli_exe self; "-s"; test_db self; "-q"; sql]%string None None
              (Some CLI_TIMEOUT)])) /\
  (forall test rest results c v c' t,
     query (bt_sql test) c = (Ret v, c', t) ->
     bt_check test v = Raise e ->
     run_tests_from (test :: rest) results c = (Raise e, c', t)).
Proof.
  split.
  - intros name sql check done f Hcli Hcheck.
    unfold run_case, try_except2, try_catch. cbn [lt_name lt_input lt_check].
    unfold bind at 1. unfold bind at 1. unfold bind at 1.
    unfold in_state, zoom, run_cli. unfold bind at 1. unfold emit at 1.
    rewrite Hcli. unfold ret at 1. unfold bind at 1. unfold assign_result at 1.
    unfold bind at 1. unfold get at 1, put at 1. unfold bind at 1.
    unfold Py.lift at 1. rewrite Hcheck. cbn [f_state f_result f_results app].
    rewrite Hnot, Hexn. cbn [orb].
    unfold append, bind, get, put. cbn [f_state f_result f_results app].
    reflexivity.
  - intros test rest results c v c' t Hq Hcheck.
    cbn [run_tests_from]. unfold bind at 1. rewrite Hq.
    unfold bind at 1. unfold Py.lift. rewrite Hcheck. rewrite app_nil_r. reflexivity.
Qed.

End RaisingPredicates.

(** ** The theorems at work on concrete runs *)

Module Runs.
Import Client ClientSpec Harness HarnessSpec Examples.

Lemma select_1_fits : request_fits "SELECT 1".
Proof. vm_compute. discriminate. Qed.

(** A reply that arrives in three pieces, the length prefix cut in two:
    [_recv_exact 6] returns its first six bytes, [query] the decoded
    payload. *)
Lemma framing_on_slow_socket :
  sock (connected slow_socket) = Some slow_socket /\
  first_fault (inbox slow_socket) = None /\
  fst (fst (_recv_exact 6 (connected slow_socket)))
    = Ret (Some (firstn 6 (framed error_text))) /\
  fst (fst (query "SELECT 1" (connected slow_socket))) = Ret error_value.
Proof.
  split; [reflexivity|]. split; [reflexivity|].
  destruct (@recv_exact_and_framing table_codec 6 "SELECT 1" (connected slow_socket)
              slow_socket eq_refl eq_refl) as [(sk1 & t1 & H1 & _) H2].
  split.
  - rewrite H1. cbn [fst]. vm_compute. reflexivity.
  - destruct (H2 eq_refl select_1_fits) as (sk2 & t2 & Hq & _).
    rewrite Hq. cbn [fst]. vm_compute. reflexivity.
Defined.

(** A prefix that declares 117440513 bytes: the answer is 'Response too
    large', and the four bytes of the prefix are all that was read. *)
Lemma guard_on_huge_socket :
  stream_bytes (inbox huge_socket)
    = [Byte.x01; Byte.x00; Byte.x00; Byte.x07; Byte.x7b; Byte.x7d] /\
  (Wire.le32 Byte.x01 Byte.x00 Byte.x00 Byte.x07 >? RESPONSE_LIMIT)%Z = true /\
  fst (fst (query "SELECT 1" (connected huge_socket))) = Ret (failure "Response too large") /\
  received (snd (query "SELECT 1" (connected huge_socket)))
    = [Byte.x01; Byte.x00; Byte.x00; Byte.x07].
Proof.
  assert (Hbig : (Wire.le32 Byte.x01 Byte.x00 Byte.x00 Byte.x07 >? RESPONSE_LIMIT)%Z = true)
    by (vm_compute; reflexivity).
  split; [reflexivity|]. split; [exact Hbig|].
  destruct (@oversized_response_guard table_codec "SELECT 1" (connected huge_socket)
              huge_socket Byte.x01 Byte.x00 Byte.x00 Byte.x07 [Byte.x7b; Byte.x7d]
              eq_refl eq_refl select_1_fits eq_refl)
    as (_ & v & sk' & t & Hq & _ & Hif).
  rewrite Hbig in Hif. destruct Hif as (Hv & Hr & _).
  rewrite Hq. cbn [fst snd received]. rewrite Hv, Hr. split; reflexivity.
Defined.

(** A connection reset while the prefix is awaited: the text of the
    [OSError] comes back in the failure dictionary. *)
Lemma fault_on_reset_socket :
  fault_msg (inbox reset_socket) = Some "[Errno 104] Connection reset by peer"%string /\
  fst (fst (query "SELECT 1" (connected reset_socket)))
    = Ret (failure "[Errno 104] Connection reset by peer").
Proof.
  split; [reflexivity|].
  assert (Hlen : (List.length (stream_bytes (inbox reset_socket)) < 4)%nat)
    by (cbn; lia).
  destruct (proj1 (@transport_fault_reported table_codec "SELECT 1" (connected reset_socket))
              reset_socket "[Errno 104] Connection reset by peer"%string
              eq_refl select_1_fits
              (or_intror (conj eq_refl (conj eq_refl (or_introl Hlen)))))
    as (c' & t & Hq).
  rewrite Hq. reflexivity.
Defined.

(** The run where every case passes leaves no process behind. *)
Lemma good_run_stops_driver :
  clean (fresh 0) /\
  driver_process (snd (fst (run good_env (harness_in good_env) (fresh 0)))) = None /\
  running (snd (fst (run good_env (harness_in good_env) (fresh 0)))) = 0%nat.
Proof.
  split; [split; reflexivity|].
  destruct (@driver_stopped_on_every_route table_codec good_env (harness_in good_env)
              (fresh 0) (conj eq_refl eq_refl))
    as (r & s1 & t1 & s' & t2 & _ & _ & Hrun & _ & Hd & Hr & _).
  rewrite Hrun. cbn [fst snd]. split; assumption.
Defined.

(** The run where every case passes: exit code 0, the server reported
    ready, no case reported failed. *)
Lemma good_run_exits_0 :
  run good_env (harness_in good_env) (fresh 0)
    = (Ret 0%Z, snd (fst (run good_env (harness_in good_env) (fresh 0))),
       snd (run good_env (harness_in good_env) (fresh 0))) /\
  existsb is_ready (snd (run good_env (harness_in good_env) (fresh 0))) = true /\
  existsb is_case_failure (snd (run good_env (harness_in good_env) (fresh 0))) = false.
Proof.
  assert (Hrun : run good_env (harness_in good_env) (fresh 0)
    = (Ret 0%Z, snd (fst (run good_env (harness_in good_env) (fresh 0))),
       snd (run good_env (harness_in good_env) (fresh 0)))) by (vm_compute; reflexivity).
  split; [exact Hrun|].
  destruct (@exit_code_meaning table_codec good_env (harness_in good_env) 0 0%Z _ _ Hrun)
    as (_ & _ & H0 & _).
  apply H0. reflexivity.
Defined.

(** Local-mode cases have failed and the server is dead when first polled:
    the exit code is 3, with seven cases reported failed. *)
Lemma failed_cases_yet_exit_3 :
  fst (fst failing_run) = Ret 3%Z /\
  failures (snd failing_run) = 7%nat /\
  existsb is_case_failure (snd failing_run) = true /\
  existsb is_start_failure (snd failing_run) = true.
Proof. repeat split; vm_compute; reflexivity. Qed.

(** The run where every case passes prints the output of the driver: it is
    the last line of the run. *)
Lemma output_printed_on_success :
  fst (fst good_run) = Ret 0%Z /\
  failures (snd good_run) = 0%nat /\
  existsb is_build_failure (snd good_run) = false /\
  existsb is_start_failure (snd good_run) = false /\
  Py.strip_nonempty banner = true /\
  last (snd good_run) AClose = APrint (LDriverOutput banner).
Proof. repeat split; vm_compute; reflexivity. Qed.

Lemma good_run_surfaces_output :
  popen_fault good_env = None /\
  Py.strip_nonempty (server_output good_env) = true /\
  existsb is_launch (snd (run good_env (harness_in good_env) (fresh 0))) = true /\
  In (APrint (LDriverOutput banner)) (snd (run good_env (harness_in good_env) (fresh 0))).
Proof.
  assert (Hlaunch : existsb is_launch (snd (run good_env (harness_in good_env) (fresh 0)))
                    = true) by (vm_compute; reflexivity).
  split; [reflexivity|]. split; [reflexivity|]. split; [exact Hlaunch|].
  apply (proj2 (@driver_output_surfaced table_codec good_env (harness_in good_env) 0
                  eq_refl eq_refl Hlaunch) 0%Z).
  - vm_compute. reflexivity.
  - left. reflexivity.
Defined.

(** The server dies between the second and the third turn of the probe:
    [start_driver] answers [False] a second after it began, its last action
    the log of the failure with the output of the process. *)
Lemma dying_server_seen_at_third_turn :
  tick_exited dying_env 2 = true /\
  (elapsed_from dying_env 0 2 < PROBE_TIMEOUT)%Z /\
  fst (fst (start_driver dying_env (harness_in dying_env) (fresh 0))) = Ret false /\
  now (snd (fst (start_driver dying_env (harness_in dying_env) (fresh 0)))) = 1004%Z /\
  last (snd (start_driver dying_env (harness_in dying_env) (fresh 0))) AClose
    = APrint (LHarness (DriverExited banner)).
Proof.
  assert (Htime : (elapsed_from dying_env 0 2 < PROBE_TIMEOUT)%Z)
    by (vm_compute; reflexivity).
  assert (Hturns : forall j, (j < 2)%nat ->
            tick_exited dying_env j = false /\ accepted (tick_dial dying_env j) = false).
  { intros [|[|j]] Hj; [split; reflexivity|split; reflexivity|lia]. }
  split; [reflexivity|]. split; [exact Htime|].
  destruct (@exit_seen_by_probe dying_env (harness_in dying_env) 2 (fresh 0)
              (conj eq_refl eq_refl) eq_refl eq_refl Hturns eq_refl Htime) as (Hrun & _).
  rewrite Hrun. cbn [fst snd]. repeat split; vm_compute; reflexivity.
Defined.

(** The server answers the first query with [{}]: the predicate of the
    first basic test raises [KeyError], which leaves [run_basic_tests]
    after that one request. *)
Lemma keyless_reply_aborts_basic_tests :
  fst (fst (run_basic_tests (connected keyless_server)))
    = Raise (mkExn KeyError "'success'") /\
  List.length (sent (snd (run_basic_tests (connected keyless_server)))) = 1%nat.
Proof.
  pose (first := hd (mkBasicTest "" "" (fun _ => Ret JNull)) tests).
  pose (c := connected keyless_server).
  assert (Hq : query (bt_sql first) c = (Ret (JDict []), snd (fst (query (bt_sql first) c)),
                                         snd (query (bt_sql first) c)))
    by (vm_compute; reflexivity).
  pose proof (proj2 (@predicate_exception_local_vs_remote table_codec good_env
                       (harness_in good_env) (mkExn KeyError "'success'") eq_refl eq_refl)
                first (tl tests) [] c _ _ _ Hq eq_refl) as Hrun.
  change (run_tests_from (first :: tl tests) [] c)
    with (run_basic_tests (connected keyless_server)) in Hrun.
  rewrite Hrun. cbn [fst snd]. split; [reflexivity|]. vm_compute. reflexivity.
Defined.

(** The whole run against that server: the six remote-mode cases leave no
    result and no report, the exception reaches [main], which prints it and
    exits with status 1, no case having been reported failed. *)
Lemma keyless_run_aborted :
  fst (fst keyless_run) = Ret 1%Z /\
  List.length (sent (snd keyless_run)) = 1%nat /\
  failures (snd keyless_run) = 0%nat /\
  existsb (fun a => match a with
                    | APrint (LTitle "CLI REMOTE MODE TESTS (Mode 3)") => true
                    | _ => false
                    end) (snd keyless_run) = false /\
  last (snd keyless_run) AClose = APrint (LFatal "'success'").
Proof. repeat split; vm_compute; reflexivity. Qed.

End Runs.

(** ** The length prefix *)

Section Prefix.
Import Client ClientSpec.

Lemma Z_of_byte_of_Z z : Wire.Z_of_byte (Wire.byte_of_Z z) = (z mod 256)%Z.
Proof.
  unfold Wire.Z_of_byte, Wire.byte_of_Z.
  assert (Hr : (0 <= z mod 256 < 256)%Z) by (apply Z.mod_pos_bound; lia).
  destruct (Byte.of_N (Z.to_N (z mod 256))) as [b|] eqn:Hb.
  - apply Byte.to_of_N in Hb. rewrite Hb. lia.
  - apply Byte.of_N_None_iff in Hb. lia.
Qed.

Lemma byte_bit z k i :
  (0 <= k)%Z -> (0 <= i)%Z ->
  Z.testbit (Z.shiftl (Z.shiftr z k mod 256) k) i
    = if ((k <=? i) && (i <? k + 8))%Z then Z.testbit z i else false.
Proof.
  intros Hk Hi. rewrite Z.shiftl_spec by assumption.
  destruct (Z.leb_spec k i); cbn [andb].
  - change 256%Z with (2 ^ 8)%Z.
    destruct (Z.ltb_spec i (k + 8)).
    + rewrite Z.mod_pow2_bits_low by lia. rewrite Z.shiftr_spec by lia.
      f_equal. lia.
    + rewrite Z.mod_pow2_bits_high by lia. reflexivity.
  - apply Z.testbit_neg_r. lia.
Qed.

Lemma le32_of_bytes n :
  (0 <= n <= Wire.U32_MAX)%Z ->
  Wire.le32 (Wire.byte_of_Z n) (Wire.byte_of_Z (Z.shiftr n 8))
            (Wire.byte_of_Z (Z.shiftr n 16)) (Wire.byte_of_Z (Z.shiftr n 24)) = n.
Proof.
  intros Hn. unfold Wire.le32, Wire.U32_MAX in *. rewrite !Z_of_byte_of_Z.
  apply Z.bits_inj'. intros i Hi.
  rewrite !Z.lor_spec.
  rewrite <- (Z.shiftr_0_r n) at 1. rewrite <- (Z.shiftl_0_r (Z.shiftr n 0 mod 256)).
  rewrite !byte_bit by lia.
  assert (Hhigh : (32 <= i)%Z -> Z.testbit n i = false).
  { intros H32. rewrite <- (Z.mod_small n (2 ^ 32)) by lia.
    apply Z.mod_pow2_bits_high. lia. }
  destruct (Z.leb_spec 0 i), (Z.ltb_spec i (0 + 8)), (Z.leb_spec 8 i), (Z.ltb_spec i (8 + 8)),
    (Z.leb_spec 16 i), (Z.ltb_spec i (16 + 8)), (Z.leb_spec 24 i), (Z.ltb_spec i (24 + 8));
    cbn [andb orb]; rewrite ?orb_false_r; try reflexivity; try lia.
  symmetry. apply Hhigh. lia.
Qed.

(** X1.  The length prefix [query] writes with [struct.pack('<I', n)] is read
    back as [n] by [struct.unpack('<I', ...)], for every length of the
    unsigned 32-bit range; outside that range packing raises. *)
Theorem length_prefix_round_trip (S : Type) (n : Z) (s : S) :
  (if ((0 <=? n) && (n <=? Wire.U32_MAX))%Z
   then exists header,
          Wire.pack_u32 n s = (Ret header, s, []) /\
          List.length header = 4%nat /\
          Wire.unpack_u32 header s = (Ret n, s, [])
   else exists e, Wire.pack_u32 n s = (Raise e, s, []) /\ exn_class e = StructError).
Proof.
  unfold Wire.pack_u32.
  destruct ((0 <=? n) && (n <=? Wire.U32_MAX))%Z eqn:Hrange.
  - eexists. split; [reflexivity|]. split; [reflexivity|].
    unfold Wire.unpack_u32. rewrite le32_of_bytes; [reflexivity|]. lia.
  - eexists. split; reflexivity.
Qed.

End Prefix.

(** ** Queries one after the other *)

Section Exchanges.
Import Client ClientSpec FrameSpec.
Context {codec : Codec}.

(** [query_receives], with what is left of the faults in store for
    [sendall]. *)
Lemma query_receives_faults sql c sk :
  sock c = Some sk -> request_fits sql -> send_fault sk = None ->
  exists sk' t,
    send_faults sk' = tl (send_faults sk) /\
    query sql c =
      (Ret (reply_value (fst (receive_frame (stream_bytes (inbox sk)) (fault_msg (inbox sk))))),
       set_sock (Some sk') c, ASendAll (request_frame sql) :: t) /\
    sent t = [] /\
    received t ++ snd (receive_frame (stream_bytes (inbox sk)) (fault_msg (inbox sk)))
      = stream_bytes (inbox sk) /\
    (if is_short (fst (receive_frame (stream_bytes (inbox sk)) (fault_msg (inbox sk))))
     then inbox sk' = after_fault (inbox sk)
     else stream_bytes (inbox sk')
            = snd (receive_frame (stream_bytes (inbox sk)) (fault_msg (inbox sk)))
          /\ first_fault (inbox sk') = first_fault (inbox sk)).
Proof.
  intros Hs Hfit Hsend.
  set (bs := stream_bytes (inbox sk)). set (flt := fault_msg (inbox sk)).
  (* the request goes out *)
  assert (Hout : exists sk0, inbox sk0 = inbox sk /\ send_faults sk0 = tl (send_faults sk) /\
            on_sock (sendall (request_frame sql)) c
              = (Ret tt, set_sock (Some sk0) c, [ASendAll (request_frame sql)])).
  { rewrite (on_sock_sendall _ c Hs). unfold send_fault in Hsend.
    destruct (send_faults sk) as [|[msg|] rest] eqn:Hsf; try discriminate.
    - exists sk. split; [reflexivity|]. split; [exact Hsf|].
      rewrite set_sock_same by assumption. reflexivity.
    - eexists (mkSocket (inbox sk) rest). repeat split; reflexivity. }
  destruct Hout as (sk0 & Hin0 & Hsf0 & Hout).
  (* the length prefix *)
  destruct (@recv_exact_spec 4 (set_sock (Some sk0) c) sk0 eq_refl)
    as (sk1 & t1 & Hrun1 & Hsf1 & Hrecv1 & Hsent1 & Hleave1).
  rewrite Hsf0 in Hsf1.
  rewrite fault_msg_outcome in Hrun1. unfold recv_leaves in Hleave1.
  rewrite Hin0 in *. fold bs flt in Hrun1, Hrecv1, Hleave1.
  change (Z.to_nat 4) with 4%nat in *.
  unfold query, bind at 1, get. rewrite Hs.
  unfold try_except, try_catch, bind at 1.
  unfold request_fits in Hfit.
  rewrite pack_u32_fits by lia.
  unfold bind at 1. fold (request_frame sql). rewrite Hout.
  unfold bind at 1. rewrite Hrun1. unfold receive_frame.
  destruct (Nat.leb_spec 4 (List.length bs)) as [Hlong|Hshort].
  2:{ (* the stream falls short of the prefix *)
      rewrite (declared_length_short _ Hshort).
      exists sk1, t1. rewrite firstn_all2 in Hrecv1 by lia.
      destruct flt as [msg|]; simpl; rewrite set_sock_twice, ?app_nil_r.
      all: repeat split; assumption. }
  destruct (declared_length_long _ Hlong) as (b0 & b1 & b2 & b3 & body & Hbs).
  rewrite Hbs in *. cbn [declared_length firstn skipn app] in *.
  unfold bind at 1. cbn [Wire.unpack_u32 ret].
  set (n := Wire.le32 b0 b1 b2 b3).
  destruct (n >? RESPONSE_LIMIT)%Z eqn:Hguard.
  { (* the size guard *)
    exists sk1, t1. cbn [fst snd is_short reply_value]. rewrite set_sock_twice.
    destruct Hleave1 as [Hb1 Hf1].
    repeat split; try assumption.
    - unfold ret. simpl. rewrite app_nil_r. reflexivity.
    - rewrite Hrecv1. reflexivity. }
  (* the payload *)
  destruct Hleave1 as [Hb1 Hf1].
  destruct (@recv_exact_spec n (set_sock (Some sk1) (set_sock (Some sk0) c)) sk1 eq_refl)
    as (sk2 & t2 & Hrun2 & Hsf2 & Hrecv2 & Hsent2 & Hleave2).
  rewrite Hsf1 in Hsf2.
  rewrite fault_msg_outcome in Hrun2. unfold recv_leaves in Hleave2.
  assert (Hflt1 : fault_msg (inbox sk1) = flt).
  { unfold flt, fault_msg. rewrite Hf1. reflexivity. }
  assert (Haf1 : after_fault (inbox sk1) = after_fault (inbox sk)).
  { unfold after_fault. rewrite Hf1. reflexivity. }
  rewrite Hb1, Hflt1, ?Haf1 in *.
  unfold read_payload, bind at 1. rewrite Hrun2.
  rewrite Nat.ltb_antisym.
  exists sk2, (t1 ++ t2). rewrite !set_sock_twice.
  rewrite sent_app, received_app, Hsent1, Hsent2, Hrecv1, Hrecv2.
  destruct (Z.to_nat n <=? List.length body)%nat eqn:Hn; cbn [negb].
  - (* the payload came whole *)
    cbn [fst snd is_short reply_value app]. destruct Hleave2 as [Hb2 Hf2].
    unfold decode. destruct (loads (firstn (Z.to_nat n) body)) as [v|msg]; simpl;
      rewrite ?app_nil_r;
      (repeat split; first [ assumption | rewrite firstn_skipn; reflexivity | congruence ]).
  - (* the stream falls short of the payload *)
    apply Nat.leb_gt in Hn. rewrite firstn_all2 by lia.
    destruct flt as [msg|]; simpl; rewrite ?app_nil_r;
      repeat split; assumption.
Qed.

Lemma receive_frame_frame payload rest flt :
  (Z.of_nat (List.length payload) <= RESPONSE_LIMIT)%Z ->
  receive_frame (frame payload ++ rest) flt = (Payload payload, rest).
Proof.
  intros Hle. unfold receive_frame, frame. cbn [app declared_length skipn].
  assert (H32 : (RESPONSE_LIMIT <= Wire.U32_MAX)%Z) by (vm_compute; discriminate).
  rewrite le32_of_bytes by lia.
  destruct (Z.gtb_spec (Z.of_nat (List.length payload)) RESPONSE_LIMIT); [lia|].
  rewrite Nat2Z.id.
  assert (Hlen : (List.length (payload ++ rest) <? List.length payload)%nat = false).
  { apply Nat.ltb_ge. rewrite length_app. lia. }
  rewrite Hlen. rewrite firstn_app, Nat.sub_diag, firstn_all, firstn_O, app_nil_r.
  rewrite skipn_app, Nat.sub_diag, skipn_all. reflexivity.
Qed.

(** One exchange on a stream that begins with a frame. *)
Lemma query_on_frame sql c sk payload rest :
  sock c = Some sk -> request_fits sql -> send_faults sk = [] ->
  first_fault (inbox sk) = None ->
  stream_bytes (inbox sk) = frame payload ++ rest ->
  (Z.of_nat (List.length payload) <= RESPONSE_LIMIT)%Z ->
  exists sk' t,
    query sql c = (Ret (reply_value (Payload payload)), set_sock (Some sk') c,
                   ASendAll (request_frame sql) :: t) /\
    sent t = [] /\ received t = frame payload /\
    send_faults sk' = [] /\ first_fault (inbox sk') = None /\
    stream_bytes (inbox sk') = rest.
Proof.
  intros Hs Hfit Hsf Hff Hbs Hle.
  destruct (query_receives_faults c Hs Hfit) as (sk' & t & Hsf' & Hrun & Hsent & Hrecv & Hleave).
  { unfold send_fault. rewrite Hsf. reflexivity. }
  rewrite Hbs, (@receive_frame_frame payload rest (fault_msg (inbox sk)) Hle) in *. cbn [fst snd is_short] in *.
  destruct Hleave as [Hb Hf]. exists sk', t.
  rewrite Hsf in Hsf'. rewrite Hff in Hf.
  repeat split; try assumption.
  apply app_inv_tail in Hrecv. assumption.
Qed.

(** X2.  Two queries on a stream that holds two frames, one after the other,
    are answered with the payload of the first and the payload of the
    second: each exchange sends one request and reads one frame, to its last
    byte and not beyond, so the second begins where the next frame does. *)
Theorem queries_read_frames_in_turn (sql1 sql2 : string) (c : client) (sk : socket)
  (p1 p2 rest : list byte)
  (Hconn : sock c = Some sk) (Hsend : send_faults sk = [])
  (Hclean : first_fault (inbox sk) = None)
  (Hstream : stream_bytes (inbox sk) = frame p1 ++ frame p2 ++ rest)
  (Hlen1 : (Z.of_nat (List.length p1) <= RESPONSE_LIMIT)%Z)
  (Hlen2 : (Z.of_nat (List.length p2) <= RESPONSE_LIMIT)%Z)
  (Hfit1 : request_fits sql1) (Hfit2 : request_fits sql2) :
  exists sk' t,
    (v1 <- query sql1 ;; v2 <- query sql2 ;; ret (v1, v2)) c
      = (Ret (reply_value (Payload p1), reply_value (Payload p2)),
         set_sock (Some sk') c, t) /\
    sent t = [request_frame sql1; request_frame sql2] /\
    received t = frame p1 ++ frame p2 /\
    stream_bytes (inbox sk') = rest.
Proof.
  destruct (query_on_frame c Hconn Hfit1 Hsend Hclean Hstream Hlen1)
    as (sk1 & t1 & Hrun1 & Hsent1 & Hrecv1 & Hsf1 & Hff1 & Hbs1).
  destruct (@query_on_frame sql2 (set_sock (Some sk1) c) sk1 p2 rest eq_refl Hfit2 Hsf1 Hff1
              Hbs1 Hlen2)
    as (sk2 & t2 & Hrun2 & Hsent2 & Hrecv2 & Hsf2 & Hff2 & Hbs2).
  rewrite set_sock_twice in Hrun2.
  exists sk2, ((ASendAll (request_frame sql1) :: t1) ++ (ASendAll (request_frame sql2) :: t2) ++ []).
  split; [|split; [|split]].
  - unfold bind at 1. rewrite Hrun1. unfold bind at 1. rewrite Hrun2. reflexivity.
  - rewrite !sent_app. cbn [sent]. rewrite Hsent1, Hsent2. reflexivity.
  - rewrite !received_app. cbn [received]. rewrite Hrecv1, Hrecv2, app_nil_r. reflexivity.
  - exact Hbs2.
Qed.

(** X3.  Whatever the network does, a [query] on a connected client hands
    [sendall] its request once, framed, and never a second time: a fault or
    a closed stream is answered by a failure dictionary, not by another
    attempt. *)
Theorem query_sends_one_frame (sql : string) (c : client) (sk : socket)
  (Hconn : sock c = Some sk) (Hfit : request_fits sql) :
  sent (snd (query sql c)) = [request_frame sql] /\
  exists v, fst (fst (query sql c)) = Ret v.
Proof.
  destruct (send_fault sk) as [msg|] eqn:Hsend.
  - destruct (query_send_fault c Hconn Hfit Hsend) as (sk' & Hrun & _).
    rewrite Hrun. cbn. eauto.
  - destruct (query_receives c Hconn Hfit Hsend) as (sk' & t & Hrun & Hsent & _).
    rewrite Hrun. cbn [fst snd sent]. rewrite Hsent. eauto.
Qed.

End Exchanges.

(** ** The basic tests and their verdicts *)

Section BasicTests.
Import Client ClientSpec.
Context {codec : Codec}.

(** X4.  On a failure dictionary, whatever its message, the four tests that
    expect rows are failed and the two that expect an error are passed: the
    predicates of [invalid_table] and [syntax_error] ask for no more than a
    false ['success'] and an ['error'] key.  So on a client that is not
    connected [run_basic_tests] calls nothing on the network and returns six
    results, the last two passed. *)
Theorem failure_dictionary_verdicts (c : client) :
  (forall msg,
     map (fun t => bt_check t (failure msg)) tests
       = [Ret (JBool false); Ret (JBool false); Ret (JBool false); Ret (JBool false);
          Ret (JBool true); Ret (JBool true)]) /\
  exists results,
    run_basic_tests (set_sock None c) = (Ret results, set_sock None c, []) /\
    map br_name results = map bt_name tests /\
    map br_passed results
      = [JBool false; JBool false; JBool false; JBool false; JBool true; JBool true] /\
    Forall (fun r => br_result r = failure "Not connected") results.
Proof.
  split; [intros msg; reflexivity|].
  destruct c as [h p s]. eexists. split; [reflexivity|].
  split; [reflexivity|]. split; [reflexivity|]. repeat constructor.
Qed.

(** A predicate of the basic tests that returns has found a dictionary with
    the key ['success']: each of the six begins by reading [r['success']]. *)
Lemma check_reads_success :
  Forall (fun t => forall v p, bt_check t v = Ret p ->
                   exists kvs x, v = JDict kvs /\ Py.lookup "success" kvs = Some x) tests.
Proof.
  unfold tests, success_of.
  repeat constructor; intros v p; cbn [bt_check];
    unfold Py.and_, Py.not_, Py.rbind, Py.getitem;
    destruct v as [| | | | | |kvs]; try discriminate;
    destruct (Py.lookup "success" kvs) as [x|] eqn:Hx; try discriminate; intros _; eauto.
Qed.

Lemma query_sends_at_most_once sql c :
  (List.length (sent (snd (query sql c))) <= 1)%nat.
Proof.
  destruct (sock c) as [sk|] eqn:Hs.
  2:{ rewrite query_not_connected by assumption. cbn. lia. }
  destruct (Z_le_gt_dec (Z.of_nat (List.length (dumps_sql sql))) Wire.U32_MAX) as [Hfit|Hfit].
  2:{ destruct (query_request_too_long (sql:=sql) c Hs) as [msg H].
      { unfold request_fits. lia. }
      rewrite H. cbn. lia. }
  destruct (send_fault sk) as [msg|] eqn:Hsend.
  - destruct (query_send_fault c Hs Hfit Hsend) as (sk' & H & _). rewrite H. cbn. lia.
  - destruct (query_receives c Hs Hfit Hsend) as (sk' & t & H & Hsent & _).
    rewrite H. cbn [snd sent List.length]. rewrite Hsent. cbn. lia.
Qed.

Lemma run_tests_from_results todo :
  Forall (fun t => forall v p, bt_check t v = Ret p ->
                   exists kvs x, v = JDict kvs /\ Py.lookup "success" kvs = Some x) todo ->
  forall acc c results c' t,
    run_tests_from todo acc c = (Ret results, c', t) ->
    exists new,
      results = acc ++ new /\
      map br_name new = map bt_name todo /\
      map br_sql new = map bt_sql todo /\
      Forall (fun r => exists kvs x, br_result r = JDict kvs /\
                                     Py.lookup "success" kvs = Some x) new /\
      (List.length (sent t) <= List.length todo)%nat.
Proof.
  induction 1 as [|test rest Hcheck _ IH]; intros acc c results c' t Hrun.
  - cbn in Hrun. injection Hrun as <- <- <-. exists []. rewrite app_nil_r.
    repeat split; auto.
  - cbn [run_tests_from] in Hrun. unfold bind at 1 in Hrun.
    pose proof (query_sends_at_most_once (bt_sql test) c) as Hone.
    destruct (query (bt_sql test) c) as [[[v| |] c1] t1]; try discriminate.
    unfold bind at 1, Py.lift in Hrun.
    destruct (bt_check test v) as [p| |] eqn:Hp; try discriminate.
    destruct (run_tests_from rest _ c1) as [[r2 c2] t2] eqn:Hrest.
    cbn [app] in Hrun.
    assert (r2 = Ret results /\ c2 = c' /\ t1 ++ t2 = t) as (-> & -> & <-).
    { injection Hrun as -> -> ->. auto. }
    destruct (IH _ _ _ _ _ Hrest) as (new & -> & Hn & Hq & Hwf & Hlen).
    exists (mkBasicResult (bt_name test) (bt_sql test) p v :: new).
    rewrite <- app_assoc. cbn [app map br_name br_sql].
    rewrite Hn, Hq. repeat split; auto.
    + constructor; [|assumption]. cbn [br_result]. eapply Hcheck. eassumption.
    + rewrite sent_app, length_app. cbn [snd] in Hone. cbn [List.length]. lia.
Qed.

(** X5.  When [run_basic_tests] returns, it returns one result for each of the
    six tests, in their order, with the name and the SQL of the test; the
    reply kept in each is a dictionary that has the key ['success']; and at
    most six requests have been sent. *)
Theorem basic_results_well_formed (c c' : client) (results : list basic_result) (t : trace)
  (Hrun : run_basic_tests c = (Ret results, c', t)) :
  List.length results = 6%nat /\
  map br_name results = map bt_name tests /\
  map br_sql results = map bt_sql tests /\
  Forall (fun r => exists kvs x, br_result r = JDict kvs /\
                                 Py.lookup "success" kvs = Some x) results /\
  (List.length (sent t) <= 6)%nat.
Proof.
  destruct (run_tests_from_results check_reads_success [] c Hrun)
    as (new & -> & Hn & Hq & Hwf & Hlen).
  cbn [app]. repeat split; try assumption.
  rewrite <- (length_map br_name), Hn. reflexivity.
Qed.

End BasicTests.

(** ** [main] of the test client *)

Section ClientMainProperties.
Import Client ClientSpec ClientMain.
Context {codec : Codec}.

Lemma run_tests_from_keeps_connection todo : forall acc c,
  is_connected (snd (fst (run_tests_from todo acc c))) = is_connected c.
Proof.
  induction todo as [|test rest IH]; intros acc c; [reflexivity|].
  cbn [run_tests_from]. unfold bind at 1.
  pose proof (query_keeps_connection (bt_sql test) c) as Hq.
  destruct (query (bt_sql test) c) as [[[v|e|] c1] t1]; cbn [fst snd] in *; try assumption.
  unfold bind at 1, Py.lift.
  destruct (bt_check test v) as [p|e|]; cbn [fst snd]; try assumption.
  specialize (IH (acc ++ [mkBasicResult (bt_name test) (bt_sql test) p v]) c1).
  destruct (run_tests_from rest _ c1) as [[r2 c2] t2]. cbn [fst snd] in *. congruence.
Qed.


Lemma basic_results_shape (c c' : client) (results : list basic_result) (t : trace) :
  run_basic_tests c = (Ret results, c', t) ->
  List.length results = 6%nat /\
  Forall (fun r => exists kvs x, br_result r = JDict kvs /\
                                 Py.lookup "success" kvs = Some x) results.
Proof.
  intros Hrun.
  destruct (run_tests_from_results check_reads_success [] c Hrun)
    as (new & -> & Hn & _ & Hwf & _).
  cbn [app]. split; [|assumption].
  rewrite <- (length_map br_name), Hn. reflexivity.
Qed.

(** The report of results that hold a dictionary with ['success']: four
    lines for each, no exception, and the two counts. *)
Lemma report_spec results : forall p f s,
  Forall (fun r => exists kvs x, br_result r = JDict kvs /\
                                 Py.lookup "success" kvs = Some x) results ->
  exists lines,
    report results p f s =
      (Ret ((p + List.length (filter (fun r => Py.truthy (br_passed r)) results))%nat,
            (f + List.length (filter (fun r => negb (Py.truthy (br_passed r))) results))%nat),
       mkSession (s_client s) (s_console s ++ lines), []) /\
    List.length lines = (4 * List.length results)%nat.
Proof.
  induction results as [|r rest IH]; intros p f s Hwf.
  - exists []. cbn. rewrite !Nat.add_0_r, app_nil_r. destruct s. split; reflexivity.
  - inversion Hwf as [|r' rest' (kvs & x & Hd & Hx) Hrest]; subst r' rest'.
    cbn [report filter].
    assert (Hstep : forall k : M session (nat * nat),
       (say (CStatus (Py.truthy (br_passed r)) (br_name r)) ;;
        say (CSql (br_sql r)) ;;
        ok <- Py.lift (Py.getitem (br_result r) "success") ;;
        (if Py.truthy ok
         then n <- Py.lift (Harness.dict_get (br_result r) "row_count" (JInt 0)) ;;
              say (CRows n)
         else e <- Py.lift (Harness.dict_get (br_result r) "error" (JStr "unknown")) ;;
              say (CError e)) ;;
        say CBlank ;; k) s
       = k (mkSession (s_client s)
              (s_console s ++
               [CStatus (Py.truthy (br_passed r)) (br_name r); CSql (br_sql r);
                if Py.truthy x
                then CRows (match Py.lookup "row_count" kvs with Some n => n | None => JInt 0 end)
                else CError (match Py.lookup "error" kvs with Some e => e | None => JStr "unknown" end);
                CBlank]))).
    { intros k. rewrite Hd. unfold Py.getitem, Harness.dict_get. rewrite Hx.
      cbv beta iota zeta delta [bind say get put Py.lift s_client s_console ret].
      destruct (Py.truthy x).
      - destruct (Py.lookup "row_count" kvs); rewrite <- !app_assoc; cbn [app];
          destruct (k _) as [[r0 s0] t0]; reflexivity.
      - destruct (Py.lookup "error" kvs); rewrite <- !app_assoc; cbn [app];
          destruct (k _) as [[r0 s0] t0]; reflexivity. }
    rewrite Hstep.
    destruct (Py.truthy (br_passed r)); cbn [negb List.length].
    + match goal with |- context [report rest _ _ ?s1] =>
        destruct (IH (p + 1)%nat f s1 Hrest) as (lines & Hr & Hlen); rewrite Hr end.
      eexists. cbn [s_client s_console]. rewrite <- app_assoc. split.
      * repeat first [reflexivity | lia | f_equal].
      * rewrite length_app. cbn [List.length]. lia.
    + match goal with |- context [report rest _ _ ?s1] =>
        destruct (IH p (f + 1)%nat s1 Hrest) as (lines & Hr & Hlen); rewrite Hr end.
      eexists. cbn [s_client s_console]. rewrite <- app_assoc. split.
      * repeat first [reflexivity | lia | f_equal].
      * rewrite length_app. cbn [List.length]. lia.
Qed.

Lemma disconnect_closes c sk :
  sock c = Some sk -> disconnect c = (Ret tt, set_sock None c, [AClose]).
Proof. destruct c as [h p o]. cbn. intros ->. reflexivity. Qed.

Lemma none_failed (A : Type) (P : A -> bool) l :
  (List.length (filter (fun r => negb (P r)) l) =? 0)%nat = forallb P l.
Proof.
  induction l as [|a l IH]; [reflexivity|]. cbn. destruct (P a); cbn; [exact IH|reflexivity].
Qed.

Lemma passed_and_failed (A : Type) (P : A -> bool) l :
  (List.length (filter P l) + List.length (filter (fun r => negb (P r)) l))%nat
    = List.length l.
Proof.
  induction l as [|a l IH]; [reflexivity|]. cbn. destruct (P a); cbn; lia.
Qed.

(** X6.  The exit status of [main].  When the connection is refused, [main]
    prints the error and exits with status 1, no request sent.  When it is
    accepted and [run_basic_tests] returns, [main] prints four lines for
    each of the six results, then the two counts, which add up to six,
    closes the connection, and exits with status 0 exactly when every
    result is passed; reading the results back raises nothing. *)
Theorem client_main_exit_status (int : string -> res Z) (argv : list string)
  (sk : socket) (s : session) (port : Z)
  (results : list basic_result) (c1 : client) (t1 : trace)
  (Hport : port_of int argv = Ret port)
  (Hrun : run_basic_tests (set_sock (Some sk) (new (host_of argv) port))
          = (Ret results, c1, t1)) :
  (forall msg,
     main int argv (Refused msg) s =
       (Ret 1%Z,
        mkSession (new (host_of argv) port)
          (s_console s ++ [CBanner; CConnecting (host_of argv) port; CConnectFailed]),
        [ASocket; ASetTimeout 5000; AConnect (host_of argv) port])) /\
  exists lines,
    main int argv (Accepted sk) s =
      (Ret (if forallb (fun r => Py.truthy (br_passed r)) results then 0%Z else 1%Z),
       mkSession (set_sock None c1)
         (s_console s ++ [CBanner; CConnecting (host_of argv) port; CConnected] ++ lines
          ++ [CResults
                (List.length (filter (fun r => Py.truthy (br_passed r)) results))
                (List.length (filter (fun r => negb (Py.truthy (br_passed r))) results))]),
       [ASocket; ASetTimeout 5000; AConnect (host_of argv) port] ++ t1 ++ [AClose]) /\
    List.length lines = 24%nat /\
    (List.length (filter (fun r => Py.truthy (br_passed r)) results)
     + List.length (filter (fun r => negb (Py.truthy (br_passed r))) results))%nat = 6%nat.
Proof.
  split.
  - intros msg. unfold main. unfold bind at 1. unfold Py.lift at 1. rewrite Hport.
    destruct s as [c0 console].
    cbv beta iota zeta delta [bind say get put on_client zoom ret s_client s_console
                              connect try_except try_catch emit raise is_Exception
                              exn_class set_sock new host Client.port negb].
    cbn [app]. rewrite <- !app_assoc. reflexivity.
  - destruct (@basic_results_shape _ _ _ _ Hrun) as (Hlen & Hwf).
    assert (Hconn : exists sk1, sock c1 = Some sk1).
    { pose proof (run_tests_from_keeps_connection tests []
                    (set_sock (Some sk) (new (host_of argv) port))) as Hk.
      unfold run_basic_tests in Hrun. rewrite Hrun in Hk. cbn in Hk.
      unfold is_connected in Hk. destruct (sock c1) as [sk1|]; [eauto|discriminate]. }
    destruct Hconn as [sk1 Hsk1].
    destruct (report_spec 0 0
                (mkSession c1 (s_console s ++
                   [CBanner; CConnecting (host_of argv) port; CConnected])) Hwf)
      as (lines & Hreport & Hlines).
    exists lines. split; [|split].
    + unfold main. unfold bind at 1. unfold Py.lift at 1. rewrite Hport.
      destruct s as [c0 console]. cbn [s_console s_client] in *.
      cbv beta iota zeta delta [bind say get put on_client zoom ret s_client s_console
                              connect try_except try_catch emit is_Exception
                              exn_class negb].
      cbn [app set_sock host Client.port new].
      change (mkClient (host_of argv) port (Some sk))
        with (set_sock (Some sk) (new (host_of argv) port)).
      rewrite Hrun. cbn [app].
      rewrite <- !app_assoc in *. cbn [app] in *.
      rewrite Hreport. cbn [fst snd s_client s_console Nat.add].
      rewrite (disconnect_closes c1 Hsk1). rewrite none_failed.
      rewrite <- ?app_assoc. cbn [app]. rewrite ?app_nil_r. reflexivity.
    + rewrite Hlines, Hlen. reflexivity.
    + rewrite passed_and_failed. exact Hlen.
Qed.

(** X7.  A predicate that raises in [run_basic_tests] leaves [main] as an
    uncaught exception, after the lines of the connection and before any
    result is printed; the connection is still open: [main] has no
    [finally] and no [with] to close it, and no [close] has been called. *)
Theorem client_main_leaves_socket_open (int : string -> res Z) (argv : list string)
  (sk : socket) (s : session) (port : Z) (e : exn) (c1 : client) (t1 : trace)
  (Hport : port_of int argv = Ret port)
  (Hrun : run_basic_tests (set_sock (Some sk) (new (host_of argv) port))
          = (Raise e, c1, t1)) :
  main int argv (Accepted sk) s =
    (Raise e,
     mkSession c1 (s_console s ++ [CBanner; CConnecting (host_of argv) port; CConnected]),
     [ASocket; ASetTimeout 5000; AConnect (host_of argv) port] ++ t1) /\
  is_connected c1 = true /\
  forallb (fun a => match a with AClose => false | _ => true end)
          ([ASocket; ASetTimeout 5000; AConnect (host_of argv) port] ++ t1) = true.
Proof.
  split; [|split].
  - unfold main. unfold bind at 1. unfold Py.lift at 1. rewrite Hport.
    destruct s as [c0 console]. cbn [s_console s_client] in *.
    cbv beta iota zeta delta [bind say get put on_client zoom ret s_client s_console
                              connect try_except try_catch emit is_Exception
                              exn_class negb].
    cbn [app set_sock host Client.port new].
    change (mkClient (host_of argv) port (Some sk))
      with (set_sock (Some sk) (new (host_of argv) port)).
    rewrite Hrun. cbn [app]. rewrite <- !app_assoc. reflexivity.
  - pose proof (run_tests_from_keeps_connection tests []
                  (set_sock (Some sk) (new (host_of argv) port))) as Hk.
    unfold run_basic_tests in Hrun. rewrite Hrun in Hk. exact Hk.
  - pose proof (@emits_run_basic_tests codec
                  (fun a => match a with AClose => false | _ => true end)
                  (fun _ => eq_refl) (fun _ _ => eq_refl)
                  (set_sock (Some sk) (new (host_of argv) port))) as He.
    rewrite Hrun in He. cbn [snd] in He. cbn [app forallb]. exact He.
Qed.

End ClientMainProperties.

(** ** Reports and local-mode cases, one by one *)

Section Cases.
Import Harness HarnessSpec CaseSpec.
Context {codec : Codec}.
Variables (E : env) (self : harness).

Lemma print_result_lines r s :
  exists t, print_result r s
              = (Ret tt, s, APrint (LStatus (Py.truthy (tr_passed r)) (tr_name r)) :: t) /\
            statuses t = [] /\ failures t = 0%nat.
Proof.
  destruct r as [name passed sql err out rc].
  cbv beta iota zeta delta [print_result bind print emit ret when
                            tr_passed tr_name tr_sql tr_error tr_output].
  destruct (Py.truthy passed); cbn [negb].
  - eexists. split; [reflexivity|]. split; reflexivity.
  - destruct sql as [sql|]; [destruct (nonempty sql)|];
      (destruct err as [err|]; [destruct (Py.truthy err)|]);
      (destruct out as [out|]; [destruct (nonempty out)|]);
      (eexists; split; [reflexivity|]; split; reflexivity).
Qed.

Lemma statuses_app t1 t2 : statuses (t1 ++ t2) = statuses t1 ++ statuses t2.
Proof. unfold statuses. apply flat_map_app. Qed.

Lemma print_each_lines results : forall p f s,
  exists body,
    print_each results p f s =
      (Ret ((p + List.length (filter (fun r => Py.truthy (tr_passed r)) results))%nat,
            (f + List.length (filter (fun r => negb (Py.truthy (tr_passed r))) results))%nat),
       s, body) /\
    statuses body = map (fun r => (Py.truthy (tr_passed r), tr_name r)) results /\
    failures body = List.length (filter (fun r => negb (Py.truthy (tr_passed r))) results).
Proof.
  induction results as [|r rest IH]; intros p f s; cbn [print_each filter map].
  - exists []. rewrite !Nat.add_0_r. repeat split.
  - unfold bind at 1. destruct (print_result_lines r s) as (t1 & -> & Hs1 & Hf1).
    destruct (Py.truthy (tr_passed r)) eqn:Hp; cbn [negb List.length].
    + destruct (IH (p + 1)%nat f s) as (body & -> & Hs & Hf).
      eexists. split; [|split].
      * repeat first [reflexivity | lia | f_equal].
      * change (APrint (LStatus true (tr_name r)) :: t1)
          with ([APrint (LStatus true (tr_name r))] ++ t1).
        rewrite !statuses_app, Hs1, Hs. reflexivity.
      * change (APrint (LStatus true (tr_name r)) :: t1)
          with ([APrint (LStatus true (tr_name r))] ++ t1).
        rewrite !failures_app, Hf1, Hf. reflexivity.
    + destruct (IH p (f + 1)%nat s) as (body & -> & Hs & Hf).
      eexists. split; [|split].
      * repeat first [reflexivity | lia | f_equal].
      * change (APrint (LStatus false (tr_name r)) :: t1)
          with ([APrint (LStatus false (tr_name r))] ++ t1).
        rewrite !statuses_app, Hs1, Hs. reflexivity.
      * change (APrint (LStatus false (tr_name r)) :: t1)
          with ([APrint (LStatus false (tr_name r))] ++ t1).
        rewrite !failures_app, Hf1, Hf. reflexivity.
Qed.

(** X8.  [print_results] prints the heading, one status line for each result in
    the order of the list, with its verdict and its name, then the
    subtotal; the two counts it returns are the numbers of results whose
    ['passed'] is true and is not, they add up to the number of results,
    and the second is the number of [FAIL] lines printed.  The state of the
    harness is left as it was. *)
Theorem print_results_counts (results : list test_result) (title : string) (s : state) :
  exists body,
    print_results results title s =
      (Ret (List.length (filter (fun r => Py.truthy (tr_passed r)) results),
            List.length (filter (fun r => negb (Py.truthy (tr_passed r))) results)),
       s,
       [APrint LBlank; APrint LRule; APrint (LTitle title); APrint LRule] ++ body
       ++ [APrint LBlank;
           APrint (LSubtotal
                     (List.length (filter (fun r => Py.truthy (tr_passed r)) results))
                     (List.length (filter (fun r => negb (Py.truthy (tr_passed r))) results)))])
    /\
    statuses body = map (fun r => (Py.truthy (tr_passed r), tr_name r)) results /\
    failures body = List.length (filter (fun r => negb (Py.truthy (tr_passed r))) results) /\
    (List.length (filter (fun r => Py.truthy (tr_passed r)) results)
     + List.length (filter (fun r => negb (Py.truthy (tr_passed r))) results))%nat
      = List.length results.
Proof.
  destruct (print_each_lines results 0 0 s) as (body & Hrun & Hs & Hf).
  exists body. split; [|split; [assumption|split; [assumption|]]].
  - unfold print_results. cbv beta iota delta [bind print emit ret].
    rewrite Hrun. cbn [fst snd Nat.add app]. rewrite ?app_nil_r. reflexivity.
  - clear. induction results as [|r rest IH]; [reflexivity|].
    cbn. destruct (Py.truthy (tr_passed r)); cbn; lia.
Qed.

(** The predicates of the seven local-mode cases return a value on every
    output and every exit status. *)
Lemma local_checks_total :
  Forall (fun t => forall out rc, exists v, lt_check t out rc = Ret v)
         define_cli_local_tests.
Proof.
  unfold define_cli_local_tests, has, rc_is_0, rc_not_0, Py.and_, Py.rbind.
  repeat constructor; intros out rc; cbn [lt_check Py.truthy];
    repeat match goal with
           | |- context [if ?b then _ else _] => destruct b
           end; eauto.
Qed.

(** One turn of the loop on a case whose predicate returns, or raises an
    [Exception]: one result more, under the name of the case, and at most
    one process run. *)
Lemma run_case_one test f :
  (forall out rc, match lt_check test out rc with
                  | Ret _ => True
                  | Raise e => is_Exception e = true
                  | Diverge => False
                  end) ->
  exists last res t,
    run_case E self test f = (Ret tt, mkFrame (f_state f) last (f_results f ++ [res]), t) /\
    tr_name res = lt_name test /\
    (List.length t <= 1)%nat /\ forallb is_local_case t = true.
Proof.
  intros Hcheck. destruct test as [name input check]. cbn [lt_check lt_name] in *.
  destruct f as [s last results].
  unfold run_case, try_except2, try_catch. cbn [lt_name lt_input lt_check].
  destruct input as [sql|commands|mode].
  - cbv beta iota zeta delta [bind in_state zoom run_cli emit assign_result get put ret
                              Py.lift f_state f_result f_results result_returncode append
                              raise].
    destruct (cli E _ None) as [done| |msg]; cbn [app].
    + specialize (Hcheck (stdout done ++ stderr done)%string (returncode done)).
      destruct (check _ _) as [v|e|]; [| |contradiction].
      * eexists _, _, _. split; [reflexivity|]. repeat split. cbn. lia.
      * cbn [orb]. rewrite Hcheck, orb_true_r.
        destruct (is_TimeoutExpired e);
          (eexists _, _, _; split; [reflexivity|]; repeat split; cbn; lia).
    + cbn. eexists _, _, _. split; [reflexivity|]. repeat split. cbn. lia.
    + cbn. eexists _, _, _. split; [reflexivity|]. repeat split. cbn. lia.
  - cbv beta iota zeta delta [bind in_state zoom run_cli emit assign_result get put ret
                              Py.lift f_state f_result f_results result_returncode append
                              raise].
    destruct (cli E _ (Some _)) as [done| |msg]; cbn [app].
    + specialize (Hcheck (stdout done ++ stderr done)%string (returncode done)).
      destruct (check _ _) as [v|e|]; [| |contradiction].
      * eexists _, _, _. split; [reflexivity|]. repeat split. cbn. lia.
      * cbn [orb]. rewrite Hcheck, orb_true_r.
        destruct (is_TimeoutExpired e);
          (eexists _, _, _; split; [reflexivity|]; repeat split; cbn; lia).
    + cbn. eexists _, _, _. split; [reflexivity|]. repeat split. cbn. lia.
    + cbn. eexists _, _, _. split; [reflexivity|]. repeat split. cbn. lia.
  - cbv beta iota zeta delta [bind in_state zoom run_cli emit assign_result get put ret
                              Py.lift f_state f_result f_results result_returncode append
                              raise].
    destruct last as [done|]; cbn.
    + eexists _, _, _. split; [reflexivity|]. repeat split. cbn. lia.
    + eexists _, _, _. split; [reflexivity|]. repeat split. cbn. lia.
Qed.

Lemma run_cases_one_each cases :
  Forall (fun t => forall out rc, exists v, lt_check t out rc = Ret v) cases ->
  forall f, exists last new t,
    run_cases E self cases f = (Ret tt, mkFrame (f_state f) last (f_results f ++ new), t) /\
    map tr_name new = map lt_name cases /\
    (List.length t <= List.length cases)%nat /\ forallb is_local_case t = true.
Proof.
  induction 1 as [|test rest Hcheck _ IH]; intros f.
  - exists (f_result f), [], []. destruct f. cbn. rewrite app_nil_r. repeat split. lia.
  - cbn [run_cases]. unfold bind at 1.
    destruct (@run_case_one test f) as (last1 & res & t1 & -> & Hname & Hlen1 & Hk1).
    { intros out rc. destruct (Hcheck out rc) as [v ->]. exact I. }
    destruct (IH (mkFrame (f_state f) last1 (f_results f ++ [res])))
      as (last2 & new & t2 & -> & Hnames & Hlen2 & Hk2).
    cbn [f_state f_results].
    exists last2, (res :: new), (t1 ++ t2). rewrite <- app_assoc. cbn [app map].
    rewrite Hname, Hnames, length_app, forallb_app, Hk1, Hk2.
    repeat split. cbn [List.length]. lia.
Qed.

(** X9.  [run_cli_local_tests] returns one result for each of the seven cases,
    in their order and under their names, whatever the command line tool
    does: an answer, no answer within the minute, a failure to start.  It
    runs at most seven processes.  Without the executable it runs none and
    returns the one failed result [cli_not_found]. *)
Theorem local_results_one_per_case (s : state) :
  if path_exists E (cli_exe self)
  then exists results t,
         run_cli_local_tests E self s = (Ret results, s, APrint (LHarness RunningLocal) :: t) /\
         map tr_name results = map lt_name define_cli_local_tests /\
         List.length results = 7%nat /\
         (List.length t <= 7)%nat /\ forallb is_local_case t = true
  else run_cli_local_tests E self s
         = (Ret [failed_with "cli_not_found" "CLI executable not found"], s,
            [APrint (LHarness RunningLocal); APrint (LHarness (CliNotFound (cli_exe self)))]).
Proof.
  unfold run_cli_local_tests, run_local_tests.
  cbv beta iota delta [bind log print emit ret].
  destruct (path_exists E (cli_exe self)); cbn [negb]; [|reflexivity].
  destruct (run_cases_one_each local_checks_total (mkFrame s None []))
    as (last & new & t & Hrun & Hnames & Hlen & Hk).
  rewrite Hrun. cbn [f_state f_results app].
  exists new, t. repeat split; try assumption.
  rewrite <- (length_map tr_name), Hnames. reflexivity.
Qed.

(** X10.  A process that does not answer within the minute, or that cannot be
    started, is one failed case and no more: the case is recorded with the
    error ['Timeout'], or with the text of the [OSError], the turn of the
    loop returns, and the result of the previous process is kept as it
    was. *)
Theorem cli_timeout_recorded (test : local_test) (f : frame)
  (argv : list string) (stdin : option string)
  (Hinv : invocation self (lt_input test) = Some (argv, stdin)) :
  (cli E argv stdin = TimedOut ->
   run_case E self test f =
     (Ret tt,
      mkFrame (f_state f) (f_result f) (f_results f ++ [failed_with (lt_name test) "Timeout"]),
      [ARun argv None stdin (Some CLI_TIMEOUT)])) /\
  (forall msg, cli E argv stdin = RunFault msg ->
   run_case E self test f =
     (Ret tt,
      mkFrame (f_state f) (f_result f) (f_results f ++ [failed_with (lt_name test) msg]),
      [ARun argv None stdin (Some CLI_TIMEOUT)])).
Proof.
  destruct test as [name input check]. destruct f as [s last results].
  cbn [lt_input lt_name] in *.
  destruct input as [sql|commands|mode]; cbn in Hinv; try discriminate;
    injection Hinv as <- <-;
    (split; [intros Hcli|intros msg Hcli]);
    unfold run_case, try_except2, try_catch; cbn [lt_name lt_input lt_check];
    cbv beta iota zeta delta [bind in_state zoom run_cli emit assign_result get put ret
                              Py.lift f_state f_result f_results result_returncode append
                              raise];
    rewrite Hcli; reflexivity.
Qed.

(** X11.  A case whose mode is neither ['query'] nor ['interactive'] runs no
    process.  After an earlier case that ran one, it is recorded as failed
    with the output ['Unknown mode: ...'] and the exit status of that
    earlier process, which the variable [result] still holds.  As the first
    case it finds [result] unbound: the [UnboundLocalError] is caught and
    the case is recorded with that error instead. *)
Theorem unknown_mode_reuses_result (name mode : string) (check : string -> Z -> res json)
  (s : state) (results : list test_result) :
  (forall done,
     run_case E self (mkLocalTest name (OtherMode mode) check) (mkFrame s (Some done) results)
       = (Ret tt,
          mkFrame s (Some done)
            (results ++ [mkResult name (JBool false) None None
                           (Some (take 500 ("Unknown mode: " ++ mode)))
                           (Some (returncode done))]),
          [])) /\
  exists e,
    exn_class e = UnboundLocalError /\
    run_case E self (mkLocalTest name (OtherMode mode) check) (mkFrame s None results)
      = (Ret tt, mkFrame s None (results ++ [failed_with name (str e)]), []).
Proof.
  split.
  - intros done. reflexivity.
  - eexists. split; [|reflexivity]. reflexivity.
Qed.

(** X12.  A command line tool that exits with a non-zero status can pass the two
    cases that expect an error and no other, whatever it prints; one that
    exits with status 0 fails those two. *)
Theorem exit_status_decides (out : string) (rc : Z) :
  if (rc =? 0)%Z
  then exists a b c d e,
         map (fun t => lt_check t out rc) define_cli_local_tests
           = [a; b; c; Ret (JBool false); Ret (JBool false); d; e]
  else exists a b,
         map (fun t => lt_check t out rc) define_cli_local_tests
           = [Ret (JBool false); Ret (JBool false); Ret (JBool false); a; b;
              Ret (JBool false); Ret (JBool false)].
Proof.
  unfold define_cli_local_tests, has, rc_is_0, rc_not_0, Py.and_, Py.rbind.
  cbn [map lt_check]. destruct (rc =? 0)%Z; cbn [negb Py.truthy]; eauto 10.
Qed.

End Cases.

(** ** A harness that cannot be made *)

Section Setup.
Import Harness HarnessSpec CaseSpec.
Context {codec : Codec}.
Variable E : env.

(** X13.  Without [IDASDK] in the environment, or with an empty one, and without
    the test database, [main] prints the error of [__init__] and exits with
    status 1: nothing is built, no process is run, no connection opened.
    In every other case the harness is made, with the database the
    arguments name or, by default, the sample of the SDK. *)
Theorem main_refuses_bad_setup (skip : bool) (db : option string) (s : state) :
  match environ_IDASDK E with
  | None | Some EmptyString =>
      main E skip db s
        = (Ret 1%Z, s, [APrint (LFatal "IDASDK environment variable not set")])
  | Some sdk =>
      if path_exists E (chosen_db sdk db)
      then exists self,
             init E skip db s = (Ret self, s, []) /\
             test_db self = chosen_db sdk db /\ skip_build self = skip /\
             main E skip db s = try_except (run E self)
                                  (fun e => print (LFatal (str e)) ;; ret 1%Z) s
      else main E skip db s
             = (Ret 1%Z, s,
                [APrint (LFatal ("Test database not found: " ++ chosen_db sdk db))])
  end.
Proof.
  unfold main, init, chosen_db.
  destruct (environ_IDASDK E) as [[|a sdk]|]; try reflexivity.
  set (path := match db with
               | None | Some EmptyString => _
               | Some p => p
               end).
  destruct (path_exists E path) eqn:Hex; cbn [negb].
  - eexists. split; [reflexivity|]. split; [reflexivity|]. split; [reflexivity|].
    unfold try_except, try_catch, bind at 1, ret at 1.
    destruct (run E _ s) as [[r s'] t]. destruct r; reflexivity.
  - reflexivity.
Qed.

End Setup.

(** ** A build that fails, fails at once *)

Section FailFast.
Import Harness HarnessSpec BuildSpec.
Context {codec : Codec}.
Variables (E : env) (self : harness).

Lemma stops_after_quiet A (m : M state A) (k : A -> M state bool) :
  emits no_build_failure m -> (forall a, stops_at_failure (k a)) ->
  stops_at_failure (bind m k).
Proof.
  intros Hm Hk s. unfold bind. pose proof (quiet_no_failure s Hm) as Hq.
  destruct (m s) as [[[a|e|] s1] t1]; cbn in Hq; try assumption.
  specialize (Hk a s1). destruct (k a s1) as [[[[|]|e|] s2] t2];
    rewrite ?existsb_app, ?Hq; try assumption.
  destruct Hk as (t' & x & -> & Hx & Hq').
  exists (t1 ++ t'), x. rewrite app_assoc, existsb_app, Hq, Hq'. auto.
Qed.

Lemma stops_then (m : M state bool) (k : M state bool) :
  stops_at_failure m -> stops_at_failure k ->
  stops_at_failure (ok <- m ;; if negb ok then ret false else k).
Proof.
  intros Hm Hk s. unfold bind. specialize (Hm s).
  destruct (m s) as [[[[|]|e|] s1] t1]; cbn [negb] in *; try assumption.
  - specialize (Hk s1). destruct (k s1) as [[[[|]|e|] s2] t2];
      rewrite ?existsb_app, ?Hm; try assumption.
    destruct Hk as (t' & x & -> & Hx & Hq').
    exists (t1 ++ t'), x. rewrite app_assoc, existsb_app, Hm, Hq'. auto.
  - cbn. rewrite app_nil_r. assumption.
Qed.

Lemma stops_run_cmake src build : stops_at_failure (run_cmake E self src build).
Proof.
  intros s. unfold run_cmake, run_cmd, bind, log, print, emit, ret, raise.
  destruct (cmake E src _) as [c1|msg]; [|reflexivity].
  destruct (returncode c1 =? 0)%Z; cbn [negb].
  2:{ eexists [_; _], _. cbn. split; [reflexivity|]. split; reflexivity. }
  destruct (cmake E src _) as [c2|msg]; [|reflexivity].
  destruct (returncode c2 =? 0)%Z; cbn [negb]; [reflexivity|].
  eexists [_; _; _], _. cbn. split; [reflexivity|]. split; reflexivity.
Qed.

Lemma stops_build_cli : stops_at_failure (build_cli E self).
Proof.
  intros s. unfold build_cli, run_cmd, bind, log, print, emit, ret, raise.
  destruct (cmake E (cli_dir self) _) as [c1|msg]; [|reflexivity].
  destruct (returncode c1 =? 0)%Z; cbn [negb].
  2:{ eexists [_; _], _. cbn. split; [reflexivity|]. split; reflexivity. }
  destruct (cmake E (cli_dir self) _) as [c2|msg]; [|reflexivity].
  destruct (returncode c2 =? 0)%Z; cbn [negb]; [reflexivity|].
  eexists [_; _; _], _. cbn. split; [reflexivity|]. split; reflexivity.
Qed.

(** X14.  When [build_all] answers [False], the log of the failure is the last
    thing it did: no file is copied and no other build is begun after a
    step has failed, and one failure only is logged.  When it answers
    [True], or when a [cmake] that cannot be run or a copy that fails makes
    it raise, it has logged no failure. *)
Theorem build_stops_at_first_failure (s : state) :
  match build_all E self s with
  | (Ret false, _, t) =>
      exists t' a, t = t' ++ [a] /\ is_build_failure a = true /\
                   existsb is_build_failure t' = false
  | (_, _, t) => existsb is_build_failure t = false
  end.
Proof.
  revert s. change (stops_at_failure (build_all E self)).
  unfold build_all. destruct (skip_build self); [intros s; reflexivity|].
  apply stops_then; [apply stops_run_cmake|].
  repeat (apply stops_after_quiet; [apply quiet_copy_all|intros _]).
  apply stops_then; [apply stops_run_cmake|].
  intros s. pose proof (stops_build_cli s) as H. unfold bind.
  destruct (build_cli E self s) as [[[[|]|e|] s1] t1]; cbn; rewrite ?app_nil_r; assumption.
Qed.

End FailFast.

(** ** The driver: bounds of the probe, and teardown *)

Section DriverBounds.
Import Harness HarnessSpec BuildSpec.
Context {codec : Codec}.
Variables (E : env) (self : harness).

Lemma count_app K t1 t2 : count K (t1 ++ t2) = (count K t1 + count K t2)%nat.
Proof. unfold count. rewrite filter_app, length_app. reflexivity. Qed.

Lemma count_cons K a t : count K (a :: t) = ((if K a then 1 else 0) + count K t)%nat.
Proof. unfold count. cbn. destruct (K a); reflexivity. Qed.

(** Each turn of the probe polls once and sleeps at most once. *)
Lemma probe_counts fuel : forall i start s p,
  driver_process s = Some p ->
  (count is_sleep (snd (probe E fuel i start s)) <= fuel)%nat /\
  (count is_poll (snd (probe E fuel i start s)) <= fuel)%nat.
Proof.
  induction fuel as [|fuel IH]; intros i start s p Hp.
  - cbn [probe]. cbv beta iota delta [bind time get ret diverge log print emit].
    destruct (now s - start <? PROBE_TIMEOUT)%Z; cbn; split; lia.
  - rewrite (probe_step E fuel i start s Hp).
    destruct (now s - start <? PROBE_TIMEOUT)%Z; [|cbn; split; lia].
    destruct (negb (p_alive p) || tick_exited E i); [cbn; split; lia|].
    destruct (accepted (tick_dial E i)); [cbn; split; lia|].
    specialize (IH (S i) start
                  (advance PROBE_SLEEP (advance (Z.of_N (tick_connect_ms E i)) s)) p Hp).
    destruct (probe E fuel (S i) start _) as [[r s'] t]. cbn [snd] in *.
    unfold probe_connect. cbn [app]. rewrite !count_cons. cbn [is_sleep is_poll]. lia.
Qed.

Lemma start_driver_unfolds t0 :
  path_exists E (driver_exe E self) = true -> popen_fault E = None ->
  start_driver E self (mkState None t0 0) =
    let '(r, s', t) :=
      probe E (Z.to_nat (PROBE_TIMEOUT / PROBE_SLEEP)) 0 t0
        (mkState (Some (mkProcess true (server_output E) (server_graceful E))) t0 1) in
    (r, s', [APrint (LHarness (StartingDriver (path_name (test_db self))));
             APopen [driver_exe E self; test_db self];
             APrint (LHarness Waiting)] ++ t).
Proof.
  intros Hexe Hpopen.
  cbv beta iota zeta delta [start_driver bind log print emit popen time get put ret].
  fold (driver_exe E self). rewrite Hexe, Hpopen. cbv beta iota delta [negb now running].
  destruct (probe E _ 0 t0 _) as [[r s'] t]. reflexivity.
Qed.

(** X15.  [start_driver] comes to an end, and its probe is bounded: it polls the
    process at most sixty times and sleeps at most sixty times, half a
    second each, whatever the process and the network do. *)
Theorem probe_is_bounded (s : state) (Hclean : clean s) :
  fst (fst (start_driver E self s)) <> Diverge /\
  (count is_sleep (snd (start_driver E self s)) <= 60)%nat /\
  (count is_poll (snd (start_driver E self s)) <= 60)%nat /\
  forallb (fun a => match a with ASleep ms => (ms =? 500)%Z | _ => true end)
          (snd (start_driver E self s)) = true.
Proof.
  split.
  { destruct (start_driver_spec E self Hclean)
      as [(t & -> & _)|[(e & t & -> & _)|(b & s' & t & p' & -> & _)]]; discriminate. }
  assert (Hsleep : forallb (fun a => match a with ASleep ms => (ms =? 500)%Z | _ => true end)
                     (snd (start_driver E self s)) = true).
  { assert (Hk : emits (fun a => match a with ASleep ms => (ms =? 500)%Z | _ => true end)
                       (start_driver E self)).
    { assert (Hprobe : forall fuel i start,
                emits (fun a => match a with ASleep ms => (ms =? 500)%Z | _ => true end)
                      (probe E fuel i start)).
      { induction fuel as [|fuel IH]; intros i start; cbn [probe].
        - unfold time. steps.
        - unfold time, poll, read_output, sleep, elapse. steps;
            try (apply emits_with_process; intros; steps);
            try (apply emits_with_client;
                 first [ apply emits_connect | apply emits_disconnect ]; reflexivity). }
      unfold start_driver, popen, time. steps; auto. }
    apply Hk. }
  destruct Hclean as [Hd Hr]. destruct s as [dp t0 n]. cbn in Hd, Hr. subst dp n.
  destruct (path_exists E (driver_exe E self)) eqn:Hexe.
  2:{ assert (Hrun : snd (start_driver E self (mkState None t0 0))
                     = [APrint (LHarness (StartingDriver (path_name (test_db self))));
                        APrint (LHarness (DriverNotFound (driver_exe E self)))]).
      { cbv beta iota zeta delta [start_driver bind log print emit ret].
        fold (driver_exe E self). rewrite Hexe. reflexivity. }
      rewrite Hrun in *. cbn. repeat split; try lia. }
  destruct (popen_fault E) as [msg|] eqn:Hpopen.
  { assert (Hrun : snd (start_driver E self (mkState None t0 0))
                   = [APrint (LHarness (StartingDriver (path_name (test_db self))));
                      APopen [driver_exe E self; test_db self]]).
    { cbv beta iota zeta delta [start_driver bind log print emit popen raise].
      fold (driver_exe E self). rewrite Hexe, Hpopen. reflexivity. }
    rewrite Hrun in *. cbn. repeat split; try lia. }
  rewrite (start_driver_unfolds t0 Hexe Hpopen) in *.
  pose proof (@probe_counts (Z.to_nat (PROBE_TIMEOUT / PROBE_SLEEP)) 0 t0
                (mkState (Some (mkProcess true (server_output E) (server_graceful E))) t0 1)
                _ eq_refl) as [Hs Hp].
  destruct (probe E _ 0 t0 _) as [[r s'] t]. cbn [snd] in *.
  change (Z.to_nat (PROBE_TIMEOUT / PROBE_SLEEP)) with 60%nat in *.
  rewrite !count_app. cbn. repeat split; try assumption.
Qed.

(** A probe that answers [True] has just had a connection accepted and has
    closed it: these are its last calls. *)
Lemma probe_ready fuel : forall i start s p,
  driver_process s = Some p ->
  fst (fst (probe E fuel i start s)) = Ret true ->
  exists t',
    snd (probe E fuel i start s)
      = t' ++ APoll :: probe_connect ++ [AClose; APrint (LHarness ServerReady)] /\
    existsb is_close t' = false /\
    driver_process (snd (fst (probe E fuel i start s))) = Some p /\
    running (snd (fst (probe E fuel i start s))) = running s /\
    p_alive p = true.
Proof.
  induction fuel as [|fuel IH]; intros i start s p Hp.
  - cbn [probe]. cbv beta iota delta [bind time get ret diverge log print emit].
    destruct (now s - start <? PROBE_TIMEOUT)%Z; cbn; discriminate.
  - rewrite (probe_step E fuel i start s Hp).
    destruct (now s - start <? PROBE_TIMEOUT)%Z; [|cbn; discriminate].
    destruct (negb (p_alive p) || tick_exited E i) eqn:Hdead; [cbn; discriminate|].
    apply orb_false_elim in Hdead. destruct Hdead as [Halive _].
    apply negb_false_iff in Halive.
    destruct (accepted (tick_dial E i)).
    + intros _. exists []. cbn [fst snd app advance driver_process running]. auto.
    + specialize (IH (S i) start
                    (advance PROBE_SLEEP (advance (Z.of_N (tick_connect_ms E i)) s)) p Hp).
      destruct (probe E fuel (S i) start _) as [[r s'] t]. cbn [fst snd] in *.
      intros Hr. destruct (IH Hr) as (t' & -> & Hc & Hd & Hn & _).
      exists (APoll :: probe_connect ++ ASleep PROBE_SLEEP :: t').
      repeat split; assumption.
Qed.

(** X16.  When [start_driver] answers [True], its last calls are a poll that found
    the process alive, a connection that was accepted, and the [close] of
    that connection, the only one closed; then the line 'Server is ready.'
    Nothing has been sent to the server or read from it: to be ready is to
    accept a connection.  The harness holds the process, alive, with its
    output unread. *)
Theorem ready_means_accepted (s : state) (Hclean : clean s)
  (Hready : fst (fst (start_driver E self s)) = Ret true) :
  (exists t',
     snd (start_driver E self s)
       = t' ++ [APoll; ASocket; ASetTimeout PROBE_CONNECT_TIMEOUT;
                AConnect "localhost" 13337; AClose; APrint (LHarness ServerReady)] /\
     existsb is_close t' = false) /\
  existsb is_traffic (snd (start_driver E self s)) = false /\
  driver_process (snd (fst (start_driver E self s)))
    = Some (mkProcess true (server_output E) (server_graceful E)) /\
  running (snd (fst (start_driver E self s))) = 1%nat.
Proof.
  assert (Hquiet : existsb is_traffic (snd (start_driver E self s)) = false).
  { pose proof (emits_start_driver E self s) as He.
    destruct (existsb is_traffic _) eqn:Hex; [|reflexivity].
    apply existsb_exists in Hex. destruct Hex as (a & Hin & Ha).
    rewrite forallb_forall in He. specialize (He a Hin).
    destruct a; discriminate. }
  destruct Hclean as [Hd Hr]. destruct s as [dp t0 n]. cbn in Hd, Hr. subst dp n.
  destruct (path_exists E (driver_exe E self)) eqn:Hexe.
  2:{ exfalso. revert Hready.
      cbv beta iota zeta delta [start_driver bind log print emit ret].
      fold (driver_exe E self). rewrite Hexe. discriminate. }
  destruct (popen_fault E) as [msg|] eqn:Hpopen.
  { exfalso. revert Hready.
    cbv beta iota zeta delta [start_driver bind log print emit popen raise].
    fold (driver_exe E self). rewrite Hexe, Hpopen. discriminate. }
  rewrite (start_driver_unfolds t0 Hexe Hpopen) in *.
  pose proof (@probe_ready (Z.to_nat (PROBE_TIMEOUT / PROBE_SLEEP)) 0 t0
                (mkState (Some (mkProcess true (server_output E) (server_graceful E))) t0 1)
                _ eq_refl) as Hp.
  destruct (probe E _ 0 t0 _) as [[r s'] t]. cbn [fst snd] in *.
  destruct (Hp Hready) as (t' & -> & Hc & Hdp & Hrun & _).
  repeat split; try assumption.
  eexists (_ :: _ :: _ :: t'). split; [reflexivity|]. exact Hc.
Qed.

(** X17.  [stop_driver] on a process that has already exited: [terminate] and the
    bounded [wait] are called and return, [kill] is not, what the process
    had written is read, and printed when it is not blank; the harness then
    holds no process.  A second [stop_driver], like one on a harness that
    never started a driver, does nothing at all. *)
Theorem stop_driver_twice (s : state) (Hc : consistent s) :
  (forall p, driver_process s = Some p -> p_alive p = false ->
     stop_driver s =
       (Ret tt, mkState None (now s) 0,
        [APrint (LHarness Stopping); ATerminate; AWait (Some 5000%Z);
         AReadOutput (p_unread p)]
        ++ (if Py.strip_nonempty (p_unread p)
            then [APrint (LDriverOutput (p_unread p))] else []))) /\
  (driver_process s = None -> stop_driver s = (Ret tt, s, [])) /\
  (stop_driver ;; stop_driver) s
    = (Ret tt, mkState None (now s) 0, snd (stop_driver s)).
Proof.
  destruct (@stop_driver_spec s Hc) as (t & Hrun & Hshape).
  split; [|split].
  - intros p Hp Hdead. rewrite Hrun. rewrite Hp in Hshape. rewrite Hdead in Hshape.
    cbn [andb app] in Hshape. subst t. reflexivity.
  - intros Hnone. destruct s as [dp t0 n]. cbn in Hnone. subst dp. reflexivity.
  - unfold bind. rewrite Hrun.
    change (stop_driver (mkState None (now s) 0))
      with (Ret tt, mkState None (now s) 0, @nil action).
    cbn [snd]. rewrite app_nil_r. reflexivity.
Qed.

End DriverBounds.

(** ** The remote-mode stage *)

Section RemoteStage.
Import Client ClientSpec Harness HarnessSpec.
Context {codec : Codec}.
Variable E : env.

(** The conversion of results that hold a dictionary: one entry for each,
    in order, under the prefixed name, with no error text when passed. *)
Lemma convert_spec results :
  Forall (fun r => exists kvs x, br_result r = JDict kvs /\
                                 Py.lookup "success" kvs = Some x) results ->
  exists out,
    convert results = Ret out /\
    map tr_name out = map (fun r => ("cli_remote_" ++ br_name r)%string) results /\
    map tr_passed out = map br_passed results /\
    map tr_sql out = map (fun r => Some (br_sql r)) results /\
    Forall (fun o => Py.truthy (tr_passed o) = true -> tr_error o = Some (JStr EmptyString))
           out.
Proof.
  induction 1 as [|r rest (kvs & x & Hd & _) _ (out & Hout & Hn & Hp & Hq & He)].
  - exists []. repeat split; constructor.
  - cbn [convert]. rewrite Hd, Hout. unfold dict_get, Py.rbind.
    destruct (Py.truthy (br_passed r)) eqn:Hpassed; cbn [negb].
    + eexists. split; [reflexivity|]. cbn [map tr_name tr_passed tr_sql].
      rewrite Hn, Hp, Hq. repeat split. constructor; [|assumption]. reflexivity.
    + destruct (Py.lookup "error" kvs) as [err|];
        (eexists; split; [reflexivity|]; cbn [map tr_name tr_passed tr_sql];
         rewrite Hn, Hp, Hq; repeat split; constructor; [|assumption];
         cbn [tr_passed]; congruence).
Qed.

(** X18.  A refused connection is one failed case, [remote_connect], and nothing
    is sent.  On an accepted connection, whenever [run_basic_tests]
    returns, [run_remote_tests] returns too: the connection is closed, and
    the six results come back in order under the names [cli_remote_...],
    with the verdicts of the basic tests and an empty error text for those
    that passed; the conversion raises nothing. *)
Theorem remote_tests_outcome (s : state) :
  match remote_dial E with
  | Refused _ =>
      run_remote_tests E s =
        (Ret [failed_with "remote_connect" "Failed to connect"], s,
         [APrint (LHarness RunningRemote); ASocket; ASetTimeout CONNECT_TIMEOUT;
          AConnect "localhost" 13337; APrint (LHarness ConnectFailed)])
  | Accepted sk =>
      forall results c1 t1,
        run_basic_tests (set_sock (Some sk) new_default) = (Ret results, c1, t1) ->
        exists out,
          run_remote_tests E s =
            (Ret out, s,
             [APrint (LHarness RunningRemote); ASocket; ASetTimeout CONNECT_TIMEOUT;
              AConnect "localhost" 13337] ++ t1 ++ [AClose]) /\
          List.length out = 6%nat /\
          map tr_name out = map (fun r => ("cli_remote_" ++ br_name r)%string) results /\
          map tr_passed out = map br_passed results /\
          Forall (fun o => Py.truthy (tr_passed o) = true ->
                           tr_error o = Some (JStr EmptyString)) out
  end.
Proof.
  unfold run_remote_tests.
  destruct (remote_dial E) as [msg|sk].
  - reflexivity.
  - intros results c1 t1 Hrun.
    destruct (@basic_results_shape _ _ _ _ _ Hrun) as (Hlen & Hwf).
    destruct (convert_spec Hwf) as (out & Hout & Hn & Hp & _ & He).
    assert (Hconn : exists sk1, sock c1 = Some sk1).
    { pose proof (run_tests_from_keeps_connection tests []
                    (set_sock (Some sk) new_default)) as Hk.
      unfold run_basic_tests in Hrun. rewrite Hrun in Hk. cbn in Hk.
      unfold is_connected in Hk. destruct (sock c1) as [sk1|]; [eauto|discriminate]. }
    destruct Hconn as [sk1 Hsk1].
    exists out. split; [|split; [|split; [|split]]]; try assumption.
    + cbv beta iota zeta delta [bind log print emit with_client ret connect try_except
                                try_catch get put is_Exception Py.lift negb fst snd].
      cbn [set_sock host port new_default new app].
      change (mkClient "localhost" 13337 (Some sk)) with (set_sock (Some sk) new_default).
      rewrite Hrun. rewrite (disconnect_closes c1 Hsk1). rewrite Hout.
      cbn [app]. rewrite ?app_nil_r. reflexivity.
    + rewrite <- (length_map tr_name), Hn, length_map. exact Hlen.
Qed.

End RemoteStage.

(** ** The environment of the child processes *)

Section ChildEnvironment.
Import Harness CliEnv.

Lemma env_get_set_same k v d env : env_get k d (env_set k v env) = v.
Proof.
  induction env as [|[k' v'] rest IH]; cbn.
  - rewrite String.eqb_refl. reflexivity.
  - destruct (String.eqb k k') eqn:Hk; cbn; rewrite ?String.eqb_refl, ?Hk; auto.
Qed.

Lemma env_get_set_other k k' v d env :
  k' <> k -> env_get k' d (env_set k v env) = env_get k' d env.
Proof.
  intros Hne. induction env as [|[k0 v0] rest IH]; cbn.
  - apply String.eqb_neq in Hne. rewrite Hne. reflexivity.
  - destruct (String.eqb k k0) eqn:Hk; cbn.
    + apply String.eqb_eq in Hk. subst k0. apply String.eqb_neq in Hne. rewrite Hne.
      reflexivity.
    + destruct (String.eqb k' k0); auto.
Qed.

Lemma env_set_length k v env :
  List.length (env_set k v env)
    = if env_has k env then List.length env else S (List.length env).
Proof.
  induction env as [|[k0 v0] rest IH]; cbn; [reflexivity|].
  destruct (String.eqb k k0); cbn; [reflexivity|]. rewrite IH.
  destruct (env_has k rest); reflexivity.
Qed.

(** X19.  The environment [get_cli_env] returns has the [bin] directory of IDA
    first in the search path of the platform's loader ([PATH] with [;] on
    Windows, [DYLD_LIBRARY_PATH] on macOS, [LD_LIBRARY_PATH] elsewhere, with
    [:]), before what the variable held, or before nothing when it was not
    set; every other variable reads as before, and no variable is added but
    that one when it was missing. *)
Theorem get_cli_env_prepends (platform : platform) (idabin : string) (os_environ : environ) :
  (forall d,
     env_get (search_path_variable platform) d (get_cli_env platform idabin os_environ)
       = (idabin ++ search_path_separator platform
          ++ env_get (search_path_variable platform) "" os_environ)%string) /\
  (forall k d, k <> search_path_variable platform ->
     env_get k d (get_cli_env platform idabin os_environ) = env_get k d os_environ) /\
  List.length (get_cli_env platform idabin os_environ)
    = (if env_has (search_path_variable platform) os_environ
       then List.length os_environ else S (List.length os_environ)).
Proof.
  destruct platform; unfold get_cli_env, search_path_variable, search_path_separator;
    (split; [intros d; apply env_get_set_same
            |split; [intros k d Hk; apply env_get_set_other; assumption
                    |apply env_set_length]]).
Qed.

End ChildEnvironment.

(** ** The exit status of the harness *)

Section ExitStatus.
Import Harness HarnessSpec.
Context {codec : Codec}.
Variable E : env.


End ExitStatus.

(** ** The client as a context manager *)

Section ContextManager.
Import Client ClientSpec.
Context {codec : Codec}.

Lemma query_keeps_address sql c :
  set_sock None (snd (fst (query sql c))) = set_sock None c.
Proof.
  destruct (sock c) as [sk|] eqn:Hs.
  2:{ rewrite query_not_connected by assumption. reflexivity. }
  destruct (Z_le_gt_dec (Z.of_nat (List.length (dumps_sql sql))) Wire.U32_MAX) as [Hfit|Hfit].
  2:{ destruct (query_request_too_long (sql:=sql) c Hs) as [msg H].
      { unfold request_fits. lia. }
      rewrite H. reflexivity. }
  destruct (send_fault sk) as [msg|] eqn:Hsend.
  - destruct (query_send_fault c Hs Hfit Hsend) as (sk' & H & _). rewrite H.
    cbn [fst snd]. apply set_sock_twice.
  - destruct (query_receives c Hs Hfit Hsend) as (sk' & t & H & _). rewrite H.
    cbn [fst snd]. apply set_sock_twice.
Qed.

(** X21.  [with IdasqlClient(...) as client: client.query(sql)].  [__enter__]
    ignores what [connect] answers: when the connection is refused the body
    runs all the same, its query is answered 'Not connected' with nothing
    sent, and [__exit__] has nothing to close.  When the connection is
    accepted, the query is the one of a connected client, and [__exit__]
    closes the socket as the last call.  Either way the client ends with no
    socket. *)
Theorem with_statement (d : dial) (sql : string) (c : client) :
  match d with
  | Refused _ =>
      (enter d ;; v <- query sql ;; exit ;; ret v) c =
        (Ret (failure "Not connected"), set_sock None c,
         [ASocket; ASetTimeout 5000; AConnect (host c) (port c)])
  | Accepted sk =>
      (enter d ;; v <- query sql ;; exit ;; ret v) c =
        (fst (fst (query sql (set_sock (Some sk) c))), set_sock None c,
         [ASocket; ASetTimeout 5000; AConnect (host c) (port c)]
         ++ snd (query sql (set_sock (Some sk) c)) ++ [AClose])
  end.
Proof.
  destruct d as [msg|sk].
  - destruct c as [h p o]. reflexivity.
  - destruct (query_returns sql (set_sock (Some sk) c)) as (v & c1 & t1 & Hq).
    rewrite Hq. cbn [fst snd].
    assert (Hconn : exists sk1, sock c1 = Some sk1 /\ set_sock None c1 = set_sock None c).
    { pose proof (query_keeps_connection sql (set_sock (Some sk) c)) as Hk.
      rewrite Hq in Hk. cbn in Hk. unfold is_connected in Hk.
      destruct (sock c1) as [sk1|] eqn:Hs; [|discriminate].
      exists sk1. split; [reflexivity|].
      pose proof (query_keeps_address sql (set_sock (Some sk) c)) as Hh.
      rewrite Hq in Hh. cbn [fst snd] in Hh. rewrite set_sock_twice in Hh. exact Hh. }
    destruct Hconn as (sk1 & Hsk1 & Hsame).
    unfold enter, exit.
    assert (Hc : connect (Accepted sk) 5000 c
                 = (Ret true, set_sock (Some sk) c,
                    [ASocket; ASetTimeout 5000; AConnect (host c) (port c)])).
    { destruct c as [h p o]. reflexivity. }
    unfold bind, ret. rewrite Hc. cbv beta iota. rewrite Hq. cbv beta iota.
    rewrite (disconnect_closes c1 Hsk1), Hsame.
    cbn [app]. rewrite ?app_nil_r. reflexivity.
Qed.

End ContextManager.

(** ** What is kept and what is shown of the output of a case *)

Section CaseOutput.
Import Harness HarnessSpec CaseSpec.
Context {codec : Codec}.
Variables (E : env) (self : harness).

Lemma take_length n : forall s, (String.length (take n s) <= n)%nat.
Proof.
  unfold take. induction n as [|n IH]; intros [|c s]; cbn; try lia.
  specialize (IH s). lia.
Qed.



(** X22.  A case whose process ran to its end is recorded with the verdict of
    its predicate and the exit status of the process; its output is kept
    only when the case is failed, and then cut to its first 500
    characters. *)
Theorem completed_case_recorded (test : local_test) (f : frame)
  (argv : list string) (stdin : option string) (done : Harness.completed) (v : json)
  (Hinv : invocation self (lt_input test) = Some (argv, stdin))
  (Hcli : cli E argv stdin = Completed done)
  (Hcheck : lt_check test (stdout done ++ stderr done)%string (returncode done) = Ret v) :
  run_case E self test f =
    (Ret tt,
     mkFrame (f_state f) (Some done)
       (f_results f ++
        [mkResult (lt_name test) v None None
           (Some (if Py.truthy v then EmptyString
                  else take 500 (stdout done ++ stderr done)))
           (Some (returncode done))]),
     [ARun argv None stdin (Some CLI_TIMEOUT)]) /\
  (String.length (take 500 (stdout done ++ stderr done)) <= 500)%nat.
Proof.
  split; [|apply take_length].
  destruct test as [name input check]. destruct f as [s last results].
  cbn [lt_input lt_name lt_check] in *.
  destruct input as [sql|commands|mode]; cbn in Hinv; try discriminate;
    injection Hinv as <- <-;
    unfold run_case, try_except2, try_catch; cbn [lt_name lt_input lt_check];
    cbv beta iota zeta delta [bind in_state zoom run_cli emit assign_result get put ret
                              Py.lift f_state f_result f_results result_returncode append
                              raise];
    rewrite Hcli; cbv beta iota; rewrite Hcheck; cbn [fst snd app];
    destruct (Py.truthy v); reflexivity.
Qed.


End CaseOutput.

(** ** More concrete runs *)

Module MoreRuns.
Import Client ClientSpec Harness HarnessSpec CaseSpec BuildSpec ClientMain.
Import Examples MoreExamples.

Lemma select_2_fits : request_fits "SELECT 2".
Proof. vm_compute. discriminate. Qed.

Lemma good_results_run :
  run_basic_tests (connected good_server)
    = (Ret good_results, snd (fst (run_basic_tests (connected good_server))),
       snd (run_basic_tests (connected good_server))).
Proof. vm_compute. reflexivity. Qed.

(** Two queries against a server that sends an error, then rows. *)
Lemma two_replies_in_turn :
  stream_bytes (inbox two_replies) = FrameSpec.frame (bytes error_text) ++ FrameSpec.frame (bytes rows_text) ++ [] /\
  fst (fst ((v1 <- query "SELECT 1" ;; v2 <- query "SELECT 2" ;; ret (v1, v2))
              (connected two_replies)))
    = Ret (error_value, rows_value).
Proof.
  assert (Hstream : stream_bytes (inbox two_replies)
                    = FrameSpec.frame (bytes error_text) ++ FrameSpec.frame (bytes rows_text) ++ [])
    by (vm_compute; reflexivity).
  assert (Hlen1 : (Z.of_nat (List.length (bytes error_text)) <= RESPONSE_LIMIT)%Z)
    by (vm_compute; discriminate).
  assert (Hlen2 : (Z.of_nat (List.length (bytes rows_text)) <= RESPONSE_LIMIT)%Z)
    by (vm_compute; discriminate).
  split; [exact Hstream|].
  destruct (@queries_read_frames_in_turn table_codec "SELECT 1" "SELECT 2"
              (connected two_replies) two_replies (bytes error_text) (bytes rows_text) []
              eq_refl eq_refl eq_refl Hstream Hlen1 Hlen2 Runs.select_1_fits select_2_fits)
    as (sk' & t & Hrun & _).
  rewrite Hrun. cbn [fst]. vm_compute. reflexivity.
Defined.

(** One request goes out on a connection that is then reset. *)
Lemma one_frame_on_reset_socket :
  sock (connected reset_socket) = Some reset_socket /\
  sent (snd (query "SELECT 1" (connected reset_socket))) = [request_frame "SELECT 1"].
Proof.
  split; [reflexivity|].
  exact (proj1 (@query_sends_one_frame table_codec "SELECT 1" (connected reset_socket)
                  reset_socket eq_refl Runs.select_1_fits)).
Defined.

(** The six results against the server that answers as expected. *)
Lemma good_results_well_formed :
  List.length good_results = 6%nat /\
  map br_name good_results
    = ["count_funcs"; "list_funcs"; "list_segments"; "list_names"; "invalid_table";
       "syntax_error"]%string.
Proof.
  destruct (@basic_results_well_formed table_codec _ _ _ _ good_results_run)
    as (Hlen & Hnames & _).
  split; [exact Hlen|]. rewrite Hnames. reflexivity.
Defined.

(** [python test_client.py] against that server exits with status 0. *)
Lemma client_main_on_good_server :
  port_of int_13337 ["test_client.py"]%string = Ret 13337%Z /\
  fst (fst (main int_13337 ["test_client.py"]%string (Accepted good_server) blank)) = Ret 0%Z.
Proof.
  split; [reflexivity|].
  destruct (@client_main_exit_status table_codec int_13337 ["test_client.py"]%string
              good_server blank 13337 good_results _ _ eq_refl good_results_run)
    as (_ & lines & Hmain & _).
  rewrite Hmain. cbn [fst]. vm_compute. reflexivity.
Defined.

(** [python test_client.py localhost 13337] against the server that answers
    [{}]: the [KeyError] leaves [main], the socket still held. *)
Lemma client_main_on_keyless_server :
  fst (fst (main int_13337 ["test_client.py"; "localhost"; "13337"]%string
              (Accepted keyless_server) blank))
    = Raise (mkExn KeyError "'success'") /\
  is_connected (s_client (snd (fst (main int_13337
                                      ["test_client.py"; "localhost"; "13337"]%string
                                      (Accepted keyless_server) blank)))) = true.
Proof.
  assert (Hrun : run_basic_tests (set_sock (Some keyless_server)
                    (new (host_of ["test_client.py"; "localhost"; "13337"]%string) 13337))
                 = (Raise (mkExn KeyError "'success'"),
                    snd (fst (run_basic_tests (connected keyless_server))),
                    snd (run_basic_tests (connected keyless_server))))
    by (vm_compute; reflexivity).
  destruct (@client_main_leaves_socket_open table_codec int_13337
              ["test_client.py"; "localhost"; "13337"]%string keyless_server blank 13337
              _ _ _ eq_refl Hrun) as (Hmain & Hconn & _).
  rewrite Hmain. cbn [fst snd s_client]. split; [reflexivity|exact Hconn].
Defined.

(** The first local-mode case against a tool that never answers. *)
Lemma timeout_on_hanging_cli :
  cli hanging_env [cli_exe (harness_in hanging_env); "-s"; test_db (harness_in hanging_env);
                   "-q"; "SELECT COUNT(*) as count FROM funcs"]%string None = TimedOut /\
  f_results (snd (fst (run_case hanging_env (harness_in hanging_env) first_case first_turn)))
    = [failed_with "cli_local_count_funcs" "Timeout"].
Proof.
  split; [reflexivity|].
  rewrite (proj1 (@cli_timeout_recorded hanging_env (harness_in hanging_env) first_case
                    first_turn _ _ eq_refl) eq_refl).
  reflexivity.
Defined.

(** The first local-mode case against a tool that fails on everything. *)
Lemma failed_case_keeps_output :
  f_results (snd (fst (run_case failing_env (harness_in failing_env) first_case first_turn)))
    = [mkResult "cli_local_count_funcs" (JBool false) None None
         (Some "cannot open database"%string) (Some 1%Z)].
Proof.
  rewrite (proj1 (@completed_case_recorded failing_env (harness_in failing_env) first_case
                    first_turn _ _ (mkCompleted 1 "" "cannot open database") (JBool false)
                    eq_refl eq_refl eq_refl)).
  reflexivity.
Defined.

(** The probe of the run where every case passes: one sleep, two polls. *)
Lemma good_probe_is_short :
  clean (fresh 0) /\
  (count is_sleep (snd (start_driver good_env (harness_in good_env) (fresh 0))) <= 60)%nat /\
  (count is_poll (snd (start_driver good_env (harness_in good_env) (fresh 0))) <= 60)%nat.
Proof.
  split; [split; reflexivity|].
  destruct (@probe_is_bounded good_env (harness_in good_env) (fresh 0)
              (conj eq_refl eq_refl)) as (_ & Hs & Hp & _).
  split; assumption.
Defined.

Lemma good_server_is_ready :
  fst (fst (start_driver good_env (harness_in good_env) (fresh 0))) = Ret true /\
  running (snd (fst (start_driver good_env (harness_in good_env) (fresh 0)))) = 1%nat /\
  existsb is_traffic (snd (start_driver good_env (harness_in good_env) (fresh 0))) = false.
Proof.
  assert (Hready : fst (fst (start_driver good_env (harness_in good_env) (fresh 0)))
                   = Ret true) by (vm_compute; reflexivity).
  split; [exact Hready|].
  destruct (@ready_means_accepted good_env (harness_in good_env) (fresh 0)
              (conj eq_refl eq_refl) Hready) as (_ & Hq & _ & Hr).
  split; assumption.
Defined.

(** Stopping a driver that has died on its own, twice. *)
Lemma dead_driver_stopped_twice :
  consistent dead_driver /\
  (stop_driver ;; stop_driver) dead_driver
    = (Ret tt, mkState None 0 0,
       [APrint (LHarness Stopping); ATerminate; AWait (Some 5000%Z);
        AReadOutput "Segmentation fault";
        APrint (LDriverOutput "Segmentation fault")]).
Proof.
  split; [reflexivity|].
  destruct (@stop_driver_twice dead_driver eq_refl) as (Hdead & _ & Htwice).
  rewrite Htwice. rewrite (Hdead _ eq_refl eq_refl). reflexivity.
Defined.

(** The remote-mode stage of the run where every case passes. *)
Lemma good_remote_stage :
  exists out,
    fst (fst (run_remote_tests good_env (fresh 0))) = Ret out /\
    List.length out = 6%nat.
Proof.
  pose proof (@remote_tests_outcome table_codec good_env (fresh 0)) as H.
  cbn [remote_dial good_env] in H.
  destruct (H good_results _ _ good_results_run) as (out & Hrun & Hlen & _).
  exists out. rewrite Hrun. split; [reflexivity|exact Hlen].
Defined.

End MoreRuns.

(** ** Frames of length zero *)

Section EmptyFrame.
Import Client ClientSpec.
Context {codec : Codec}.

(** X24.  A count of zero bytes, or less, is received without a call to
    [recv].  So a reply whose prefix declares no payload is a frame like
    any other: [query] reads its four bytes and no more, hands the empty
    text to the decoder, and answers with what the decoder makes of it, the
    failure dictionary of its error if it refuses; the stream is left at
    the next frame. *)
Theorem empty_frame_is_decoded (sql : string) (c : client) (sk : socket) (rest : list byte)
  (Hconn : sock c = Some sk) (Hsend : send_faults sk = [])
  (Hclean : first_fault (inbox sk) = None)
  (Hstream : stream_bytes (inbox sk) = [Byte.x00; Byte.x00; Byte.x00; Byte.x00] ++ rest)
  (Hfit : request_fits sql) :
  (forall n, (n <= 0)%Z -> _recv_exact n c = (Ret (Some []), c, [])) /\
  exists sk' t,
    query sql c =
      (Ret (match loads [] with inl v => v | inr msg => failure msg end),
       set_sock (Some sk') c, ASendAll (request_frame sql) :: t) /\
    received t = [Byte.x00; Byte.x00; Byte.x00; Byte.x00] /\
    stream_bytes (inbox sk') = rest.
Proof.
  split.
  - intros n Hn. unfold _recv_exact.
    replace (Z.to_nat n) with 0%nat by lia. cbn [recv_exact_loop List.length].
    destruct (Z.ltb_spec (Z.of_nat 0) n); [lia|]. reflexivity.
  - destruct (@query_on_frame codec sql c sk [] rest Hconn Hfit Hsend Hclean Hstream)
      as (sk' & t & Hrun & _ & Hrecv & _ & _ & Hleft).
    { vm_compute. discriminate. }
    exists sk', t. repeat split; assumption.
Qed.

End EmptyFrame.

(** ** Which processes may take forever *)

Section Timeouts.
Import Harness HarnessSpec TimeoutSpec.
Context {codec : Codec}.
Variables (E : env) (self : harness).

Lemma within_run_cli argv input : emits within_a_minute (run_cli E argv input).
Proof. unfold run_cli. steps. Qed.

Lemma within_run_case test : emits within_a_minute (run_case E self test).
Proof.
  destruct (emits_frame_ops within_a_minute) as (Ha & Hp & Hr).
  unfold run_case. steps; auto using emits_in_state, within_run_cli.
Qed.

Lemma within_run_cases cases : emits within_a_minute (run_cases E self cases).
Proof. induction cases as [|test rest IH]; simpl; steps; auto using within_run_case. Qed.

(** X25.  Every process of the local-mode stage is run with the timeout of
    sixty seconds, from the directory the harness was started in; the
    [cmake] processes of the build stage are run in the directory they
    build, with no input and no timeout: a build that hangs is waited for
    without end. *)
Theorem only_the_cases_are_timed (s : state) :
  forallb within_a_minute (snd (run_cli_local_tests E self s)) = true /\
  forallb without_timeout (snd (build_all E self s)) = true.
Proof.
  split.
  - revert s. change (emits within_a_minute (run_cli_local_tests E self)).
    unfold run_cli_local_tests, run_local_tests. steps. intros s.
    pose proof (within_run_cases define_cli_local_tests (mkFrame s None [])) as H.
    destruct (run_cases E self define_cli_local_tests (mkFrame s None [])) as [[r f] t].
    assumption.
  - apply (@forallb_weaken build_action without_timeout).
    + intros a. destruct a as [| | | | | |argv [cwd|] [input|] [t|]| | | | | | | | |l];
        try reflexivity; try discriminate.
    + apply emits_build_all.
Qed.

End Timeouts.

Module EdgeRuns.
Import Client ClientSpec Harness HarnessSpec TimeoutSpec Examples.

(** A server that answers with a frame of length zero: the decoder refuses
    the empty text, and its error comes back. *)
Lemma empty_reply_is_refused :
  stream_bytes (inbox empty_reply) = [Byte.x00; Byte.x00; Byte.x00; Byte.x00] ++ [] /\
  fst (fst (query "SELECT 1" (connected empty_reply)))
    = Ret (failure "Expecting value: line 1 column 1 (char 0)").
Proof.
  split; [reflexivity|].
  destruct (@empty_frame_is_decoded table_codec "SELECT 1" (connected empty_reply) empty_reply
              [] eq_refl eq_refl eq_refl eq_refl Runs.select_1_fits)
    as (_ & sk' & t & Hrun & _).
  rewrite Hrun. reflexivity.
Defined.

End EdgeRuns.
